(** * Autodesk_MCP: the crawl and extraction engine, embedded and verified

    The development follows the two scrapers of the repository:

    - [scraper_tavily/tavily_scraper.py]: the content cleaner
      ([clean_content], [_simple_clean], [_strip_footer]) and the
      batch orchestrator [scrape] with its resume check and index rebuild;
    - [scraper/scraper.py]: the browser-driven [AutodeskDocsScraper], its
      link discovery, tree expansion, content extraction and result saving;

    and the reader of what they store:

    - [server/mcp_server.py]: [load_documentation] and the keyword search
      [search_docs] with its snippets ([extract_snippet]).

    A Python [str] is a sequence of Unicode code points: it is modelled as a
    list of code points ([N]), so that [len], slicing and [find] count what
    Python counts.  Calls that leave the process (the rendering browser, the
    extraction API, the clock) are explicit oracles passed to the functions
    that use them; the output directory is a finite map from file names to
    file contents. *)

From stdpp Require Import gmap strings list.
From Stdlib Require Import ZArith Lia.

Local Open Scope Z_scope.

(** ** Python strings *)

Module PyStr.

Abbreviation str := (list N).

(** An ASCII literal of the source as a sequence of code points. *)
Definition u (s : string) : str :=
  Ascii.N_of_ascii <$> String.list_ascii_of_string s.

Definition NL : N := 10%N.

(** [len(s)] of a string, and of a list *)
Definition len (s : str) : Z := Z.of_nat (length s).
Definition len_list {A : Type} (l : list A) : Z := Z.of_nat (length l).

(** [str.isspace] on one code point: the characters Python's [strip] and the
    regex class [\s] treat as white space. *)
Definition isspace (c : N) : bool :=
  ((9 <=? c) && (c <=? 13) || (28 <=? c) && (c <=? 32) || (c =? 133)
   || (c =? 160) || (c =? 5760) || (8192 <=? c) && (c <=? 8202)
   || (c =? 8232) || (c =? 8233) || (c =? 8239) || (c =? 8287)
   || (c =? 12288))%N.

Fixpoint lstrip (s : str) : str :=
  match s with
  | [] => []
  | c :: s' => if isspace c then lstrip s' else s
  end.

Fixpoint rstrip (s : str) : str :=
  match s with
  | [] => []
  | c :: s' =>
      match rstrip s' with
      | [] => if isspace c then [] else [c]
      | r => c :: r
      end
  end.

Definition strip (s : str) : str := rstrip (lstrip s).

(** [s.startswith(p)] *)
Fixpoint startswith (s p : str) {struct p} : bool :=
  match p, s with
  | [], _ => true
  | _ :: _, [] => false
  | a :: p', b :: s' => (a =? b)%N && startswith s' p'
  end.

(** [s.endswith(p)] *)
Definition endswith (s p : str) : bool := startswith (reverse s) (reverse p).

(** The lowest index at which [m] occurs in [c], if any. *)
Fixpoint index_of (m c : str) : option nat :=
  if startswith c m then Some 0%nat
  else match c with
       | [] => None
       | _ :: c' => S <$> index_of m c'
       end.

(** [c.find(m)]: the lowest index, or -1. *)
Definition find (c m : str) : Z :=
  match index_of m c with
  | Some i => Z.of_nat i
  | None => -1
  end.

(** [m in c] *)
Definition contains (c m : str) : bool := bool_decide (0 <= find c m).

(** [c[:idx]] for a non-negative [idx]. *)
Definition slice_to (c : str) (idx : Z) : str := take (Z.to_nat idx) c.

(** [s.split(sep)] for a one-character separator. *)
Fixpoint split (sep : N) (s : str) : list str :=
  match s with
  | [] => [[]]
  | c :: s' =>
      if (c =? sep)%N then [] :: split sep s'
      else match split sep s' with
           | l :: ls => (c :: l) :: ls
           | [] => [[c]]
           end
  end.

(** [sep.join(ls)] *)
Fixpoint join (sep : str) (ls : list str) : str :=
  match ls with
  | [] => []
  | l :: ls' =>
      match ls' with
      | [] => l
      | _ :: _ => l ++ sep ++ join sep ls'
      end
  end.

Definition eqb (a b : str) : bool := bool_decide (a = b).

(** [re.sub] of a pattern [c{min,}] by [keep] copies of [c]: every maximal
    run of at least [min] characters [c] shrinks to [keep] of them; [run]
    counts the characters [c] just read. *)
Definition flush_run (c : N) (min keep run : nat) : str :=
  if (min <=? run)%nat then replicate keep c else replicate run c.

Fixpoint sub_runs (c : N) (min keep run : nat) (s : str) : str :=
  match s with
  | [] => flush_run c min keep run
  | x :: s' =>
      if (x =? c)%N then sub_runs c min keep (S run) s'
      else flush_run c min keep run ++ x :: sub_runs c min keep 0 s'
  end.

End PyStr.

Import PyStr.

(** ** Footer truncation: [_strip_footer] *)

Module Footer.

Definition footer_markers : list str :=
  [ u "### Was this information helpful?";
    u "Was this information helpful?";
    u "Except where otherwise noted, this work is licensed";
    u "[](https://creativecommons.org/";
    u "Privacy Statement";
    u "Legal Notices & Trademarks";
    u "Report Noncompliance";
    169%N :: u " 2025 Autodesk Inc.";
    169%N :: u " 2024 Autodesk Inc.";
    169%N :: u " 2026 Autodesk Inc." ].

(** The [for marker in footer_markers] loop, with its [break]. *)
Fixpoint strip_footer_loop (markers : list str) (content : str) : str :=
  match markers with
  | [] => content
  | marker :: rest =>
      let idx := find content marker in
      if 0 <? idx then rstrip (slice_to content idx)
      else strip_footer_loop rest content
  end.

Definition _strip_footer (content : str) : str :=
  strip_footer_loop footer_markers content.

(** Which marker of the list the loop cuts at (its position in the list),
    if it cuts at all.  Used to state properties only. *)
Fixpoint cut_index (markers : list str) (content : str) : option nat :=
  match markers with
  | [] => None
  | marker :: rest =>
      if 0 <? find content marker then Some 0%nat
      else S <$> cut_index rest content
  end.

End Footer.

(** ** Unicode data of the Python runtime *)

Module Unicode.

(** Code points of category Nd, the class [\d] of [re] on [str] patterns
    (Unicode 14.0, the database of CPython 3.11): blocks of ten digits,
    given by their first code point, and the mathematical digits
    U+1D7CE..U+1D7FF. *)
Definition decimal_blocks : list N :=
  [
    48; 1632; 1776; 1984; 2406; 2534; 2662; 2790; 2918; 3046; 3174; 3302;
    3430; 3558; 3664; 3792; 3872; 4160; 4240; 6112; 6160; 6470; 6608; 6784;
    6800; 6992; 7088; 7232; 7248; 42528; 43216; 43264; 43472; 43504; 43600;
    44016; 65296; 66720; 68912; 69734; 69872; 69942; 70096; 70384; 70736;
    70864; 71248; 71360; 71472; 71904; 72016; 72784; 73040; 73120; 92768;
    92864; 93008; 123200; 123632; 125264; 130032 ]%N.

Definition isdecimal (c : N) : bool :=
  existsb (fun b => (b <=? c) && (c <? b + 10))%N decimal_blocks
  || ((120782 <=? c) && (c <=? 120831))%N.

(** Simple lowercase mappings (Unicode 14.0) as runs
    [(first, last, stride, offset)]: a code point [c] of a run, with
    [c - first] a multiple of [stride], maps to [c + offset]. *)
Definition lower_runs : list (Z * Z * Z * Z) :=
  [
    (65, 90, 1, 32); (192, 214, 1, 32); (216, 222, 1, 32); (256, 302, 2, 1);
    (306, 310, 2, 1); (313, 327, 2, 1); (330, 374, 2, 1);
    (376, 376, 1, -121); (377, 381, 2, 1); (385, 385, 1, 210);
    (386, 388, 2, 1); (390, 390, 1, 206); (391, 391, 1, 1);
    (393, 394, 1, 205); (395, 395, 1, 1); (398, 398, 1, 79);
    (399, 399, 1, 202); (400, 400, 1, 203); (401, 401, 1, 1);
    (403, 403, 1, 205); (404, 404, 1, 207); (406, 406, 1, 211);
    (407, 407, 1, 209); (408, 408, 1, 1); (412, 412, 1, 211);
    (413, 413, 1, 213); (415, 415, 1, 214); (416, 420, 2, 1);
    (422, 422, 1, 218); (423, 423, 1, 1); (425, 425, 1, 218);
    (428, 428, 1, 1); (430, 430, 1, 218); (431, 431, 1, 1);
    (433, 434, 1, 217); (435, 437, 2, 1); (439, 439, 1, 219);
    (440, 440, 1, 1); (444, 444, 1, 1); (452, 452, 1, 2); (453, 453, 1, 1);
    (455, 455, 1, 2); (456, 456, 1, 1); (458, 458, 1, 2); (459, 475, 2, 1);
    (478, 494, 2, 1); (497, 497, 1, 2); (498, 500, 2, 1);
    (502, 502, 1, -97); (503, 503, 1, -56); (504, 542, 2, 1);
    (544, 544, 1, -130); (546, 562, 2, 1); (570, 570, 1, 10795);
    (571, 571, 1, 1); (573, 573, 1, -163); (574, 574, 1, 10792);
    (577, 577, 1, 1); (579, 579, 1, -195); (580, 580, 1, 69);
    (581, 581, 1, 71); (582, 590, 2, 1); (880, 882, 2, 1); (886, 886, 1, 1);
    (895, 895, 1, 116); (902, 902, 1, 38); (904, 906, 1, 37);
    (908, 908, 1, 64); (910, 911, 1, 63); (913, 929, 1, 32);
    (931, 939, 1, 32); (975, 975, 1, 8); (984, 1006, 2, 1);
    (1012, 1012, 1, -60); (1015, 1015, 1, 1); (1017, 1017, 1, -7);
    (1018, 1018, 1, 1); (1021, 1023, 1, -130); (1024, 1039, 1, 80);
    (1040, 1071, 1, 32); (1120, 1152, 2, 1); (1162, 1214, 2, 1);
    (1216, 1216, 1, 15); (1217, 1229, 2, 1); (1232, 1326, 2, 1);
    (1329, 1366, 1, 48); (4256, 4293, 1, 7264); (4295, 4295, 1, 7264);
    (4301, 4301, 1, 7264); (5024, 5103, 1, 38864); (5104, 5109, 1, 8);
    (7312, 7354, 1, -3008); (7357, 7359, 1, -3008); (7680, 7828, 2, 1);
    (7838, 7838, 1, -7615); (7840, 7934, 2, 1); (7944, 7951, 1, -8);
    (7960, 7965, 1, -8); (7976, 7983, 1, -8); (7992, 7999, 1, -8);
    (8008, 8013, 1, -8); (8025, 8031, 2, -8); (8040, 8047, 1, -8);
    (8072, 8079, 1, -8); (8088, 8095, 1, -8); (8104, 8111, 1, -8);
    (8120, 8121, 1, -8); (8122, 8123, 1, -74); (8124, 8124, 1, -9);
    (8136, 8139, 1, -86); (8140, 8140, 1, -9); (8152, 8153, 1, -8);
    (8154, 8155, 1, -100); (8168, 8169, 1, -8); (8170, 8171, 1, -112);
    (8172, 8172, 1, -7); (8184, 8185, 1, -128); (8186, 8187, 1, -126);
    (8188, 8188, 1, -9); (8486, 8486, 1, -7517); (8490, 8490, 1, -8383);
    (8491, 8491, 1, -8262); (8498, 8498, 1, 28); (8544, 8559, 1, 16);
    (8579, 8579, 1, 1); (9398, 9423, 1, 26); (11264, 11311, 1, 48);
    (11360, 11360, 1, 1); (11362, 11362, 1, -10743);
    (11363, 11363, 1, -3814); (11364, 11364, 1, -10727);
    (11367, 11371, 2, 1); (11373, 11373, 1, -10780);
    (11374, 11374, 1, -10749); (11375, 11375, 1, -10783);
    (11376, 11376, 1, -10782); (11378, 11378, 1, 1); (11381, 11381, 1, 1);
    (11390, 11391, 1, -10815); (11392, 11490, 2, 1); (11499, 11501, 2, 1);
    (11506, 11506, 1, 1); (42560, 42604, 2, 1); (42624, 42650, 2, 1);
    (42786, 42798, 2, 1); (42802, 42862, 2, 1); (42873, 42875, 2, 1);
    (42877, 42877, 1, -35332); (42878, 42886, 2, 1); (42891, 42891, 1, 1);
    (42893, 42893, 1, -42280); (42896, 42898, 2, 1); (42902, 42920, 2, 1);
    (42922, 42922, 1, -42308); (42923, 42923, 1, -42319);
    (42924, 42924, 1, -42315); (42925, 42925, 1, -42305);
    (42926, 42926, 1, -42308); (42928, 42928, 1, -42258);
    (42929, 42929, 1, -42282); (42930, 42930, 1, -42261);
    (42931, 42931, 1, 928); (42932, 42946, 2, 1); (42948, 42948, 1, -48);
    (42949, 42949, 1, -42307); (42950, 42950, 1, -35384);
    (42951, 42953, 2, 1); (42960, 42960, 1, 1); (42966, 42968, 2, 1);
    (42997, 42997, 1, 1); (65313, 65338, 1, 32); (66560, 66599, 1, 40);
    (66736, 66771, 1, 40); (66928, 66938, 1, 39); (66940, 66954, 1, 39);
    (66956, 66962, 1, 39); (66964, 66965, 1, 39); (68736, 68786, 1, 64);
    (71840, 71871, 1, 32); (93760, 93791, 1, 32); (125184, 125217, 1, 34) ].

Definition lower_cp (c : N) : N :=
  let z := Z.of_N c in
  match list_find (fun '(lo, hi, stride, _) =>
                     bool_decide (lo <= z <= hi /\ (z - lo) mod stride = 0))
                  lower_runs with
  | Some (_, (_, _, _, d)) => Z.to_N (z + d)
  | None => c
  end.

(** Ranges of the case-ignorable code points, and of the cased code
    points that are not case-ignorable (Unicode 14.0): what the rule for a
    capital sigma looks at. *)
Definition case_ignorable_ranges : list (N * N) :=
  [
    (39, 39); (46, 46); (58, 58); (94, 94); (96, 96); (168, 168);
    (173, 173); (175, 175); (180, 180); (183, 184); (688, 879); (884, 885);
    (890, 890); (900, 901); (903, 903); (1155, 1161); (1369, 1369);
    (1375, 1375); (1425, 1469); (1471, 1471); (1473, 1474); (1476, 1477);
    (1479, 1479); (1524, 1524); (1536, 1541); (1552, 1562); (1564, 1564);
    (1600, 1600); (1611, 1631); (1648, 1648); (1750, 1757); (1759, 1768);
    (1770, 1773); (1807, 1807); (1809, 1809); (1840, 1866); (1958, 1968);
    (2027, 2037); (2042, 2042); (2045, 2045); (2070, 2093); (2137, 2139);
    (2184, 2184); (2192, 2193); (2200, 2207); (2249, 2306); (2362, 2362);
    (2364, 2364); (2369, 2376); (2381, 2381); (2385, 2391); (2402, 2403);
    (2417, 2417); (2433, 2433); (2492, 2492); (2497, 2500); (2509, 2509);
    (2530, 2531); (2558, 2558); (2561, 2562); (2620, 2620); (2625, 2626);
    (2631, 2632); (2635, 2637); (2641, 2641); (2672, 2673); (2677, 2677);
    (2689, 2690); (2748, 2748); (2753, 2757); (2759, 2760); (2765, 2765);
    (2786, 2787); (2810, 2815); (2817, 2817); (2876, 2876); (2879, 2879);
    (2881, 2884); (2893, 2893); (2901, 2902); (2914, 2915); (2946, 2946);
    (3008, 3008); (3021, 3021); (3072, 3072); (3076, 3076); (3132, 3132);
    (3134, 3136); (3142, 3144); (3146, 3149); (3157, 3158); (3170, 3171);
    (3201, 3201); (3260, 3260); (3263, 3263); (3270, 3270); (3276, 3277);
    (3298, 3299); (3328, 3329); (3387, 3388); (3393, 3396); (3405, 3405);
    (3426, 3427); (3457, 3457); (3530, 3530); (3538, 3540); (3542, 3542);
    (3633, 3633); (3636, 3642); (3654, 3662); (3761, 3761); (3764, 3772);
    (3782, 3782); (3784, 3789); (3864, 3865); (3893, 3893); (3895, 3895);
    (3897, 3897); (3953, 3966); (3968, 3972); (3974, 3975); (3981, 3991);
    (3993, 4028); (4038, 4038); (4141, 4144); (4146, 4151); (4153, 4154);
    (4157, 4158); (4184, 4185); (4190, 4192); (4209, 4212); (4226, 4226);
    (4229, 4230); (4237, 4237); (4253, 4253); (4348, 4348); (4957, 4959);
    (5906, 5908); (5938, 5939); (5970, 5971); (6002, 6003); (6068, 6069);
    (6071, 6077); (6086, 6086); (6089, 6099); (6103, 6103); (6109, 6109);
    (6155, 6159); (6211, 6211); (6277, 6278); (6313, 6313); (6432, 6434);
    (6439, 6440); (6450, 6450); (6457, 6459); (6679, 6680); (6683, 6683);
    (6742, 6742); (6744, 6750); (6752, 6752); (6754, 6754); (6757, 6764);
    (6771, 6780); (6783, 6783); (6823, 6823); (6832, 6862); (6912, 6915);
    (6964, 6964); (6966, 6970); (6972, 6972); (6978, 6978); (7019, 7027);
    (7040, 7041); (7074, 7077); (7080, 7081); (7083, 7085); (7142, 7142);
    (7144, 7145); (7149, 7149); (7151, 7153); (7212, 7219); (7222, 7223);
    (7288, 7293); (7376, 7378); (7380, 7392); (7394, 7400); (7405, 7405);
    (7412, 7412); (7416, 7417); (7468, 7530); (7544, 7544); (7579, 7679);
    (8125, 8125); (8127, 8129); (8141, 8143); (8157, 8159); (8173, 8175);
    (8189, 8190); (8203, 8207); (8216, 8217); (8228, 8228); (8231, 8231);
    (8234, 8238); (8288, 8292); (8294, 8303); (8305, 8305); (8319, 8319);
    (8336, 8348); (8400, 8432); (11388, 11389); (11503, 11505);
    (11631, 11631); (11647, 11647); (11744, 11775); (11823, 11823);
    (12293, 12293); (12330, 12333); (12337, 12341); (12347, 12347);
    (12441, 12446); (12540, 12542); (40981, 40981); (42232, 42237);
    (42508, 42508); (42607, 42610); (42612, 42621); (42623, 42623);
    (42652, 42655); (42736, 42737); (42752, 42785); (42864, 42864);
    (42888, 42890); (42994, 42996); (43000, 43001); (43010, 43010);
    (43014, 43014); (43019, 43019); (43045, 43046); (43052, 43052);
    (43204, 43205); (43232, 43249); (43263, 43263); (43302, 43309);
    (43335, 43345); (43392, 43394); (43443, 43443); (43446, 43449);
    (43452, 43453); (43471, 43471); (43493, 43494); (43561, 43566);
    (43569, 43570); (43573, 43574); (43587, 43587); (43596, 43596);
    (43632, 43632); (43644, 43644); (43696, 43696); (43698, 43700);
    (43703, 43704); (43710, 43711); (43713, 43713); (43741, 43741);
    (43756, 43757); (43763, 43764); (43766, 43766); (43867, 43871);
    (43881, 43883); (44005, 44005); (44008, 44008); (44013, 44013);
    (64286, 64286); (64434, 64450); (65024, 65039); (65043, 65043);
    (65056, 65071); (65106, 65106); (65109, 65109); (65279, 65279);
    (65287, 65287); (65294, 65294); (65306, 65306); (65342, 65342);
    (65344, 65344); (65392, 65392); (65438, 65439); (65507, 65507);
    (65529, 65531); (66045, 66045); (66272, 66272); (66422, 66426);
    (67456, 67461); (67463, 67504); (67506, 67514); (68097, 68099);
    (68101, 68102); (68108, 68111); (68152, 68154); (68159, 68159);
    (68325, 68326); (68900, 68903); (69291, 69292); (69446, 69456);
    (69506, 69509); (69633, 69633); (69688, 69702); (69744, 69744);
    (69747, 69748); (69759, 69761); (69811, 69814); (69817, 69818);
    (69821, 69821); (69826, 69826); (69837, 69837); (69888, 69890);
    (69927, 69931); (69933, 69940); (70003, 70003); (70016, 70017);
    (70070, 70078); (70089, 70092); (70095, 70095); (70191, 70193);
    (70196, 70196); (70198, 70199); (70206, 70206); (70367, 70367);
    (70371, 70378); (70400, 70401); (70459, 70460); (70464, 70464);
    (70502, 70508); (70512, 70516); (70712, 70719); (70722, 70724);
    (70726, 70726); (70750, 70750); (70835, 70840); (70842, 70842);
    (70847, 70848); (70850, 70851); (71090, 71093); (71100, 71101);
    (71103, 71104); (71132, 71133); (71219, 71226); (71229, 71229);
    (71231, 71232); (71339, 71339); (71341, 71341); (71344, 71349);
    (71351, 71351); (71453, 71455); (71458, 71461); (71463, 71467);
    (71727, 71735); (71737, 71738); (71995, 71996); (71998, 71998);
    (72003, 72003); (72148, 72151); (72154, 72155); (72160, 72160);
    (72193, 72202); (72243, 72248); (72251, 72254); (72263, 72263);
    (72273, 72278); (72281, 72283); (72330, 72342); (72344, 72345);
    (72752, 72758); (72760, 72765); (72767, 72767); (72850, 72871);
    (72874, 72880); (72882, 72883); (72885, 72886); (73009, 73014);
    (73018, 73018); (73020, 73021); (73023, 73029); (73031, 73031);
    (73104, 73105); (73109, 73109); (73111, 73111); (73459, 73460);
    (78896, 78904); (92912, 92916); (92976, 92982); (92992, 92995);
    (94031, 94031); (94095, 94111); (94176, 94177); (94179, 94180);
    (110576, 110579); (110581, 110587); (110589, 110590); (113821, 113822);
    (113824, 113827); (118528, 118573); (118576, 118598); (119143, 119145);
    (119155, 119170); (119173, 119179); (119210, 119213); (119362, 119364);
    (121344, 121398); (121403, 121452); (121461, 121461); (121476, 121476);
    (121499, 121503); (121505, 121519); (122880, 122886); (122888, 122904);
    (122907, 122913); (122915, 122916); (122918, 122922); (123184, 123197);
    (123566, 123566); (123628, 123631); (125136, 125142); (125252, 125259);
    (127995, 127999); (917505, 917505); (917536, 917631); (917760, 917999) ]%N.

Definition cased_ranges : list (N * N) :=
  [
    (65, 90); (97, 122); (170, 170); (181, 181); (186, 186); (192, 214);
    (216, 246); (248, 442); (444, 447); (452, 659); (661, 687); (880, 883);
    (886, 887); (891, 893); (895, 895); (902, 902); (904, 906); (908, 908);
    (910, 929); (931, 1013); (1015, 1153); (1162, 1327); (1329, 1366);
    (1376, 1416); (4256, 4293); (4295, 4295); (4301, 4301); (4304, 4346);
    (4349, 4351); (5024, 5109); (5112, 5117); (7296, 7304); (7312, 7354);
    (7357, 7359); (7424, 7467); (7531, 7543); (7545, 7578); (7680, 7957);
    (7960, 7965); (7968, 8005); (8008, 8013); (8016, 8023); (8025, 8025);
    (8027, 8027); (8029, 8029); (8031, 8061); (8064, 8116); (8118, 8124);
    (8126, 8126); (8130, 8132); (8134, 8140); (8144, 8147); (8150, 8155);
    (8160, 8172); (8178, 8180); (8182, 8188); (8450, 8450); (8455, 8455);
    (8458, 8467); (8469, 8469); (8473, 8477); (8484, 8484); (8486, 8486);
    (8488, 8488); (8490, 8493); (8495, 8500); (8505, 8505); (8508, 8511);
    (8517, 8521); (8526, 8526); (8544, 8575); (8579, 8580); (9398, 9449);
    (11264, 11387); (11390, 11492); (11499, 11502); (11506, 11507);
    (11520, 11557); (11559, 11559); (11565, 11565); (42560, 42605);
    (42624, 42651); (42786, 42863); (42865, 42887); (42891, 42894);
    (42896, 42954); (42960, 42961); (42963, 42963); (42965, 42969);
    (42997, 42998); (43002, 43002); (43824, 43866); (43872, 43880);
    (43888, 43967); (64256, 64262); (64275, 64279); (65313, 65338);
    (65345, 65370); (66560, 66639); (66736, 66771); (66776, 66811);
    (66928, 66938); (66940, 66954); (66956, 66962); (66964, 66965);
    (66967, 66977); (66979, 66993); (66995, 67001); (67003, 67004);
    (68736, 68786); (68800, 68850); (71840, 71903); (93760, 93823);
    (119808, 119892); (119894, 119964); (119966, 119967); (119970, 119970);
    (119973, 119974); (119977, 119980); (119982, 119993); (119995, 119995);
    (119997, 120003); (120005, 120069); (120071, 120074); (120077, 120084);
    (120086, 120092); (120094, 120121); (120123, 120126); (120128, 120132);
    (120134, 120134); (120138, 120144); (120146, 120485); (120488, 120512);
    (120514, 120538); (120540, 120570); (120572, 120596); (120598, 120628);
    (120630, 120654); (120656, 120686); (120688, 120712); (120714, 120744);
    (120746, 120770); (120772, 120779); (122624, 122633); (122635, 122654);
    (125184, 125251); (127280, 127305); (127312, 127337); (127344, 127369) ]%N.

Definition in_ranges (rs : list (N * N)) (c : N) : bool :=
  existsb (fun '(lo, hi) => (lo <=? c) && (c <=? hi))%N rs.

Definition case_ignorable (c : N) : bool := in_ranges case_ignorable_ranges c.
Definition cased (c : N) : bool := in_ranges cased_ranges c.

(** The nearest code point that is not case-ignorable. *)
Fixpoint skip_ignorable (s : str) : option N :=
  match s with
  | [] => None
  | c :: s' => if case_ignorable c then skip_ignorable s' else Some c
  end.

(** A capital sigma is in final position when a cased letter comes before
    it and none comes after it, case-ignorable code points aside;
    [before] is the text before the sigma, nearest code point first. *)
Definition final_sigma (before after : str) : bool :=
  match skip_ignorable before with
  | Some c =>
      cased c && match skip_ignorable after with
                 | Some d => negb (cased d)
                 | None => true
                 end
  | None => false
  end.

Fixpoint lower_from (before s : str) : str :=
  match s with
  | [] => []
  | c :: s' =>
      (if (c =? 931)%N then [if final_sigma before s' then 962%N else 963%N]
       else if (c =? 304)%N then [105; 775]%N
       else [lower_cp c])
      ++ lower_from (c :: before) s'
  end.

(** [str.lower]: every code point through its lowercase mapping, U+0130
    through its two-code-point mapping, a capital sigma (U+03A3) to U+03C2
    in final position and to U+03C3 elsewhere. *)
Definition lower (s : str) : str := lower_from [] s.

End Unicode.

(** ** Regular expressions of the noise patterns *)

Module Regex.

Inductive re : Type :=
| Void
| Eps
| Class (p : N -> bool)
| Cat (a b : re)
| Alt (a b : re)
| Star (a : re).

Fixpoint nullable (r : re) : bool :=
  match r with
  | Void => false
  | Eps => true
  | Class _ => false
  | Cat a b => nullable a && nullable b
  | Alt a b => nullable a || nullable b
  | Star _ => true
  end.

Definition cat (a b : re) : re :=
  match a, b with
  | Void, _ => Void
  | _, Void => Void
  | Eps, _ => b
  | _, _ => Cat a b
  end.

Definition alt (a b : re) : re :=
  match a, b with
  | Void, _ => b
  | _, Void => a
  | _, _ => Alt a b
  end.

(** Brzozowski derivative: what remains to be matched after reading [c]. *)
Fixpoint deriv (c : N) (r : re) : re :=
  match r with
  | Void | Eps => Void
  | Class p => if p c then Eps else Void
  | Cat a b =>
      if nullable a then alt (cat (deriv c a) b) (deriv c b)
      else cat (deriv c a) b
  | Alt a b => alt (deriv c a) (deriv c b)
  | Star a => cat (deriv c a) (Star a)
  end.

(** [re.compile('^...$', re.MULTILINE).match(line)] on a line without a
    newline: the anchors make the pattern cover the whole line. *)
Definition matches (r : re) (line : str) : bool :=
  nullable (fold_left (fun r c => deriv c r) line r).

(** The pieces the patterns are written with. *)
Definition chr (c : N) : re := Class (N.eqb c).
Definition lit (s : str) : re := foldr (fun c r => Cat (chr c) r) Eps s.
Definition seq (rs : list re) : re := foldr Cat Eps rs.
Definition alts (rs : list re) : re := foldr Alt Void rs.
Definition plus (r : re) : re := Cat r (Star r).
Definition ws : re := Class isspace.                         (* \s *)
Definition digit : re := Class Unicode.isdecimal.            (* \d *)
Definition upper : re := Class (fun c => (65 <=? c) && (c <=? 90))%N. (* [A-Z] *)
Definition dot : re := Class (fun c => negb (c =? NL)%N).    (* . *)
Definition rest : re := Star dot.                            (* .* *)

End Regex.

(** ** The content cleaner: [clean_content] and [_simple_clean] *)

Module Cleaner.
Import Regex Footer.

Definition sidebar_titles : list str :=
  [ u "Adding your plug-in"; u "Building Options"; u "Building the included";
    u "Class reference"; u "Compiling and linking"; u "Implementation Details";
    u "Introduction"; u "Plug-in API Examples"; u "Setting up plug-ins";
    u "The universe and its objects"; u "Using OpenAlias"; u "Using the API";
    u "Writing a plug-in"; u "Alias Installation"; u "Legacy Getting Started";
    u "Alias What's New"; u "What's New in"; u "Alias Release Notes";
    u "Tutorials"; u "Interface Reference"; u "Tool Palette Reference";
    u "Menus Reference"; u "File Format Reference"; u "VRED Renderer";
    u "Live Referencing"; u "Alias Dynamo"; u "Flow Production";
    u "Form Explorer"; u "NavPack Design"; u "Environment Variables" ].

Definition zh_CN : str := [31616; 20307; 20013; 25991]%N.
Definition ja_JP : str := [26085; 26412; 35486]%N.
Definition ko_KR : str := [54620; 44397; 50612]%N.

(** [NAV_PATTERNS], in the order of the source. *)
Definition NAV_PATTERNS : list re :=
  [ (* breadcrumb trails *)
    seq [plus digit; chr 46; plus ws; lit (u "Alias Programmers"); rest];
    seq [plus digit; chr 46; plus ws; lit (u "Adding your plug-in"); rest];
    seq [plus digit; chr 46; plus ws; upper; rest];
    (* share links *)
    seq [lit (u "Share"); Star ws];
    seq [Star ws;
         alts (lit <$> [u "Email"; u "Facebook"; u "Twitter"; u "LinkedIn"]);
         Star ws];
    (* navigation sidebar items *)
    seq [ws; ws; Star ws; alts (lit <$> sidebar_titles); rest];
    (* copyright and license notices *)
    seq [lit (u "Except where otherwise noted"); rest;
         lit (u "Creative Commons"); rest];
    seq [lit (u "Please see the Autodesk Creative Commons"); rest];
    (* page header boilerplate *)
    seq [lit (u "Alias 2026 Help |"); rest; lit (u "| Autodesk"); Star ws];
    seq [lit (u "Alias 2026 Help |"); rest];
    seq [Star ws; lit (u "Help Home"); Star ws];
    seq [Star ws; lit (u "Quick Links"); Star ws];
    seq [Star ws; lit (u "Sign In"); Star ws];
    seq [Star ws; lit (u "English (US)"); Star ws];
    seq [Star ws; lit zh_CN; Star ws];
    seq [Star ws; lit ja_JP; Star ws];
    seq [Star ws; lit ko_KR; Star ws];
    seq [lit (u "Image "); plus digit; chr 58; rest];
    (* sidebar section headers *)
    seq [Star ws;
         alts (lit <$> [u "Essential Skills"; u "Essential Concepts";
                        u "The Alias Workspace"; u "Keyboard Shortcuts";
                        u "Subdivision Modeling"]);
         rest];
    seq [Star ws; lit (u "What's New"); Star ws];
    seq [Star ws; lit (u "Release Notes"); Star ws] ].

(** The [for pattern in NAV_REGEX] loop: does some pattern match the line? *)
Definition should_skip (line : str) : bool :=
  existsb (fun pattern => matches pattern line) NAV_PATTERNS.

(** [line.strip().startswith('```')] *)
Definition is_fence (line : str) : bool := startswith (strip line) (u "```").

(** The page title alone or as a heading of level one to three. *)
Definition is_title_line (page_title stripped : str) : bool :=
  negb (eqb stripped [])
  && (eqb stripped page_title
      || eqb stripped (u "# " ++ page_title)
      || eqb stripped (u "## " ++ page_title)
      || eqb stripped (u "### " ++ page_title)).

Definition chrome_keywords : list str :=
  [u "help home"; u "quick links"; u "sign in"; u "english"].

(** A heading that names none of the chrome keywords. *)
Definition is_content_heading (stripped : str) : bool :=
  startswith stripped (u "#")
  && negb (existsb (fun kw => contains (Unicode.lower stripped) kw)
                   chrome_keywords).

(** The variables of the line loop of [clean_content]. *)
Record loop_state : Type := LoopState {
  in_code_block : bool;
  found_content_start : bool;
  cleaned_lines : list str
}.

Definition loop_init : loop_state :=
  {| in_code_block := false; found_content_start := false;
     cleaned_lines := [] |}.

(** One iteration of [for line in lines]. *)
Definition loop_body (page_title : str) (st : loop_state) (line : str)
  : loop_state :=
  if is_fence line then
    {| in_code_block := negb (in_code_block st);
       found_content_start := found_content_start st;
       cleaned_lines := if found_content_start st
                        then cleaned_lines st ++ [line]
                        else cleaned_lines st |}
  else if in_code_block st then
    {| in_code_block := in_code_block st;
       found_content_start := found_content_start st;
       cleaned_lines := if found_content_start st
                        then cleaned_lines st ++ [line]
                        else cleaned_lines st |}
  else if negb (found_content_start st) then
    let stripped := strip line in
    if is_title_line page_title stripped then
      {| in_code_block := in_code_block st;
         found_content_start := true;
         cleaned_lines := cleaned_lines st ++ [line] |}
    else if is_content_heading stripped then
      {| in_code_block := in_code_block st;
         found_content_start := true;
         cleaned_lines := cleaned_lines st ++ [line] |}
    else st
  else if should_skip line then st
  else
    {| in_code_block := in_code_block st;
       found_content_start := found_content_start st;
       cleaned_lines := cleaned_lines st ++ [line] |}.

(** The whole line loop, from a given state. *)
Definition run_lines (page_title : str) (st : loop_state) (lines : list str)
  : loop_state :=
  fold_left (loop_body page_title) lines st.

(** The main pass: the lines that the loop keeps. *)
Definition main_pass (page_title : str) (lines : list str) : list str :=
  cleaned_lines (run_lines page_title loop_init lines).

(** Until the content start is found the loop keeps nothing. *)
Definition quiet (st : loop_state) : Prop :=
  found_content_start st = false -> cleaned_lines st = [].

Definition simple_clean_keywords : list str :=
  [ u "Help Home"; u "Quick Links"; u "Sign In";
    u "English (US)"; zh_CN; ja_JP; ko_KR;
    u "Creative Commons"; u "Autodesk Creative Commons";
    u "Image 2: Alias 2026" ].

Definition share_labels : list str :=
  [u "Share"; u "Email"; u "Facebook"; u "Twitter"; u "LinkedIn"].

(** The fallback cleaner. *)
Definition _simple_clean (raw_content : str) : str :=
  let lines := split NL raw_content in
  let cleaned :=
    filter (fun line =>
              let stripped := strip line in
              ¬ (existsb (fun kw => contains stripped kw) simple_clean_keywords
                 || bool_decide (stripped ∈ share_labels)))
           lines in
  strip (join [NL] cleaned).

Definition clean_content (raw_content page_title : str) : str :=
  match raw_content with
  | [] => []
  | _ :: _ =>
      let lines := split NL raw_content in
      let result := strip (join [NL] (main_pass page_title lines)) in
      let result :=
        if (len result <? 50) && (100 <? len raw_content)
        then _simple_clean raw_content
        else result in
      _strip_footer result
  end.

End Cleaner.

(** ** The batch orchestrator of [tavily_scraper.py]: [scrape] *)

Module Tavily.
Import Cleaner.

Definition BATCH_SIZE : nat := 5.

(** An entry of [data/docs/index.json], as [load_index] returns it. *)
Record page : Type := Page {
  guid : str;
  title : str;
  url : str
}.

(** The dictionary [save_page] writes. *)
Record page_data : Type := PageData {
  pd_guid : str;
  pd_title : str;
  pd_url : str;
  pd_raw_content : str;
  pd_content : str;
  pd_has_code_blocks : bool;
  pd_scraped_at : str
}.

(** An entry of the new index; [ie_error] is the optional key [error]. *)
Record index_entry : Type := IndexEntry {
  ie_guid : str;
  ie_title : str;
  ie_url : str;
  ie_has_code_blocks : bool;
  ie_content_length : Z;
  ie_error : option str
}.

(** The dictionary [save_index] writes. *)
Record index : Type := Index {
  ix_source : str;
  ix_total_pages : Z;
  ix_pages_scraped : Z;
  ix_scraped_at : str;
  ix_pages : list index_entry
}.

(** What a file of the output directory holds: a page record, an index,
    text that [json.load] rejects with [JSONDecodeError] (a file whose
    writing was cut short is such a text), or content on which reading
    raises another exception, as bytes that are not UTF-8 do
    ([UnicodeDecodeError]). *)
Inductive file : Type :=
| PageFile (d : page_data)
| IndexFile (ix : index)
| Unreadable
| Uncaught.

(** The output directory [OUTPUT_DIR]: the names of the files directly in
    it, with their contents. *)
Abbreviation directory := (gmap str file).

Definition page_file_name (g : str) : str := g ++ u ".json".
Definition index_file_name : str := u "index.json".

(** *** Paths and encodings *)

Definition path_sep : N := 47%N.   (* / *)

(** The code points the UTF-8 writer refuses: the surrogates. *)
Definition is_surrogate (c : N) : bool := (55296 <=? c)%N && (c <=? 57343)%N.

Definition encodable (s : str) : bool :=
  forallb (fun c => negb (is_surrogate c)) s.

(** The names [open] takes: no NUL, and of the surrogates only those that
    stand for a byte (the file system encoding escapes them). *)
Definition opens (name : str) : bool :=
  forallb (fun c => negb (c =? 0)%N
                    && (negb (is_surrogate c)
                        || ((56448 <=? c)%N && (c <=? 56575)%N)))
          name.

(** How the run can end before its time.  [Raises]: an exception leaves
    [scrape].  [Unfollowed]: a file is opened through a path with a
    directory part, as [./GUID-1.json] or [sub/GUID-1.json]; the write then
    lands on another name of the directory or outside it, and the run is
    not followed from there. *)
Inductive stop : Type :=
| Raises
| Unfollowed.

(** [OUTPUT_DIR.glob("GUID-*.json")] on one name. *)
Definition glob_guid_json (name : str) : bool :=
  startswith name (u "GUID-") && endswith name (u ".json").

(** [f.stem] of a name that ends in [.json]. *)
Definition stem (name : str) : str := take (length name - 5) name.

(** The files the glob yields, in the order of the directory listing. *)
Definition glob_files (dir : directory) : list (str * file) :=
  filter (fun nf => glob_guid_json nf.1) (map_to_list dir).

(** One item of the [results] list of the extraction API. *)
Record extracted : Type := Extracted {
  ex_url : str;
  ex_title : str;
  ex_raw_content : str
}.

(** The answer to one POST: a failed request, or the result items. *)
Inductive api_response : Type :=
| RequestFailed
| Response (results : list extracted).

(** What lies outside the process: the API key found by [get_api_key], the
    extraction API (its answer may depend on how many calls came before),
    and the clock. *)
Record world : Type := World {
  api_key : option str;
  tavily : nat -> list str -> api_response;
  now : str
}.

(** [extract_batch]: the map from URL to extracted item; a later item for
    the same URL replaces an earlier one; a failed request gives [{}]. *)
Definition extract_batch (w : world) (ncalls : nat) (urls : list str)
  : gmap str extracted :=
  match tavily w ncalls urls with
  | RequestFailed => ∅
  | Response results =>
      fold_left (fun m item => <[ex_url item := item]> m) results ∅
  end.

Definition encodable_page (d : page_data) : bool :=
  encodable (pd_guid d) && encodable (pd_title d) && encodable (pd_url d)
  && encodable (pd_raw_content d) && encodable (pd_content d)
  && encodable (pd_scraped_at d).

(** [save_page] opens [OUTPUT_DIR / f"{guid}.json"]: for a name without
    directory part that is the file of this name in the directory.  Opening
    empties the file, and [json.dump] writes the record piece by piece; at a
    string it cannot encode it raises and leaves the beginning of the
    text. *)
Definition save_page (d : page_data) (dir : directory)
  : directory * option stop :=
  let name := page_file_name (pd_guid d) in
  if bool_decide (path_sep ∈ name) then (dir, Some Unfollowed)
  else if opens name then
    if encodable_page d then (<[name := PageFile d]> dir, None)
    else (<[name := Unreadable]> dir, Some Raises)
  else (dir, Some Raises).

Definition encodable_entry (e : index_entry) : bool :=
  encodable (ie_guid e) && encodable (ie_title e) && encodable (ie_url e)
  && match ie_error e with Some err => encodable err | None => true end.

Definition save_index (w : world) (pages_scraped : list index_entry)
    (total_pages : Z) (dir : directory) : directory * option stop :=
  if encodable (now w) && forallb encodable_entry pages_scraped then
    (<[index_file_name :=
         IndexFile {| ix_source := u "tavily_extract_advanced";
                      ix_total_pages := total_pages;
                      ix_pages_scraped := len_list pages_scraped;
                      ix_scraped_at := now w;
                      ix_pages := pages_scraped |}]> dir, None)
  else (<[index_file_name := Unreadable]> dir, Some Raises).

Definition test_guids : list str :=
  [ u "GUID-7EAE78D4-BAF9-40D3-AB9F-ED238F4620B3";
    u "GUID-47617202-4EC2-4BC1-8F72-84FAEF0BE054";
    u "GUID-28B63BF1-7EDE-491E-9983-1F70AB0446A4" ].

(** The pages of a run: all of them, or the test sample. *)
Definition select_pages (test_mode : bool) (test_count : Z)
    (pages : list page) : list page :=
  if test_mode then
    let extra :=
      if 3 <? test_count
      then take (Z.to_nat (test_count - 3))
                (filter (fun p => guid p ∉ test_guids) pages)
      else [] in
    let guids := test_guids ++ (guid <$> extra) in
    filter (fun p => guid p ∈ guids) pages
  else pages.

(** The identifiers already in the store (resume support). *)
Definition existing (dir : directory) : gset str :=
  list_to_set ((fun nf => stem nf.1) <$> glob_files dir).

Definition pages_to_scrape (dir : directory) (pages : list page) : list page :=
  filter (fun p => guid p ∉ existing dir) pages.

(** [range(0, len(l), BATCH_SIZE)] with the slices it takes. *)
Fixpoint batches_fuel (fuel : nat) (l : list page) : list (list page) :=
  match fuel with
  | O => []
  | S fuel' =>
      match l with
      | [] => []
      | _ :: _ => take BATCH_SIZE l :: batches_fuel fuel' (drop BATCH_SIZE l)
      end
  end.

Definition batches (l : list page) : list (list page) :=
  batches_fuel (length l) l.

(** The state of the batch loop: the directory, [scraped_index], the URL
    lists sent to the API so far, and how the loop was left, if it was. *)
Record progress : Type := Progress {
  files : directory;
  scraped_index : list index_entry;
  api_calls : list (list str);
  stopped : option stop
}.

(** The body of [for page in batch]. *)
Definition record_page (w : world) (results : gmap str extracted)
    (st : progress) (p : page) : progress :=
  match stopped st with
  | Some _ => st
  | None =>
      match results !! url p with
      | Some item =>
          let raw := ex_raw_content item in
          let cleaned := clean_content raw (title p) in
          let has_code := contains raw (u "```") in
          let saved :=
            save_page {| pd_guid := guid p; pd_title := title p;
                         pd_url := url p; pd_raw_content := raw;
                         pd_content := cleaned;
                         pd_has_code_blocks := has_code;
                         pd_scraped_at := now w |} (files st) in
          match saved.2 with
          | Some s =>
              {| files := saved.1; scraped_index := scraped_index st;
                 api_calls := api_calls st; stopped := Some s |}
          | None =>
              {| files := saved.1;
                 scraped_index :=
                   scraped_index st ++
                   [ {| ie_guid := guid p; ie_title := title p;
                        ie_url := url p; ie_has_code_blocks := has_code;
                        ie_content_length := len cleaned;
                        ie_error := None |} ];
                 api_calls := api_calls st; stopped := None |}
          end
      | None =>
          {| files := files st;
             scraped_index :=
               scraped_index st ++
               [ {| ie_guid := guid p; ie_title := title p; ie_url := url p;
                    ie_has_code_blocks := false; ie_content_length := 0;
                    ie_error := Some (u "extraction_failed") |} ];
             api_calls := api_calls st; stopped := None |}
      end
  end.

(** The body of the batch loop: one API call, then its pages. *)
Definition scrape_batch (w : world) (st : progress) (batch : list page)
  : progress :=
  match stopped st with
  | Some _ => st
  | None =>
      let urls := url <$> batch in
      let results := extract_batch w (length (api_calls st)) urls in
      fold_left (record_page w results)
                batch
                {| files := files st; scraped_index := scraped_index st;
                   api_calls := api_calls st ++ [urls]; stopped := None |}
  end.

(** The body of the loop that adds the pages scraped by earlier runs; the
    index is [None] once reading a file has raised an exception that the
    loop does not catch. *)
Definition add_previous (acc : option (list index_entry)) (nf : str * file)
  : option (list index_entry) :=
  match acc with
  | None => None
  | Some idx =>
      let g := stem nf.1 in
      if existsb (fun p => eqb (ie_guid p) g) idx then Some idx
      else match nf.2 with
           | PageFile d =>
               Some (idx ++ [ {| ie_guid := g; ie_title := pd_title d;
                                 ie_url := pd_url d;
                                 ie_has_code_blocks := pd_has_code_blocks d;
                                 ie_content_length := len (pd_content d);
                                 ie_error := None |} ])
           | IndexFile _ =>
               (* no such keys in an index: the defaults of [data.get] *)
               Some (idx ++ [ {| ie_guid := g; ie_title := []; ie_url := [];
                                 ie_has_code_blocks := false;
                                 ie_content_length := 0;
                                 ie_error := None |} ])
           | Unreadable => Some idx
           | Uncaught => None
           end
  end.

Inductive outcome : Type :=
| ExitNoApiKey          (* [sys.exit(1)] in [get_api_key] *)
| AllAlreadyScraped     (* the early [return] *)
| Completed
| Stopped (s : stop).

#[global] Instance stop_eq_dec : EqDecision stop.
Proof. solve_decision. Defined.

#[global] Instance outcome_eq_dec : EqDecision outcome.
Proof. solve_decision. Defined.

(** What a run leaves: how it ended, the URL lists sent to the API, and
    the output directory; for a run that is not followed to its end, the
    calls made and the directory as they were when it opened the path. *)
Record run_result : Type := RunResult {
  r_outcome : outcome;
  r_api_calls : list (list str);
  r_files : directory
}.

Definition scrape (w : world) (test_mode : bool) (test_count : Z)
    (index_pages : list page) (dir : directory) : run_result :=
  match api_key w with
  | None => {| r_outcome := ExitNoApiKey; r_api_calls := []; r_files := dir |}
  | Some _ =>
      let total := len_list index_pages in
      let pages := select_pages test_mode test_count index_pages in
      let todo := pages_to_scrape dir pages in
      match todo with
      | [] => {| r_outcome := AllAlreadyScraped; r_api_calls := [];
                 r_files := dir |}
      | _ :: _ =>
          let st := fold_left (scrape_batch w) (batches todo)
                      {| files := dir; scraped_index := [];
                         api_calls := []; stopped := None |} in
          match stopped st with
          | Some s =>
              {| r_outcome := Stopped s; r_api_calls := api_calls st;
                 r_files := files st |}
          | None =>
              match fold_left add_previous (glob_files (files st))
                              (Some (scraped_index st)) with
              | None =>
                  {| r_outcome := Stopped Raises;
                     r_api_calls := api_calls st; r_files := files st |}
              | Some idx =>
                  let saved := save_index w idx total (files st) in
                  {| r_outcome := match saved.2 with
                                  | Some s => Stopped s
                                  | None => Completed
                                  end;
                     r_api_calls := api_calls st;
                     r_files := saved.1 |}
              end
          end
      end
  end.

End Tavily.

(** ** The browser-driven scraper of [scraper.py]: [AutodeskDocsScraper] *)

Module Scraper.

Definition BASE_URL : str := u "https://help.autodesk.com/view/ALIAS/2026/ENU/".
Definition API_SECTION_GUID : str := u "GUID-0278C25C-730E-49AE-9125-EBCCA7434FF5".

(** *** Tree expansion *)

(** The navigation tree is known through what the two loops do with it:
    the query for collapsed nodes (inside the API section, or in the whole
    page), a click on an expand button, which changes the tree and may
    raise, and the pauses, during which the tree may go on loading. *)
Section Expansion.
Context {dom button : Type}.
Variable collapsed_in_section : dom -> list button.
Variable collapsed_in_page : dom -> list button.
Variable click : button -> dom -> dom * bool.   (* [false]: the click raised *)
Variable pause : dom -> dom.

(** What an expansion leaves: the tree, [total_expanded], and per pass
    the number of collapsed nodes its query found. *)
Record expansion : Type := Expansion {
  tree : dom;
  total_expanded : Z;
  passes : list nat
}.

(** [for btn in collapsed_items: try: click ... except: pass] *)
Fixpoint click_all (btns : list button) (d : dom) (total : Z) : dom * Z :=
  match btns with
  | [] => (d, total)
  | btn :: btns' =>
      match click btn d with
      | (d', true) => click_all btns' (pause d') (total + 1)
      | (d', false) => click_all btns' d' total
      end
  end.

(** [for depth in range(n)]: query, stop when nothing is collapsed,
    otherwise click every button found and pause. *)
Fixpoint expand_loop (query : dom -> list button) (n : nat) (e : expansion)
  : expansion :=
  match n with
  | O => e
  | S n' =>
      let collapsed_items := query (tree e) in
      match collapsed_items with
      | [] => {| tree := tree e; total_expanded := total_expanded e;
                 passes := passes e ++ [O] |}
      | _ :: _ =>
          let '(d, total) :=
            click_all collapsed_items (tree e) (total_expanded e) in
          expand_loop query n'
            {| tree := pause d; total_expanded := total;
               passes := passes e ++ [length collapsed_items] |}
      end
  end.

Definition default_max_depth : Z := 20.
Definition default_max_iterations : Z := 30.

Definition _expand_all_api_subsections (d : dom) (max_depth : Z)
  : expansion :=
  expand_loop collapsed_in_section (Z.to_nat max_depth)
    {| tree := d; total_expanded := 0; passes := [] |}.

Definition _expand_all_sections (d : dom) (max_iterations : Z)
  : expansion :=
  expand_loop collapsed_in_page (Z.to_nat max_iterations)
    {| tree := d; total_expanded := 0; passes := [] |}.
End Expansion.

(** *** Link discovery *)

(** An anchor of the navigation tree, as the link loop sees it: reading it
    raises, or it has an [href] attribute (possibly none) and a text. *)
Inductive anchor : Type :=
| Stale
| Anchor (href : option str) (inner_text : str).

(** A discovered link: the dictionary with [url], [title] and [guid]. *)
Record link_info : Type := LinkInfo {
  l_url : str;
  l_title : str;
  l_guid : str
}.

(** The class [[A-F0-9a-f-]] *)
Definition guid_char (c : N) : bool :=
  ((65 <=? c) && (c <=? 70) || (48 <=? c) && (c <=? 57)
   || (97 <=? c) && (c <=? 102) || (c =? 45))%N.

Fixpoint take_while (p : N -> bool) (s : str) : str :=
  match s with
  | [] => []
  | c :: s' => if p c then c :: take_while p s' else []
  end.

(** [re.search(r'guid=(GUID-[A-F0-9a-f-]+)', href).group(1)]: the leftmost
    place where the pattern matches, with the longest run of the class. *)
Fixpoint search_guid (href : str) : option str :=
  let here :=
    if startswith href (u "guid=GUID-")
    then match take_while guid_char (drop 10 href) with
         | [] => None
         | run => Some (u "GUID-" ++ run)
         end
    else None in
  match here with
  | Some g => Some g
  | None => match href with
            | [] => None
            | _ :: href' => search_guid href'
            end
  end.

(** The body of [for link in links], on the pair of [pages] and
    [self.visited_guids]. *)
Definition discover_link (st : list link_info * gset str) (link : anchor)
  : list link_info * gset str :=
  match link with
  | Stale => st
  | Anchor href inner_text =>
      let title := strip inner_text in
      match title with
      | [] => st
      | _ :: _ =>
          match search_guid (default [] href) with
          | Some g =>
              if decide (g ∈ st.2) then st
              else
                let full_url :=
                  if startswith (default [] href) (u "http")
                  then default [] href
                  else BASE_URL ++ u "?guid=" ++ g in
                (st.1 ++ [ {| l_url := full_url; l_title := title;
                              l_guid := g |} ],
                 {[ g ]} ∪ st.2)
          | None => st
          end
      end
  end.

(** The link loop of [_discover_api_pages]: from the anchors the tree shows
    after expansion to the list of pages, with the set of visited
    identifiers of the scraper object. *)
Definition _discover_api_pages (links : list anchor) (visited_guids : gset str)
  : list link_info * gset str :=
  fold_left discover_link links ([], visited_guids).


(** The loop from any state of the pair. *)
Definition discover_from (st : list link_info * gset str)
    (links : list anchor) : list link_info * gset str :=
  fold_left discover_link links st.

(** Notions used to state the properties of the loop. *)

(** The identifier an anchor contributes, if the loop does not skip it for
    a reading error, a blank title or an [href] without identifier. *)
Definition candidate (a : anchor) : option str :=
  match a with
  | Stale => None
  | Anchor href inner_text =>
      match strip inner_text with
      | [] => None
      | _ :: _ => search_guid (default [] href)
      end
  end.

(** The link the loop builds from an anchor with identifier [g]. *)
Definition link_of (a : anchor) (g : str) : link_info :=
  match a with
  | Stale => {| l_url := []; l_title := []; l_guid := g |}
  | Anchor href inner_text =>
      {| l_url := if startswith (default [] href) (u "http")
                  then default [] href
                  else BASE_URL ++ u "?guid=" ++ g;
         l_title := strip inner_text;
         l_guid := g |}
  end.

(** Every identifier of the list is in the set, and no identifier occurs
    twice in the list. *)
Definition tracked (st : list link_info * gset str) : Prop :=
  NoDup (l_guid <$> st.1) /\ forall p, p ∈ st.1 -> l_guid p ∈ st.2.

(** *** Content extraction *)

(** What a selector gives on a rendered page: no element, an exception, or
    the inner text of the element. *)
Inductive probe : Type :=
| Absent
| Raises
| Text (t : str).

(** A rendered page: the answer to [query_selector] followed by
    [inner_text], and the result of the fallback script. *)
Record page_view : Type := PageView {
  query : str -> probe;
  evaluate : probe
}.

Definition selectors : list str :=
  [ u ".body_content"; u "#body-content"; u ".caas_body"; u "article";
    u "main" ].

(** [re.sub(r'\n{3,}', '\n\n', _)], [re.sub(r' {2,}', ' ', _)], [strip]. *)
Definition normalize (text : str) : str :=
  strip (sub_runs 32 2 1 0 (sub_runs NL 3 2 0 text)).

(** The [for selector in selectors] loop. *)
Fixpoint try_selectors (page : page_view) (sels : list str) : option str :=
  match sels with
  | [] => None
  | selector :: sels' =>
      match query page selector with
      | Text text =>
          if bool_decide (text <> []) && (100 <? len text)
          then Some (normalize text)
          else try_selectors page sels'
      | Absent | Raises => try_selectors page sels'
      end
  end.

(** A selector qualifies when it gives a text of more than 100 characters
    (used to state properties). *)
Definition qualifies (pr : probe) : Prop :=
  match pr with
  | Text t => 100 < len t
  | Absent | Raises => False
  end.

Definition _extract_content (page : page_view) : str :=
  match try_selectors page selectors with
  | Some text => text
  | None =>
      match evaluate page with
      | Text content =>
          match content with
          | [] => []
          | _ :: _ => normalize content
          end
      | Absent | Raises => []
      end
  end.

(** *** Scraping and saving *)

(** The dictionary appended to [self.scraped_pages]. *)
Record scraped_page : Type := ScrapedPage {
  sp_guid : str;
  sp_title : str;
  sp_url : str;
  sp_content : str;
  sp_scraped_at : str
}.

(** The index of this scraper: [total_pages], [scraped_at] and, per page,
    [guid], [title] and [url]. *)
Record index : Type := Index {
  ix_total_pages : Z;
  ix_scraped_at : str;
  ix_pages : list (str * str * str)
}.

Inductive file : Type :=
| PageFile (p : scraped_page)
| IndexFile (ix : index).

Definition page_file_name (g : str) : str := g ++ u ".json".
Definition index_file_name : str := u "index.json".

(** The site as the browser shows it: the rendered page behind a URL
    ([None]: the navigation raises) and the anchors the navigation tree
    shows once expanded. *)
Record site : Type := Site {
  render : str -> option page_view;
  nav_links : list anchor
}.

(** The scraper object with its output directory; [navigated] records the
    URLs given to [page.goto], in order. *)
Record scraper : Type := ScraperState {
  output_dir : gmap str file;
  scraped_pages : list scraped_page;
  visited_guids : gset str;
  navigated : list str
}.

Definition _scrape_page (now : str) (web : site) (sc : scraper)
    (link : link_info) : scraper :=
  let sc' := {| output_dir := output_dir sc;
                scraped_pages := scraped_pages sc;
                visited_guids := visited_guids sc;
                navigated := navigated sc ++ [l_url link] |} in
  match render web (l_url link) with
  | None => sc'
  | Some page =>
      let content := _extract_content page in
      if bool_decide (content <> []) && (50 <? len content)
      then {| output_dir := output_dir sc';
              scraped_pages :=
                scraped_pages sc' ++
                [ {| sp_guid := l_guid link; sp_title := l_title link;
                     sp_url := l_url link; sp_content := content;
                     sp_scraped_at := now |} ];
              visited_guids := visited_guids sc';
              navigated := navigated sc' |}
      else sc'
  end.

Definition _save_results (now : str) (sc : scraper) : scraper :=
  let dir :=
    fold_left (fun d p => <[page_file_name (sp_guid p) := PageFile p]> d)
              (scraped_pages sc) (output_dir sc) in
  let ix := {| ix_total_pages := len_list (scraped_pages sc);
               ix_scraped_at := now;
               ix_pages := (fun p => (sp_guid p, sp_title p, sp_url p))
                           <$> scraped_pages sc |} in
  {| output_dir := <[index_file_name := IndexFile ix]> dir;
     scraped_pages := scraped_pages sc;
     visited_guids := visited_guids sc;
     navigated := navigated sc |}.

(** [run]: open the API section, discover the links, scrape each of them,
    save.  When the first navigation raises, nothing else happens. *)
Definition run (now : str) (web : site) (test_mode : bool) (sc : scraper)
  : scraper :=
  let start_url := BASE_URL ++ u "?guid=" ++ API_SECTION_GUID in
  let sc0 := {| output_dir := output_dir sc;
                scraped_pages := scraped_pages sc;
                visited_guids := visited_guids sc;
                navigated := navigated sc ++ [start_url] |} in
  match render web start_url with
  | None => sc0
  | Some _ =>
      let '(page_links, visited) :=
        _discover_api_pages (nav_links web) (visited_guids sc0) in
      let page_links := if test_mode then take 5 page_links else page_links in
      let sc1 := {| output_dir := output_dir sc0;
                    scraped_pages := scraped_pages sc0;
                    visited_guids := visited;
                    navigated := navigated sc0 |} in
      _save_results now (fold_left (_scrape_page now web) page_links sc1)
  end.

(** A fresh scraper object over an output directory ([__init__]). *)
Definition new_scraper (dir : gmap str file) : scraper :=
  {| output_dir := dir; scraped_pages := []; visited_guids := ∅;
     navigated := [] |}.

End Scraper.

(** ** Sample sites and stores for the concrete runs *)

Module Samples.

(** A rendered page whose only content is [n] letters, given by the
    fallback script. *)
Definition letters_page (n : nat) : Scraper.page_view :=
  {| Scraper.query := fun _ => Scraper.Absent;
     Scraper.evaluate := Scraper.Text (replicate n 97%N) |}.

Definition guid_A : str := u "GUID-AA11".
Definition guid_B : str := u "GUID-BB22".

Definition anchor_of (g title : str) : Scraper.anchor :=
  Scraper.Anchor (Some (u "?guid=" ++ g)) title.

(** A site with one documentation page. *)
Definition site_A : Scraper.site :=
  {| Scraper.render := fun _ => Some (letters_page 60);
     Scraper.nav_links := [anchor_of guid_A (u "Introduction")] |}.

(** The same origin once its navigation shows another page instead. *)
Definition site_B : Scraper.site :=
  {| Scraper.render := fun _ => Some (letters_page 60);
     Scraper.nav_links := [anchor_of guid_B (u "Class reference")] |}.

Definition link_A : Scraper.link_info :=
  {| Scraper.l_url := Scraper.BASE_URL ++ u "?guid=" ++ guid_A;
     Scraper.l_title := u "Introduction";
     Scraper.l_guid := guid_A |}.

(** The extraction API when it answers for no URL at all, and when it
    returns the same short document for every URL asked. *)
Definition world_failing : Tavily.world :=
  {| Tavily.api_key := Some (u "tvly-key");
     Tavily.tavily := fun _ _ => Tavily.Response [];
     Tavily.now := u "2026-01-01T00:00:00+00:00" |}.

Definition world_answering : Tavily.world :=
  {| Tavily.api_key := Some (u "tvly-key");
     Tavily.tavily := fun _ urls =>
       Tavily.Response
         ((fun x => {| Tavily.ex_url := x; Tavily.ex_title := u "Doc";
                       Tavily.ex_raw_content := u "# Doc" |}) <$> urls);
     Tavily.now := u "2026-01-01T00:00:00+00:00" |}.

Definition tavily_page (g : str) : Tavily.page :=
  {| Tavily.guid := g; Tavily.title := u "Doc";
     Tavily.url := Scraper.BASE_URL ++ u "?guid=" ++ g |}.

(** A store that holds the record of page A. *)
Definition store_A : Tavily.directory :=
  {[ Tavily.page_file_name guid_A :=
       Tavily.PageFile
         {| Tavily.pd_guid := guid_A; Tavily.pd_title := u "Doc";
            Tavily.pd_url := Scraper.BASE_URL ++ u "?guid=" ++ guid_A;
            Tavily.pd_raw_content := u "# Doc";
            Tavily.pd_content := u "# Doc";
            Tavily.pd_has_code_blocks := false;
            Tavily.pd_scraped_at := u "2025-12-31T00:00:00+00:00" |} ]}.

(** Seven pages of an index. *)
Definition seven_pages : list Tavily.page :=
  tavily_page <$> [ u "GUID-01"; u "GUID-02"; u "GUID-03"; u "GUID-04";
                    u "GUID-05"; u "GUID-06"; u "GUID-07" ].

End Samples.

(** ** Notions used to state further properties *)

Module StrNotions.

(** The length of the longest run of the character [c] in a text: [cur]
    is the length of the run being read, [best] the longest one seen. *)
Fixpoint run_scan (c : N) (cur best : nat) (s : str) : nat :=
  match s with
  | [] => Nat.max cur best
  | x :: s' =>
      if (x =? c)%N then run_scan c (S cur) best s'
      else run_scan c 0 (Nat.max cur best) s'
  end.

Definition longest_run (c : N) (s : str) : nat := run_scan c 0 0 s.

End StrNotions.

Module CleanerNotions.
Import Cleaner.

(** A line that can start the content: not a fence line, and the page
    title (alone or as a heading) or a heading without chrome keyword. *)
Definition starts_content (page_title line : str) : Prop :=
  is_fence line = false /\
  (is_title_line page_title (strip line)
   || is_content_heading (strip line)) = true.

(** Once the content start is found, the first line kept is the line that
    started the content. *)
Definition started (page_title : str) (st : loop_state) : Prop :=
  found_content_start st = true ->
  exists l rest, cleaned_lines st = l :: rest /\ starts_content page_title l.

End CleanerNotions.

Module TavilyNotions.
Import Cleaner Tavily.

(** The state in which a run over the store [dir] leaves the batch loop
    when [todo] are its pages to scrape. *)
Definition batch_state (w : world) (dir : directory) (todo : list page)
  : progress :=
  fold_left (scrape_batch w) (batches todo)
            {| files := dir; scraped_index := []; api_calls := [];
               stopped := None |}.

(** The record [d] is what a run writes for page [p] from the item the
    extraction API returned for it: the page's own identifier, title and
    URL, the raw content of the item, as content the cleaned raw content,
    and the time of the clock. *)
Definition record_of (w : world) (p : page) (item : extracted)
    (d : page_data) : Prop :=
  pd_guid d = guid p /\ pd_title d = title p /\ pd_url d = url p /\
  pd_raw_content d = ex_raw_content item /\
  pd_content d = clean_content (ex_raw_content item) (title p) /\
  pd_has_code_blocks d = contains (ex_raw_content item) (u "```") /\
  pd_scraped_at d = now w.

(** The content [f] was written by the run in state [st] for page [p]:
    the record made of the item that a call of the run returned for the
    URL of [p], or the beginning of a text whose writing raised, which
    ended the loop. *)
Definition written_for (w : world) (st : progress) (p : page) (f : file)
  : Prop :=
  (f = Unreadable /\ stopped st = Some Raises) \/
  exists d item n urls,
    f = PageFile d /\ api_calls st !! n = Some urls /\ url p ∈ urls /\
    extract_batch w n urls !! url p = Some item /\ record_of w p item d.

(** What the batch loop keeps true of its state, for a store [dir] and the
    pages [todo] it works through: a file either is as it was before the
    run or was written for one of these pages under its identifier, and
    while the loop has not stopped every index entry without error has its
    record in the store. *)
Definition batch_invariant (w : world) (dir : directory) (todo : list page)
    (st : progress) : Prop :=
  (forall name,
      files st !! name = dir !! name \/
      exists p f, p ∈ todo /\ name = page_file_name (guid p) /\
                  (path_sep ∉ name) /\
                  files st !! name = Some f /\ written_for w st p f) /\
  (stopped st = None ->
   forall e, e ∈ scraped_index st -> ie_error e = None ->
             exists d, files st !! page_file_name (ie_guid e)
                       = Some (PageFile d)).

(** The extraction API answers for every URL it is asked. *)
Definition answers_all (w : world) : Prop :=
  forall ncalls urls x, x ∈ urls -> is_Some (extract_batch w ncalls urls !! x).

(** The URL lists of a run that goes through all its batches: five URLs
    per call, in order, the last call with what remains. *)
Definition calls_of (urls : list str) : list (list str) :=
  (fun i => take 5 (drop (5 * i) urls))
    <$> seq 0 ((length urls + 4) / 5).

(** A file that the index loop reads without an exception of either
    kind. *)
Definition readable (f : file) : Prop := f <> Unreadable /\ f <> Uncaught.

#[global] Instance readable_dec (f : file) : Decision (readable f).
Proof.
  unfold readable.
  destruct f;
    [left; split; discriminate | left; split; discriminate
    |right; intros [H _]; by apply H | right; intros [_ H]; by apply H].
Defined.

End TavilyNotions.

Module ScraperNotions.
Import Scraper.

Section ClickOutcomes.
Context {dom button : Type}.
Variable click : button -> dom -> dom * bool.
Variable pause : dom -> dom.

(** The outcome of each click of one pass over the buttons, in order:
    [true] for a click that did not raise. *)
Fixpoint click_outcomes (btns : list button) (d : dom) : list bool :=
  match btns with
  | [] => []
  | btn :: btns' =>
      (click btn d).2
      :: click_outcomes btns'
           (if (click btn d).2 then pause (click btn d).1
            else (click btn d).1)
  end.

(** The tree after the clicks of one pass. *)
Fixpoint after_clicks (btns : list button) (d : dom) : dom :=
  match btns with
  | [] => d
  | btn :: btns' =>
      after_clicks btns'
        (if (click btn d).2 then pause (click btn d).1 else (click btn d).1)
  end.

(** The outcomes of all the clicks of an expansion of at most [n] passes
    that starts from the tree [d]. *)
Fixpoint loop_outcomes (query : dom -> list button) (n : nat) (d : dom)
  : list bool :=
  match n with
  | O => []
  | S n' =>
      match query d with
      | [] => []
      | _ :: _ =>
          click_outcomes (query d) d
          ++ loop_outcomes query n' (pause (after_clicks (query d) d))
      end
  end.
End ClickOutcomes.

(** The number of clicks that did not raise. *)
Definition succeeded (outcomes : list bool) : Z :=
  Z.of_nat (length (filter (fun ok => ok = true) outcomes)).


End ScraperNotions.

(** ** Finding the API key: [get_api_key] *)

Module ApiKey.

(** The file [mcp_config.json]: absent; text that [json.load] rejects with
    [JSONDecodeError]; content on which the function raises an exception
    that it does not catch (bytes that are not text, a document of another
    shape); or a document whose [mcpServers.tavily.args] is a list of
    strings (an absent key gives the empty list). *)
Inductive mcp_config : Type :=
| ConfigMissing
| ConfigUnreadable
| ConfigUncaught
| Config (args : list str).

(** How [get_api_key] ends: it returns a key, it prints the error and
    leaves by [sys.exit(1)], or an exception leaves it. *)
Inductive key_result : Type :=
| Found (key : str)
| Exits
| KeyRaises.

Definition key_marker : str := u "tavilyApiKey=".

(** [s.split(sep)[1]] for a separator that occurs in [s]: the text between
    the first occurrence of the separator and the next one. *)
Definition split_second (s sep : str) : str :=
  let rest := drop (Z.to_nat (find s sep) + length sep) s in
  let next := find rest sep in
  if next <? 0 then rest else slice_to rest next.

(** The [for arg in args] loop. *)
Fixpoint key_from_args (args : list str) : option str :=
  match args with
  | [] => None
  | arg :: args' =>
      if contains arg key_marker then Some (split_second arg key_marker)
      else key_from_args args'
  end.

(** [get_api_key]: the environment variable [TAVILY_API_KEY] when it is
    set and not empty, else the key found in the configuration file. *)
Definition get_api_key (env : option str) (cfg : mcp_config) : key_result :=
  match env with
  | Some (c :: key) => Found (c :: key)
  | Some [] | None =>
      match cfg with
      | Config args =>
          match key_from_args args with
          | Some key => Found key
          | None => Exits
          end
      | ConfigMissing | ConfigUnreadable => Exits
      | ConfigUncaught => KeyRaises
      end
  end.

End ApiKey.

(** ** The search server of [mcp_server.py] *)

Module Server.
Import Scraper.

(** [l[a:b]] with Python's treatment of negative and out-of-range
    bounds. *)
Definition clamp_index (n : Z) (i : Z) : Z :=
  if i <? 0 then Z.max 0 (n + i) else Z.min i n.

Definition py_slice {A : Type} (l : list A) (a b : Z) : list A :=
  let n := len_list l in
  take (Z.to_nat (clamp_index n b - clamp_index n a))
       (drop (Z.to_nat (clamp_index n a)) l).

(** [s.split()]: the maximal runs of characters that are not white
    space; [cur] is the run being read. *)
Fixpoint split_ws (cur : str) (s : str) : list str :=
  match s with
  | [] => match cur with [] => [] | _ :: _ => [cur] end
  | c :: s' =>
      if isspace c
      then match cur with
           | [] => split_ws [] s'
           | _ :: _ => cur :: split_ws [] s'
           end
      else split_ws (cur ++ [c]) s'
  end.

(** [s.count(sub)] for a non-empty [sub]: occurrences counted from the
    left without overlap. *)
Fixpoint count_fuel (fuel : nat) (s sub : str) : Z :=
  match fuel with
  | O => 0
  | S fuel' =>
      if startswith s sub then 1 + count_fuel fuel' (drop (length sub) s) sub
      else match s with
           | [] => 0
           | _ :: s' => count_fuel fuel' s' sub
           end
  end.

Definition count (s sub : str) : Z :=
  match sub with
  | [] => len s + 1
  | _ :: _ => count_fuel (length s) s sub
  end.

(** A loaded document: the dictionary read from a file of the store.
    [doc.get("title", "")] and [doc.get("content", "")] fall back to the
    empty string, [doc.get("guid")] and [doc.get("url")] to [None]. *)
Definition doc_title (doc : file) : str :=
  match doc with PageFile p => sp_title p | IndexFile _ => [] end.
Definition doc_content (doc : file) : str :=
  match doc with PageFile p => sp_content p | IndexFile _ => [] end.
Definition doc_guid (doc : file) : option str :=
  match doc with PageFile p => Some (sp_guid p) | IndexFile _ => None end.
Definition doc_url (doc : file) : option str :=
  match doc with PageFile p => Some (sp_url p) | IndexFile _ => None end.


Definition ellipsis : str := u "...".

(** The loop that looks for the first occurrence of any query term. *)
Definition best_position (content_lower : str) (query_terms : list str)
    (start : Z) : Z :=
  fold_left (fun best_pos term =>
               let pos := find content_lower term in
               if negb (pos =? -1) && (pos <? best_pos) then pos
               else best_pos)
            query_terms start.

Definition default_snippet_length : Z := 300.

Definition extract_snippet (content : str) (query_terms : list str)
    (snippet_length : Z) : str :=
  let content_lower := Unicode.lower content in
  let best_pos := best_position content_lower query_terms (len content) in
  if best_pos =? len content then
    if snippet_length <? len content
    then py_slice content 0 snippet_length ++ ellipsis
    else content
  else
    let start := Z.max 0 (best_pos - 50) in
    let stop := Z.min (len content) (start + snippet_length) in
    let snippet := py_slice content start stop in
    let snippet := if 0 <? start then ellipsis ++ snippet else snippet in
    if stop <? len content then snippet ++ ellipsis else snippet.

(** A search result. *)
Record result : Type := Result {
  res_guid : option str;
  res_title : option str;
  res_url : option str;
  res_score : Z;
  res_matched_terms : list str;
  res_snippet : str
}.

(** The loop over the query terms, on the pair of [score] and
    [matched_terms]. *)
Definition score_term (title content : str) (st : Z * list str) (term : str)
  : Z * list str :=
  let st1 :=
    if contains title term then (st.1 + 10, st.2 ++ [term]) else st in
  if contains content term
  then (st1.1 + count content term,
        if bool_decide (term ∈ st1.2) then st1.2 else st1.2 ++ [term])
  else st1.

(** The body of the loop over the documents. *)
Definition score_doc (query_terms : list str) (doc : file) : option result :=
  let title := Unicode.lower (doc_title doc) in
  let content := Unicode.lower (doc_content doc) in
  let '(score, matched_terms) :=
    fold_left (score_term title content) query_terms (0, []) in
  if 0 <? score
  then Some {| res_guid := doc_guid doc;
               res_title := match doc with
                            | PageFile p => Some (sp_title p)
                            | IndexFile _ => None
                            end;
               res_url := doc_url doc;
               res_score := score;
               res_matched_terms := matched_terms;
               res_snippet := extract_snippet content query_terms
                                default_snippet_length |}
  else None.

(** [results.sort(key=score, reverse=True)]: a stable sort, so results
    with the same score keep their order.  The results are inserted
    from the last to the first, each one in front of the results that
    do not score higher. *)
Fixpoint insert_by_score (r : result) (sorted : list result) : list result :=
  match sorted with
  | [] => [r]
  | r' :: rest =>
      if res_score r' <=? res_score r then r :: sorted
      else r' :: insert_by_score r rest
  end.

Definition sort_by_score (results : list result) : list result :=
  foldr insert_by_score [] results.

Definition default_max_results : Z := 5.

Definition search_docs (query : str) (docs : list file) (max_results : Z)
  : list result :=
  let query_terms := split_ws [] (Unicode.lower query) in
  let results := omap (score_doc query_terms) docs in
  py_slice (sort_by_score results) 0 max_results.

End Server.

(** ** Notions for the search server *)

Module ServerNotions.
Import Server.

(** A list of results is ranked when no result scores higher than a
    result before it. *)
Fixpoint ranked (results : list result) : Prop :=
  match results with
  | [] => True
  | r :: rest =>
      Forall (fun r' => res_score r' <= res_score r) rest /\ ranked rest
  end.

(** The results a list of documents gives for a list of query terms,
    document by document, before they are ordered. *)
Definition hits (query_terms : list str) (docs : list Scraper.file)
  : list result :=
  omap (score_doc query_terms) docs.

End ServerNotions.

(** Two stored documents for the search. *)
Module ServerSamples.

Definition doc_curve : Scraper.file :=
  Scraper.PageFile
    {| Scraper.sp_guid := Samples.guid_A;
       Scraper.sp_title := u "Curve tools";
       Scraper.sp_url := u "https://help.autodesk.com/a";
       Scraper.sp_content := u "Use the curve tools to draw a curve.";
       Scraper.sp_scraped_at := u "t0" |}.

Definition doc_surface : Scraper.file :=
  Scraper.PageFile
    {| Scraper.sp_guid := Samples.guid_B;
       Scraper.sp_title := u "Surfaces";
       Scraper.sp_url := u "https://help.autodesk.com/b";
       Scraper.sp_content := u "A surface is built on curves.";
       Scraper.sp_scraped_at := u "t0" |}.

Definition docs : list Scraper.file := [doc_surface; doc_curve].

End ServerSamples.

(** ** Facts about the string primitives *)

Module PyStrFacts.

Lemma startswith_spec (s p : str) :
  startswith s p = true <-> exists t, s = p ++ t.
Proof.
  revert s. induction p as [|a p IH]; intros s; simpl.
  - split; [intros _; by exists s | done].
  - destruct s as [|b s].
    + split; [discriminate | intros [t Ht]; discriminate].
    + rewrite andb_true_iff, IH, N.eqb_eq. split.
      * intros [-> [t ->]]. eauto.
      * intros [t Ht]. injection Ht as -> ->. eauto.
Qed.

Lemma startswith_false (s p : str) :
  startswith s p = false <-> forall t, s <> p ++ t.
Proof.
  split.
  - intros H t ->.
    assert (startswith (p ++ t) p = true) by (apply startswith_spec; eauto).
    congruence.
  - intros H. destruct (startswith s p) eqn:E; [|done].
    apply startswith_spec in E as [t ->]. by destruct (H t).
Qed.

(** [index_of] returns the position of the first occurrence. *)
Lemma index_of_Some (m c : str) (i : nat) :
  index_of m c = Some i ->
  (exists a b, c = a ++ m ++ b /\ length a = i) /\
  (forall a b, c = a ++ m ++ b -> (i <= length a)%nat).
Proof.
  revert i. induction c as [|x c IH]; intros i; simpl.
  - destruct (startswith [] m) eqn:E; [|discriminate].
    intros [= <-]. apply startswith_spec in E as [t Ht]. split.
    + exists [], t. split; [exact Ht | done].
    + intros; lia.
  - destruct (startswith (x :: c) m) eqn:E.
    + intros [= <-]. apply startswith_spec in E as [t Ht]. split.
      * exists [], t. split; [exact Ht | done].
      * intros; lia.
    + destruct (index_of m c) as [j|] eqn:Ej; [|discriminate].
      intros [= <-]. destruct (IH j eq_refl) as [(a & b & -> & Hlen) Hmin].
      split.
      * exists (x :: a), b. simpl. by rewrite Hlen.
      * intros a' b' Heq. destruct a' as [|y a'].
        -- simpl in Heq. rewrite startswith_false in E. by destruct (E b').
        -- simpl in Heq. injection Heq as -> Heq.
           specialize (Hmin a' b' Heq). simpl. lia.
Qed.

Lemma index_of_None (m c : str) :
  index_of m c = None -> forall a b, c <> a ++ m ++ b.
Proof.
  induction c as [|x c IH]; simpl.
  - destruct (startswith [] m) eqn:E; [discriminate|].
    intros _ a b Heq. rewrite startswith_false in E.
    destruct a; simpl in Heq; [by destruct (E b) | discriminate].
  - destruct (startswith (x :: c) m) eqn:E; [discriminate|].
    destruct (index_of m c) eqn:Ej; [discriminate|].
    intros _ a b Heq. destruct a as [|y a]; simpl in Heq.
    + rewrite startswith_false in E. by destruct (E b).
    + injection Heq as -> Heq. by destruct (IH eq_refl a b).
Qed.

Lemma find_ge_m1 (c m : str) : -1 <= find c m.
Proof. unfold find. destruct (index_of m c); lia. Qed.

(** [find] is positive exactly when the marker first occurs after the start. *)
Lemma find_pos (c m : str) :
  0 < find c m ->
  (exists a b, c = a ++ m ++ b /\ Z.of_nat (length a) = find c m) /\
  (forall a b, c = a ++ m ++ b -> find c m <= Z.of_nat (length a)).
Proof.
  unfold find. destruct (index_of m c) as [i|] eqn:E; [|lia].
  intros _. destruct (index_of_Some _ _ _ E) as [(a & b & -> & Hl) Hmin]. split.
  - exists a, b. split; [done | lia].
  - intros a' b' Heq. specialize (Hmin a' b' Heq). lia.
Qed.

Lemma find_zero (c m : str) : find c m = 0 -> exists t, c = m ++ t.
Proof.
  unfold find. destruct (index_of m c) as [i|] eqn:E; [|lia].
  intros Hi. destruct (index_of_Some _ _ _ E) as [(a & b & -> & Hl) _].
  assert (a = []) as -> by (apply length_zero_iff_nil; lia). eauto.
Qed.

Lemma find_none (c m : str) : find c m = -1 -> forall a b, c <> a ++ m ++ b.
Proof.
  unfold find. destruct (index_of m c) as [i|] eqn:E; [lia|].
  intros _. by apply index_of_None.
Qed.

Lemma find_occurrence (a m b : str) :
  0 <= find (a ++ m ++ b) m <= Z.of_nat (length a).
Proof.
  unfold find. destruct (index_of m (a ++ m ++ b)) as [i|] eqn:E.
  - destruct (index_of_Some _ _ _ E) as [_ Hmin].
    specialize (Hmin a b eq_refl). lia.
  - by destruct (index_of_None _ _ E a b).
Qed.

(** A marker that is not found after the start of a text is not found
    after the start of any prefix of that text either. *)
Lemma find_prefix_nonpos (c r t m : str) :
  c = r ++ t -> find c m <= 0 -> find r m <= 0.
Proof.
  intros -> Hc. destruct (Z.lt_ge_cases 0 (find r m)) as [Hpos|]; [|lia].
  exfalso. destruct (find_pos _ _ Hpos) as [(a & b & Hr & Hl) Hmin].
  pose proof (find_occurrence a m (b ++ t)) as Hocc.
  assert (find (r ++ t) m = 0) as H0.
  { rewrite Hr, <- !app_assoc. rewrite Hr, <- !app_assoc in Hc.
    pose proof (find_ge_m1 (a ++ m ++ b ++ t) m). lia. }
  destruct (find_zero _ _ H0) as [t' Ht'].
  (* [r] is at least as long as [m], so it starts with [m] *)
  assert (exists r', r = m ++ r') as [r' Hr'].
  { assert (length m <= length r)%nat as Hlen
      by (rewrite Hr, !length_app; lia).
    exists (drop (length m) r).
    rewrite <- (take_drop (length m) r) at 1. f_equal.
    apply (f_equal (take (length m))) in Ht'.
    rewrite take_app_le in Ht' by done.
    rewrite take_app_length in Ht'. done. }
  specialize (Hmin [] r' Hr'). simpl in Hmin. lia.
Qed.

(** Cutting a text at the first occurrence of a marker leaves no occurrence
    of that marker in the part that is kept, nor in any prefix of it. *)
Lemma find_cut_none (c r t m : str) :
  0 < find c m -> slice_to c (find c m) = r ++ t -> find r m = -1.
Proof.
  intros Hpos Hcut.
  unfold find at 1. destruct (index_of m r) as [j|] eqn:E; [exfalso|done].
  destruct (index_of_Some _ _ _ E) as [(a & b & Hr & Hl) _].
  destruct (find_pos _ _ Hpos) as [_ Hmin].
  assert (c = a ++ m ++ (b ++ t ++ drop (Z.to_nat (find c m)) c)) as Hc.
  { rewrite <- (take_drop (Z.to_nat (find c m)) c) at 1.
    unfold slice_to in Hcut. rewrite Hcut, Hr, <- !app_assoc. done. }
  specialize (Hmin _ _ Hc).
  assert (length (take (Z.to_nat (find c m)) c) <= Z.to_nat (find c m))%nat
    as Hle by (rewrite length_take; lia).
  unfold slice_to in Hcut. rewrite Hcut, Hr, !length_app in Hle.
  assert (m = []) as -> by (apply length_zero_iff_nil; lia).
  pose proof (find_occurrence [] [] c) as Hz. simpl in Hz. lia.
Qed.

Lemma rstrip_prefix (s : str) : exists t, s = rstrip s ++ t.
Proof.
  induction s as [|c s [t IH]]; simpl; [by exists []|].
  destruct (rstrip s) as [|y r] eqn:E.
  - destruct (isspace c); [by exists (c :: s) | exists s; done].
  - exists t. simpl. by rewrite IH at 1.
Qed.

End PyStrFacts.

(** ** Footer truncation *)

Module FooterFacts.
Import Footer PyStrFacts.

(** The loop and the position it reports agree. *)
Lemma cut_index_None (ms : list str) (c : str) :
  cut_index ms c = None ->
  Forall (fun m => find c m <= 0) ms /\ strip_footer_loop ms c = c.
Proof.
  induction ms as [|m ms IH]; simpl; [done|].
  destruct (0 <? find c m) eqn:E; [discriminate|].
  destruct (cut_index ms c) eqn:Ec; [discriminate|]. intros _.
  destruct (IH eq_refl) as [HF Hl]. apply Z.ltb_ge in E.
  split; [by constructor | done].
Qed.

Lemma cut_index_Some (ms : list str) (c : str) (i : nat) :
  cut_index ms c = Some i ->
  exists m, ms !! i = Some m /\ 0 < find c m /\
            Forall (fun m' => find c m' <= 0) (take i ms) /\
            strip_footer_loop ms c = rstrip (slice_to c (find c m)).
Proof.
  revert i. induction ms as [|m ms IH]; intros i; simpl; [discriminate|].
  destruct (0 <? find c m) eqn:E.
  - intros [= <-]. apply Z.ltb_lt in E. exists m. simpl. by repeat split.
  - destruct (cut_index ms c) as [j|] eqn:Ec; [|discriminate].
    intros [= <-]. destruct (IH j eq_refl) as (m' & Hm' & Hpos & HF & Hl).
    apply Z.ltb_ge in E. exists m'. simpl. repeat split; try done.
    by constructor.
Qed.

Lemma strip_footer_loop_id (ms : list str) (c : str) :
  Forall (fun m => find c m <= 0) ms -> strip_footer_loop ms c = c.
Proof.
  induction 1 as [|m ms Hm _ IH]; simpl; [done|].
  destruct (0 <? find c m) eqn:E; [apply Z.ltb_lt in E; lia | done].
Qed.

Lemma cut_index_None_iff (ms : list str) (c : str) :
  cut_index ms c = None <-> Forall (fun m => find c m <= 0) ms.
Proof.
  split; [apply cut_index_None|].
  induction 1 as [|m ms Hm _ IH]; simpl; [done|].
  destruct (0 <? find c m) eqn:E; [apply Z.ltb_lt in E; lia|].
  by rewrite IH.
Qed.

(** The output of the loop is a prefix of its input. *)
Lemma strip_footer_loop_prefix (ms : list str) (c : str) :
  exists t, c = strip_footer_loop ms c ++ t.
Proof.
  destruct (cut_index ms c) as [i|] eqn:E.
  - destruct (cut_index_Some _ _ _ E) as (m & _ & _ & _ & ->).
    destruct (rstrip_prefix (slice_to c (find c m))) as [t Ht].
    exists (t ++ drop (Z.to_nat (find c m)) c).
    rewrite app_assoc, <- Ht. unfold slice_to. by rewrite take_drop.
  - destruct (cut_index_None _ _ E) as [_ ->]. exists []. by rewrite app_nil_r.
Qed.

(** After a cut at the marker in position [i], neither that marker nor any
    marker listed before it is found after the start of what is kept. *)
Lemma strip_footer_loop_clears (ms : list str) (c : str) (i : nat) :
  cut_index ms c = Some i ->
  Forall (fun m => find (strip_footer_loop ms c) m <= 0) (take (S i) ms).
Proof.
  intros E. destruct (cut_index_Some _ _ _ E) as (m & Hm & Hpos & HF & Hl).
  rewrite (take_S_r _ _ _ Hm). apply Forall_app. split.
  - destruct (strip_footer_loop_prefix ms c) as [t Ht].
    eapply Forall_impl; [exact HF|]. intros m' Hm'. simpl in Hm'.
    by eapply find_prefix_nonpos.
  - constructor; [|constructor]. rewrite Hl.
    destruct (rstrip_prefix (slice_to c (find c m))) as [t Ht].
    rewrite (find_cut_none c _ t m Hpos Ht). lia.
Qed.

(** A second pass can only cut at a marker listed strictly later than the
    one the first pass cut at. *)
Lemma strip_footer_second_cut_later (ms : list str) (c : str) (i k : nat) :
  cut_index ms c = Some i ->
  cut_index ms (strip_footer_loop ms c) = Some k ->
  (i < k)%nat.
Proof.
  intros Ei Ek. pose proof (strip_footer_loop_clears _ _ _ Ei) as HF.
  destruct (cut_index_Some _ _ _ Ek) as (m & Hm & Hpos & _).
  destruct (decide (i < k)%nat) as [|Hge]; [done|]. exfalso.
  rewrite Forall_forall in HF.
  assert (m ∈ take (S i) ms) as Hin.
  { apply list_elem_of_lookup. exists k. rewrite lookup_take_lt by lia. done. }
  specialize (HF m Hin). simpl in HF. lia.
Qed.

Lemma strip_footer_loop_idem (ms : list str) (c : str) :
  match cut_index ms c with
  | Some i => Forall (fun m => find (strip_footer_loop ms c) m <= 0)
                     (drop (S i) ms)
  | None => True
  end ->
  strip_footer_loop ms (strip_footer_loop ms c) = strip_footer_loop ms c.
Proof.
  destruct (cut_index ms c) as [i|] eqn:E.
  - intros Hlater. apply strip_footer_loop_id.
    pose proof (strip_footer_loop_clears _ _ _ E) as Hclear.
    pose proof (proj2 (Forall_app _ _ _) (conj Hclear Hlater)) as Hall.
    by rewrite take_drop in Hall.
  - intros _. destruct (cut_index_None _ _ E) as [_ ->].
    by destruct (cut_index_None _ _ E) as [_ ->].
Qed.

(** C8 (as amended): footer truncation applied to its own output returns
    that output unchanged whenever no marker listed after the one the first
    pass cut at is found after the start of the retained prefix; the marker
    cut at and the markers listed before it never cause a second cut. *)
Theorem strip_footer_idempotent_without_later_marker (content : str) :
  match cut_index footer_markers content with
  | Some i => Forall (fun m => find (_strip_footer content) m <= 0)
                     (drop (S i) footer_markers)
  | None => True
  end ->
  _strip_footer (_strip_footer content) = _strip_footer content.
Proof. apply strip_footer_loop_idem. Qed.

Lemma strip_footer_idempotent_witness :
  _strip_footer (_strip_footer (u "Body text. Privacy Statement | Legal"))
  = _strip_footer (u "Body text. Privacy Statement | Legal").
Proof.
  apply (strip_footer_idempotent_without_later_marker
           (u "Body text. Privacy Statement | Legal")).
  vm_compute. repeat constructor; discriminate.
Defined.

(** C8 (as stated) fails: the pass cuts at the first marker of the list that
    is found, not at the earliest position, so a marker listed later can
    survive in the retained prefix and is cut by a second pass. *)
Lemma strip_footer_not_idempotent :
  _strip_footer (u "abc Privacy Statement xyz Was this information helpful?")
    = u "abc Privacy Statement xyz" /\
  _strip_footer
    (_strip_footer (u "abc Privacy Statement xyz Was this information helpful?"))
    = u "abc" /\
  _strip_footer
    (_strip_footer (u "abc Privacy Statement xyz Was this information helpful?"))
    <> _strip_footer
         (u "abc Privacy Statement xyz Was this information helpful?").
Proof. repeat split; vm_compute; congruence. Qed.



End FooterFacts.

(** ** The content cleaner *)

Module CleanerFacts.
Import Cleaner Footer.

Lemma run_lines_app (page_title : str) (st : loop_state) (l1 l2 : list str) :
  run_lines page_title st (l1 ++ l2)
  = run_lines page_title (run_lines page_title st l1) l2.
Proof. apply fold_left_app. Qed.

Lemma run_lines_cons (page_title : str) (st : loop_state) (l : str)
    (ls : list str) :
  run_lines page_title st (l :: ls)
  = run_lines page_title (loop_body page_title st l) ls.
Proof. reflexivity. Qed.

Lemma loop_body_fence (page_title : str) (st : loop_state) (line : str) :
  is_fence line = true ->
  loop_body page_title st line
  = {| in_code_block := negb (in_code_block st);
       found_content_start := found_content_start st;
       cleaned_lines := if found_content_start st
                        then cleaned_lines st ++ [line]
                        else cleaned_lines st |}.
Proof. intros H. unfold loop_body. by rewrite H. Qed.

Lemma loop_body_in_code (page_title : str) (st : loop_state) (line : str) :
  is_fence line = false -> in_code_block st = true ->
  loop_body page_title st line
  = {| in_code_block := true;
       found_content_start := found_content_start st;
       cleaned_lines := if found_content_start st
                        then cleaned_lines st ++ [line]
                        else cleaned_lines st |}.
Proof. intros H Hc. unfold loop_body. by rewrite H, Hc. Qed.

Lemma loop_body_quiet (page_title : str) (st : loop_state) (line : str) :
  quiet st -> quiet (loop_body page_title st line).
Proof.
  unfold quiet, loop_body. intros Hq.
  destruct (is_fence line); simpl.
  - intros Hf. rewrite Hf. auto.
  - destruct (in_code_block st); simpl.
    + intros Hf. rewrite Hf. auto.
    + destruct (found_content_start st) eqn:Hf; simpl.
      * destruct (should_skip line); simpl; intros ?; congruence.
      * destruct (is_title_line _ _); simpl; [discriminate|].
        destruct (is_content_heading _); simpl; [discriminate | auto].
Qed.

Lemma run_lines_quiet (page_title : str) (lines : list str) (st : loop_state) :
  quiet st -> quiet (run_lines page_title st lines).
Proof.
  revert st. induction lines as [|l lines IH]; intros st Hq; [done|].
  simpl. apply IH. by apply loop_body_quiet.
Qed.

Lemma state_before_content (page_title : str) (lines : list str) :
  found_content_start (run_lines page_title loop_init lines) = false ->
  in_code_block (run_lines page_title loop_init lines) = false ->
  run_lines page_title loop_init lines = loop_init.
Proof.
  intros Hf Hc.
  pose proof (run_lines_quiet page_title lines loop_init (fun _ => eq_refl)) as Hq.
  specialize (Hq Hf).
  destruct (run_lines page_title loop_init lines) as [c f o]. simpl in *.
  by subst.
Qed.

(** Lines inside a fence leave the state alone, except that they are kept
    once the content has started. *)
Lemma run_lines_inside_fence (page_title : str) (body : list str)
    (found : bool) (kept : list str) :
  Forall (fun l => is_fence l = false) body ->
  run_lines page_title
    {| in_code_block := true; found_content_start := found;
       cleaned_lines := kept |} body
  = {| in_code_block := true; found_content_start := found;
       cleaned_lines := if found then kept ++ body else kept |}.
Proof.
  intros HF. revert kept. induction HF as [|l body Hl _ IH]; intros kept.
  - simpl. destruct found; [by rewrite app_nil_r | done].
  - rewrite run_lines_cons, loop_body_in_code by done. simpl.
    destruct found; rewrite IH; [|done].
    by rewrite <- app_assoc.
Qed.

(** A whole fenced block, met outside a fence. *)
Lemma run_lines_fenced_block (page_title : str) (body : list str)
    (opening closing : str) (found : bool) (kept : list str) :
  is_fence opening = true -> is_fence closing = true ->
  Forall (fun l => is_fence l = false) body ->
  run_lines page_title
    {| in_code_block := false; found_content_start := found;
       cleaned_lines := kept |} (opening :: body ++ [closing])
  = {| in_code_block := false; found_content_start := found;
       cleaned_lines := if found then kept ++ opening :: body ++ [closing]
                        else kept |}.
Proof.
  intros Ho Hc HF. rewrite run_lines_cons, loop_body_fence by done. simpl.
  rewrite run_lines_app.
  destruct found; rewrite run_lines_inside_fence by done;
    rewrite run_lines_cons, loop_body_fence by done; simpl; [|done].
  by rewrite <- !app_assoc.
Qed.

(** The loop only ever appends to the lines it keeps. *)
Lemma loop_body_grows (page_title : str) (st : loop_state) (l : str) :
  exists one, cleaned_lines (loop_body page_title st l)
              = cleaned_lines st ++ one.
Proof.
  assert (cleaned_lines st = cleaned_lines st ++ []) as Hnil
    by (by rewrite app_nil_r).
  unfold loop_body.
  destruct (is_fence l); [destruct (found_content_start st); simpl; eauto|].
  destruct (in_code_block st);
    [destruct (found_content_start st); simpl; eauto|].
  destruct (found_content_start st); simpl.
  - destruct (should_skip l); simpl; eauto.
  - destruct (is_title_line _ _); simpl; [eauto|].
    destruct (is_content_heading _); simpl; eauto.
Qed.

Lemma run_lines_grows (page_title : str) (ls : list str) (st : loop_state) :
  exists more, cleaned_lines (run_lines page_title st ls)
               = cleaned_lines st ++ more.
Proof.
  revert st. induction ls as [|l ls IH]; intros st.
  - exists []. simpl. by rewrite app_nil_r.
  - rewrite run_lines_cons.
    destruct (IH (loop_body page_title st l)) as [more ->].
    destruct (loop_body_grows page_title st l) as [one ->].
    exists (one ++ more). by rewrite app_assoc.
Qed.

(** Once the content has started, the main pass keeps a fenced block as it
    is, whatever its lines look like. *)
Lemma main_pass_keeps_fenced_block (page_title : str)
    (before body after : list str) (opening closing : str) :
  found_content_start (run_lines page_title loop_init before) = true ->
  in_code_block (run_lines page_title loop_init before) = false ->
  is_fence opening = true -> is_fence closing = true ->
  Forall (fun l => is_fence l = false) body ->
  exists kept_before kept_after,
    main_pass page_title (before ++ (opening :: body ++ [closing]) ++ after)
    = kept_before ++ (opening :: body ++ [closing]) ++ kept_after.
Proof.
  intros Hf Hc Ho Hcl HF. unfold main_pass.
  rewrite !run_lines_app.
  destruct (run_lines page_title loop_init before) as [c f kept] eqn:E.
  simpl in Hf, Hc. subst c f.
  rewrite (run_lines_fenced_block page_title body opening closing true kept)
    by done.
  exists kept.
  destruct (run_lines_grows page_title after
              {| in_code_block := false; found_content_start := true;
                 cleaned_lines := kept ++ opening :: body ++ [closing] |})
    as [more ->].
  exists more. simpl. by rewrite <- app_assoc.
Qed.

(** C10: a fenced block that ends before any content-start line is dropped
    whole by the main pass, fence lines included, together with the other
    lines before the content; the lines inside it cannot start the content,
    whatever they are: after the block the loop is in its initial state. *)
Theorem fence_before_content_dropped (page_title : str)
    (before body after : list str) (opening closing : str) :
  found_content_start (run_lines page_title loop_init before) = false ->
  in_code_block (run_lines page_title loop_init before) = false ->
  is_fence opening = true -> is_fence closing = true ->
  Forall (fun l => is_fence l = false) body ->
  run_lines page_title loop_init (before ++ opening :: body ++ [closing])
  = loop_init /\
  main_pass page_title (before ++ (opening :: body ++ [closing]) ++ after)
  = main_pass page_title after.
Proof.
  intros Hf Hc Ho Hcl HF.
  assert (run_lines page_title loop_init (before ++ opening :: body ++ [closing])
          = loop_init) as Hblock.
  { rewrite run_lines_app, (state_before_content _ _ Hf Hc).
    apply (run_lines_fenced_block page_title body opening closing false []);
      done. }
  split; [done|].
  unfold main_pass. by rewrite app_assoc, run_lines_app, Hblock.
Qed.

Lemma fence_before_content_dropped_witness :
  run_lines (u "T") loop_init
    ([u "Help Home"] ++ u "```" :: [u "# T"; u "x = 1"] ++ [u "```"])
  = loop_init /\
  main_pass (u "T")
    ([u "Help Home"] ++ (u "```" :: [u "# T"; u "x = 1"] ++ [u "```"])
     ++ [u "# T"; u "Body"])
  = main_pass (u "T") [u "# T"; u "Body"].
Proof.
  apply (fence_before_content_dropped (u "T") [u "Help Home"]
           [u "# T"; u "x = 1"] [u "# T"; u "Body"] (u "```") (u "```")).
  - reflexivity.
  - reflexivity.
  - reflexivity.
  - reflexivity.
  - repeat constructor.
Defined.

(** C1: the code does not keep what the claim promises.  The fence
    tracking of the main pass does not extend to the two later passes:
    [_strip_footer] cuts at a footer marker inside a fence, and
    [_simple_clean] drops a fenced line that names a blocked keyword.
    Both inputs have their fence after the content-start line [# T]. *)
Theorem clean_content_alters_fenced_lines :
  clean_content
    (join [NL] [u "# T"; u "```"; u "Privacy Statement"; u "```"]) (u "T")
  = join [NL] [u "# T"; u "```"] /\
  clean_content
    (join [NL]
       [u "# T"; u "```"; u "Sign In"; u "```";
        u "Alias 2026 Help | Alias Programmers' Interfaces (API) | Class reference | AlSurface | Autodesk"])
    (u "T")
  = join [NL]
      [u "# T"; u "```"; u "```";
       u "Alias 2026 Help | Alias Programmers' Interfaces (API) | Class reference | AlSurface | Autodesk"].
Proof. split; vm_compute; reflexivity. Qed.

End CleanerFacts.

(** ** The browser-driven scraper *)

Module ScraperFacts.
Import Scraper.

(** *** Tree expansion *)

Section ExpansionFacts.
Context {dom button : Type}.
Variable query : dom -> list button.
Variable click : button -> dom -> dom * bool.
Variable pause : dom -> dom.

(** The loop makes at most [n] passes, and a pass that finds nothing
    collapsed is the last one. *)
Lemma expand_loop_passes (n : nat) (e : expansion) :
  exists new,
    passes (expand_loop click pause query n e) = passes e ++ new /\
    (length new <= n)%nat /\
    (forall i, new !! i = Some O -> S i = length new) /\
    ((length new < n)%nat -> last new = Some O).
Proof.
  revert e. induction n as [|n IH]; intros e; simpl.
  - exists []. rewrite app_nil_r. repeat split; simpl; try done; lia.
  - destruct (query (tree e)) as [|b bs] eqn:Eq; simpl.
    + exists [O]. repeat split; simpl; try done; try lia.
      intros [|i]; simpl; [done|]. by rewrite lookup_nil.
    + destruct (click_all click pause (b :: bs) (tree e) (total_expanded e))
        as [d total] eqn:Ec.
      simpl in Ec. rewrite Ec.
      destruct (IH {| tree := pause d; total_expanded := total;
                      passes := passes e ++ [S (length bs)] |})
        as (new & Hp & Hlen & Hzero & Hearly).
      exists (S (length bs) :: new). simpl in Hp. rewrite Hp.
      rewrite <- app_assoc. repeat split; simpl; try done; try lia.
      * intros [|i]; simpl; [done|]. intros Hi. f_equal. by apply Hzero.
      * intros Hlt. destruct new as [|x new]; [simpl in Hlt|].
        -- assert (0 < n)%nat as Hn by lia.
           specialize (Hearly Hn). done.
        -- rewrite last_cons_cons. apply Hearly. simpl in *. lia.
Qed.
End ExpansionFacts.

(** C7 (as amended): tree expansion terminates within a bounded number of
    passes, 20 by default when restricted to the API section and 30 by
    default in the whole-tree fallback, and in both a pass that finds no
    collapsed node is the last one. *)
Theorem expansion_bounded (dom button : Type)
    (collapsed_in_section collapsed_in_page : dom -> list button)
    (click : button -> dom -> dom * bool) (pause : dom -> dom) (d : dom) :
  (length (passes (_expand_all_api_subsections collapsed_in_section click
                     pause d default_max_depth)) <= 20)%nat /\
  (length (passes (_expand_all_sections collapsed_in_page click pause d
                     default_max_iterations)) <= 30)%nat /\
  (forall max_depth i,
      passes (_expand_all_api_subsections collapsed_in_section click pause d
                max_depth) !! i = Some O ->
      S i = length (passes (_expand_all_api_subsections collapsed_in_section
                              click pause d max_depth))) /\
  (forall max_iterations i,
      passes (_expand_all_sections collapsed_in_page click pause d
                max_iterations) !! i = Some O ->
      S i = length (passes (_expand_all_sections collapsed_in_page click
                              pause d max_iterations))).
Proof.
  unfold _expand_all_api_subsections, _expand_all_sections.
  repeat split.
  - destruct (expand_loop_passes collapsed_in_section click pause
                (Z.to_nat default_max_depth)
                {| tree := d; total_expanded := 0; passes := [] |})
      as (new & -> & Hlen & _). simpl. unfold default_max_depth in Hlen. lia.
  - destruct (expand_loop_passes collapsed_in_page click pause
                (Z.to_nat default_max_iterations)
                {| tree := d; total_expanded := 0; passes := [] |})
      as (new & -> & Hlen & _). simpl.
    unfold default_max_iterations in Hlen. lia.
  - intros max_depth i.
    destruct (expand_loop_passes collapsed_in_section click pause
                (Z.to_nat max_depth)
                {| tree := d; total_expanded := 0; passes := [] |})
      as (new & -> & _ & Hzero & _). simpl. apply Hzero.
  - intros max_iterations i.
    destruct (expand_loop_passes collapsed_in_page click pause
                (Z.to_nat max_iterations)
                {| tree := d; total_expanded := 0; passes := [] |})
      as (new & -> & _ & Hzero & _). simpl. apply Hzero.
Qed.

(** C7 (as stated) fails for the fallback: on a tree that always shows one
    more collapsed node, [_expand_all_sections] makes 30 passes by default,
    more than the 20 of the claim. *)
Lemma expand_all_sections_thirty_passes :
  length (passes (_expand_all_sections (fun _ : unit => [tt])
                    (fun _ d => (d, true)) (fun d => d) tt
                    default_max_iterations)) = 30%nat /\
  length (passes (_expand_all_api_subsections (fun _ : unit => [tt])
                    (fun _ d => (d, true)) (fun d => d) tt
                    default_max_depth)) = 20%nat.
Proof. split; vm_compute; reflexivity. Qed.


(** *** Link discovery *)

Lemma discover_link_spec (st : list link_info * gset str) (a : anchor) :
  discover_link st a
  = match candidate a with
    | Some g => if decide (g ∈ st.2) then st
                else (st.1 ++ [link_of a g], {[ g ]} ∪ st.2)
    | None => st
    end.
Proof.
  destruct a as [|href text]; simpl; [done|].
  destruct (strip text) eqn:Et; [done|].
  destruct (search_guid (default [] href)) as [g|]; [|done].
  by destruct (decide (g ∈ st.2)).
Qed.

Lemma discover_from_cons (st : list link_info * gset str) (a : anchor)
    (links : list anchor) :
  discover_from st (a :: links) = discover_from (discover_link st a) links.
Proof. reflexivity. Qed.

Lemma discover_from_app (st : list link_info * gset str)
    (l1 l2 : list anchor) :
  discover_from st (l1 ++ l2) = discover_from (discover_from st l1) l2.
Proof. apply fold_left_app. Qed.

(** The loop only appends to the list and only adds to the set. *)
Lemma discover_from_grows (links : list anchor)
    (st : list link_info * gset str) :
  (exists more, (discover_from st links).1 = st.1 ++ more) /\
  st.2 ⊆ (discover_from st links).2.
Proof.
  revert st. induction links as [|a links IH]; intros st.
  - split; [exists []; simpl; by rewrite app_nil_r | done].
  - rewrite discover_from_cons.
    destruct (IH (discover_link st a)) as [[more Hm] Hsub].
    rewrite Hm. revert Hsub. generalize (discover_from (discover_link st a) links).2.
    rewrite discover_link_spec.
    destruct (candidate a) as [g|]; [|intros; split; eauto].
    destruct (decide (g ∈ st.2)); [intros; split; eauto|]. simpl.
    intros s Hsub. split.
    + exists (link_of a g :: more). by rewrite <- app_assoc.
    + intros x Hx. apply Hsub. by apply elem_of_union_r.
Qed.

Lemma link_of_guid (a : anchor) (g : str) : l_guid (link_of a g) = g.
Proof. by destruct a. Qed.

Lemma discover_link_tracked (st : list link_info * gset str) (a : anchor) :
  tracked st -> tracked (discover_link st a).
Proof.
  intros [Hnd Hin]. rewrite discover_link_spec.
  destruct (candidate a) as [g|]; [|done].
  destruct (decide (g ∈ st.2)) as [|Hfresh]; [done|]. split; simpl.
  - rewrite fmap_app. simpl. rewrite link_of_guid.
    apply NoDup_app. split; [done|]. split; [|apply NoDup_singleton].
    intros x Hx Hx'. apply list_elem_of_singleton in Hx' as ->.
    apply list_elem_of_fmap in Hx as (p & -> & Hp).
    by apply Hfresh, Hin.
  - intros p Hp. apply elem_of_app in Hp as [Hp|Hp].
    + apply elem_of_union_r. by apply Hin.
    + apply list_elem_of_singleton in Hp as ->. rewrite link_of_guid.
      by apply elem_of_union_l, elem_of_singleton.
Qed.

Lemma discover_from_tracked (links : list anchor)
    (st : list link_info * gset str) :
  tracked st -> tracked (discover_from st links).
Proof.
  revert st. induction links as [|a links IH]; intros st Ht; [done|].
  rewrite discover_from_cons. apply IH. by apply discover_link_tracked.
Qed.

(** Where each discovered link comes from. *)
Lemma discover_from_origin (links : list anchor)
    (st : list link_info * gset str) (p : link_info) :
  p ∈ (discover_from st links).1 ->
  p ∈ st.1 \/
  exists a, a ∈ links /\ candidate a = Some (l_guid p) /\
            p = link_of a (l_guid p) /\ l_guid p ∉ st.2.
Proof.
  revert st. induction links as [|a links IH]; intros st; [by left|].
  rewrite discover_from_cons.
  intros Hp. destruct (IH _ Hp) as [Hold | (a' & Ha' & Hc & Heq & Hfresh)].
  - rewrite discover_link_spec in Hold.
    destruct (candidate a) as [g|] eqn:Ec; [|by left].
    destruct (decide (g ∈ st.2)) as [|Hfresh]; [by left|]. simpl in Hold.
    apply elem_of_app in Hold as [Hold|Hold]; [by left|].
    apply list_elem_of_singleton in Hold as ->. right. exists a.
    rewrite link_of_guid. repeat split; try done. apply list_elem_of_here.
  - right. exists a'. repeat split; try done.
    + by apply list_elem_of_further.
    + intros Hin. apply Hfresh.
      rewrite discover_link_spec.
      destruct (candidate a) as [g|]; [|done].
      destruct (decide (g ∈ st.2)); [done|]. simpl.
      by apply elem_of_union_r.
Qed.

(** The set after the loop: what it was, and the identifiers of the
    anchors that were not skipped. *)
Lemma discover_from_visited (links : list anchor)
    (st : list link_info * gset str) :
  (discover_from st links).2 = st.2 ∪ list_to_set (omap candidate links).
Proof.
  revert st. induction links as [|a links IH]; intros st.
  - simpl. by rewrite (right_id_L ∅ (∪)).
  - rewrite discover_from_cons, IH, discover_link_spec.
    change (omap candidate (a :: links))
      with (match candidate a with
            | Some g => g :: omap candidate links
            | None => omap candidate links
            end).
    destruct (candidate a) as [g|]; simpl; [|done].
    apply set_eq. intros x.
    destruct (decide (g ∈ st.2)); simpl;
      rewrite !elem_of_union, elem_of_singleton; [|tauto].
    split; [tauto|]. intros [?|[->|?]]; auto.
Qed.

(** C6: a discovery pass returns no two links with the same identifier;
    every link comes from an anchor with a title that is not blank; and the
    first anchor that carries an identifier not seen before is the one whose
    link is returned. *)
Theorem discovery_unique_first_wins (links : list anchor)
    (visited : gset str) :
  NoDup (l_guid <$> (_discover_api_pages links visited).1) /\
  (forall p, p ∈ (_discover_api_pages links visited).1 ->
     exists href inner_text,
       Anchor href inner_text ∈ links /\
       l_title p = strip inner_text /\ strip inner_text <> [] /\
       search_guid (default [] href) = Some (l_guid p) /\
       l_guid p ∉ visited) /\
  (forall before a after g,
     links = before ++ a :: after ->
     candidate a = Some g ->
     g ∉ visited ->
     g ∉ omap candidate before ->
     link_of a g ∈ (_discover_api_pages links visited).1).
Proof.
  unfold _discover_api_pages. fold (discover_from ([], visited) links).
  split; [|split].
  - apply (discover_from_tracked links ([], visited)).
    split; simpl; [apply NoDup_nil_2 | intros p Hp; by apply elem_of_nil in Hp].
  - intros p Hp.
    destruct (discover_from_origin _ _ _ Hp)
      as [Hnil | (a & Ha & Hc & Heq & Hfresh)];
      [by apply elem_of_nil in Hnil|].
    destruct a as [|href text]; [discriminate|]. simpl in Hc.
    assert (l_title p = strip text) as Ht by (by rewrite Heq).
    exists href, text.
    destruct (strip text) eqn:Et; [discriminate|]. by repeat split.
  - intros before a after g -> Hc Hv Hb.
    rewrite discover_from_app, discover_from_cons.
    pose proof (discover_from_visited before ([], visited)) as Hvis.
    simpl in Hvis.
    destruct (discover_from_grows after
                (discover_link (discover_from ([], visited) before) a))
      as [[more Hm] _].
    rewrite Hm, discover_link_spec, Hc.
    destruct (decide (g ∈ (discover_from ([], visited) before).2))
      as [Hin|_].
    + rewrite Hvis in Hin. apply elem_of_union in Hin as [Hin|Hin]; [done|].
      apply elem_of_list_to_set in Hin. done.
    + simpl. apply elem_of_app. left. apply elem_of_app. right.
      apply list_elem_of_here.
Qed.

(** *** Content extraction *)

Lemma sub_runs_keeps (c : N) (min keep run : nat) (s : str) (x : N) :
  x <> c -> x ∈ s -> x ∈ sub_runs c min keep run s.
Proof.
  intros Hx. revert run. induction s as [|y s IH]; intros run Hin.
  - by apply elem_of_nil in Hin.
  - simpl. destruct (y =? c)%N eqn:Ey.
    + apply N.eqb_eq in Ey as ->. apply elem_of_cons in Hin as [->|Hin];
        [done | by apply IH].
    + apply elem_of_app. right.
      apply elem_of_cons in Hin as [->|Hin];
        [apply list_elem_of_here | apply list_elem_of_further; by apply IH].
Qed.

Lemma lstrip_keeps (s : str) (x : N) :
  isspace x = false -> x ∈ s -> x ∈ lstrip s.
Proof.
  intros Hx. induction s as [|y s IH]; intros Hin; [done|]. simpl.
  destruct (isspace y) eqn:Ey; [|done].
  apply elem_of_cons in Hin as [->|Hin]; [congruence | by apply IH].
Qed.

Lemma rstrip_keeps (s : str) (x : N) :
  isspace x = false -> x ∈ s -> x ∈ rstrip s.
Proof.
  intros Hx. induction s as [|y s IH]; intros Hin; [done|]. simpl.
  apply elem_of_cons in Hin as [->|Hin].
  - destruct (rstrip s); [rewrite Hx|]; apply list_elem_of_here.
  - specialize (IH Hin). destruct (rstrip s) as [|z r];
      [by apply elem_of_nil in IH | by apply list_elem_of_further].
Qed.

(** Normalisation keeps every character that is not white space. *)
Lemma normalize_keeps (text : str) (x : N) :
  isspace x = false -> x ∈ text -> x ∈ normalize text.
Proof.
  intros Hx Hin. unfold normalize, strip.
  apply rstrip_keeps, lstrip_keeps; try done.
  apply sub_runs_keeps; [intros ->; discriminate|].
  apply sub_runs_keeps; [intros ->; discriminate | done].
Qed.

Lemma try_selectors_first (page : page_view) (sels : list str) (i : nat)
    (selector text : str) :
  sels !! i = Some selector ->
  query page selector = Text text ->
  100 < len text ->
  (forall j s, (j < i)%nat -> sels !! j = Some s -> ~ qualifies (query page s)) ->
  try_selectors page sels = Some (normalize text).
Proof.
  revert i. induction sels as [|s sels IH]; intros i Hi Hq Hlen Hbefore;
    [by rewrite lookup_nil in Hi|].
  destruct i as [|i]; simpl in Hi.
  - injection Hi as ->. simpl. rewrite Hq.
    assert (text <> []) as Hne by (intros ->; unfold len in Hlen; simpl in Hlen; lia).
    rewrite (bool_decide_eq_true_2 _ Hne).
    apply Z.ltb_lt in Hlen. by rewrite Hlen.
  - simpl.
    assert (try_selectors page sels = Some (normalize text)) as Hrest.
    { apply (IH i); try done. intros j s' Hj Hs'.
      apply (Hbefore (S j) s'); [lia | done]. }
    pose proof (Hbefore O s (Nat.lt_0_succ i) eq_refl) as Hs.
    destruct (query page s) as [| |t]; try done. simpl in Hs.
    destruct (bool_decide (t <> [])); simpl; [|done].
    destruct (100 <? len t) eqn:E; [apply Z.ltb_lt in E; done | done].
Qed.

(** C5 (as amended): the extractor tries [.body_content], [#body-content],
    [.caas_body], [article], [main] in this order and returns the
    normalised text of the first selector that is present with a text of
    more than 100 characters; in particular when the selectors before it
    are absent it returns that later selector's normalised text, which is
    not empty as soon as the text has a character that is not white
    space. *)
Theorem extract_content_first_qualifying (page : page_view) (i : nat)
    (selector text : str) :
  selectors !! i = Some selector ->
  query page selector = Text text ->
  100 < len text ->
  (forall j s, (j < i)%nat -> selectors !! j = Some s ->
               ~ qualifies (query page s)) ->
  _extract_content page = normalize text /\
  ((exists c, c ∈ text /\ isspace c = false) -> _extract_content page <> []).
Proof.
  intros Hi Hq Hlen Hbefore.
  assert (_extract_content page = normalize text) as Hres.
  { unfold _extract_content.
    by rewrite (try_selectors_first page selectors i selector text). }
  split; [done|]. intros (c & Hc & Hsp). rewrite Hres.
  pose proof (normalize_keeps text c Hsp Hc) as Hin.
  intros Hnil. rewrite Hnil in Hin. by apply elem_of_nil in Hin.
Qed.

Lemma extract_content_first_qualifying_witness :
  _extract_content
    {| query := fun s => if eqb s (u "article")
                         then Text (replicate 101 97%N) else Absent;
       evaluate := Absent |}
  = normalize (replicate 101 97%N) /\
  ((exists c, c ∈ replicate 101 97%N /\ isspace c = false) ->
   _extract_content
     {| query := fun s => if eqb s (u "article")
                          then Text (replicate 101 97%N) else Absent;
        evaluate := Absent |} <> []).
Proof.
  apply (extract_content_first_qualifying
           {| query := fun s => if eqb s (u "article")
                                then Text (replicate 101 97%N) else Absent;
              evaluate := Absent |} 3 (u "article") (replicate 101 97%N)).
  - reflexivity.
  - reflexivity.
  - reflexivity.
  - intros j s Hj Hs.
    destruct j as [|[|[|j]]]; [| | |lia]; simpl in Hs; injection Hs as <-;
      vm_compute; tauto.
Defined.

(** C5 (as stated) fails at the boundary: a text of exactly 100 characters
    in the first selector is passed over and the second selector's text is
    returned. *)
Lemma extract_content_skips_100_chars :
  selectors !! 0%nat = Some (u ".body_content") /\
  len (replicate 100 97%N) = 100 /\
  _extract_content
    {| query := fun s =>
                  if eqb s (u ".body_content") then Text (replicate 100 97%N)
                  else if eqb s (u "#body-content")
                       then Text (replicate 101 98%N)
                       else Absent;
       evaluate := Absent |}
  = replicate 101 98%N.
Proof. repeat split; vm_compute; reflexivity. Qed.

(** *** Scraping a page and saving *)





(** The two pages of the scenario: 49 characters are discarded, 51 are
    kept. *)
Lemma scrape_page_49_and_51 :
  len (_extract_content (Samples.letters_page 49)) = 49 /\
  scraped_pages (_scrape_page (u "t0")
                   {| render := fun _ => Some (Samples.letters_page 49);
                      nav_links := [] |}
                   (new_scraper ∅) Samples.link_A) = [] /\
  len (_extract_content (Samples.letters_page 51)) = 51 /\
  length (scraped_pages (_scrape_page (u "t0")
                   {| render := fun _ => Some (Samples.letters_page 51);
                      nav_links := [] |}
                   (new_scraper ∅) Samples.link_A)) = 1%nat.
Proof. repeat split; vm_compute; reflexivity. Qed.


(** *** The whole run *)

(** C2 (as stated) fails for the browser-driven orchestrator, which has no
    resume check: a second run over the store left by the first, against
    the same site, navigates to the page again. *)
Lemma run_twice_fetches_again :
  output_dir (run (u "t0") Samples.site_A false (new_scraper ∅))
    !! page_file_name Samples.guid_A
  = Some (PageFile {| sp_guid := Samples.guid_A;
                      sp_title := u "Introduction";
                      sp_url := BASE_URL ++ u "?guid=" ++ Samples.guid_A;
                      sp_content := replicate 60 97%N;
                      sp_scraped_at := u "t0" |}) /\
  navigated (run (u "t1") Samples.site_A false
               (new_scraper
                  (output_dir (run (u "t0") Samples.site_A false
                                 (new_scraper ∅)))))
  = [ BASE_URL ++ u "?guid=" ++ API_SECTION_GUID;
      BASE_URL ++ u "?guid=" ++ Samples.guid_A ].
Proof. split; vm_compute; reflexivity. Qed.

End ScraperFacts.

(** ** The batch orchestrator *)

Module TavilyFacts.
Import Tavily PyStrFacts.

(** *** File names *)

Lemma stem_page_file_name (g : str) : stem (page_file_name g) = g.
Proof.
  unfold stem, page_file_name. rewrite length_app.
  replace (length g + length (u ".json") - 5)%nat with (length g)
    by (simpl; lia).
  by rewrite take_app_length.
Qed.

Lemma startswith_app (s t p : str) :
  startswith s p = true -> startswith (s ++ t) p = true.
Proof.
  rewrite !startswith_spec. intros [r ->]. exists (r ++ t).
  by rewrite app_assoc.
Qed.

Lemma glob_page_file_name (g : str) :
  startswith g (u "GUID-") = true -> glob_guid_json (page_file_name g) = true.
Proof.
  intros Hg. unfold glob_guid_json, page_file_name.
  rewrite (startswith_app _ _ _ Hg). simpl. unfold endswith.
  apply startswith_spec. exists (reverse g). by rewrite reverse_app.
Qed.

Lemma glob_not_index : glob_guid_json index_file_name = false.
Proof. reflexivity. Qed.

Lemma elem_of_glob_files (dir : directory) (name : str) (f : file) :
  (name, f) ∈ glob_files dir <->
  dir !! name = Some f /\ glob_guid_json name = true.
Proof.
  unfold glob_files. rewrite list_elem_of_filter, elem_of_map_to_list. simpl.
  split; intros [H1 H2]; split; try done.
  - by apply Is_true_true_1.
  - by apply Is_true_true_2.
Qed.

Lemma elem_of_existing (dir : directory) (g : str) :
  g ∈ existing dir <->
  exists name f, dir !! name = Some f /\ glob_guid_json name = true /\
                 stem name = g.
Proof.
  unfold existing. rewrite elem_of_list_to_set, list_elem_of_fmap. split.
  - intros ([name f] & -> & Hin). apply elem_of_glob_files in Hin as [? ?].
    by exists name, f.
  - intros (name & f & Hl & Hg & <-). exists (name, f).
    split; [done|]. by apply elem_of_glob_files.
Qed.

(** *** Resuming *)

Lemma select_pages_subset (test_mode : bool) (test_count : Z)
    (pages : list page) (p : page) :
  p ∈ select_pages test_mode test_count pages -> p ∈ pages.
Proof.
  unfold select_pages. destruct test_mode; [|done].
  rewrite list_elem_of_filter. by intros [_ ?].
Qed.

Lemma pages_to_scrape_nil (dir : directory) (pages : list page) :
  (forall p, p ∈ pages -> guid p ∈ existing dir) ->
  pages_to_scrape dir pages = [].
Proof.
  intros Hall. unfold pages_to_scrape.
  induction pages as [|p pages IH]; [done|].
  rewrite filter_cons.
  destruct (decide (guid p ∉ existing dir)) as [Hn|_].
  - destruct Hn. apply Hall, list_elem_of_here.
  - apply IH. intros q Hq. by apply Hall, list_elem_of_further.
Qed.

(** C2 (as amended): for the extraction-API orchestrator, a run over a
    store that already holds the record of every page of the index makes
    no call to the extraction API and leaves every file of the store, the
    manifest included, as it was. *)
Theorem scrape_resume_no_fetch (w : world) (test_mode : bool)
    (test_count : Z) (index_pages : list page) (dir : directory) :
  (forall p, p ∈ index_pages ->
     startswith (guid p) (u "GUID-") = true /\
     is_Some (dir !! page_file_name (guid p))) ->
  r_api_calls (scrape w test_mode test_count index_pages dir) = [] /\
  r_files (scrape w test_mode test_count index_pages dir) = dir.
Proof.
  intros Hstore. unfold scrape. destruct (api_key w); [|done].
  rewrite pages_to_scrape_nil; [done|].
  intros p Hp%select_pages_subset.
  destruct (Hstore p Hp) as [Hg [f Hf]].
  apply elem_of_existing. exists (page_file_name (guid p)), f.
  split; [done|]. split; [by apply glob_page_file_name|].
  apply stem_page_file_name.
Qed.

(** *** The calls of a run *)

Import TavilyNotions.

Lemma record_page_stopped (w : world) (results : gmap str extracted)
    (st : progress) (p : page) (s : stop) :
  stopped st = Some s -> record_page w results st p = st.
Proof. intros Hs. unfold record_page. by rewrite Hs. Qed.

Lemma record_pages_stopped (w : world) (results : gmap str extracted)
    (batch : list page) (st : progress) (s : stop) :
  stopped st = Some s -> fold_left (record_page w results) batch st = st.
Proof.
  intros Hs. induction batch as [|p batch IH]; [done|].
  simpl. by rewrite (record_page_stopped _ _ _ _ _ Hs).
Qed.

Lemma scrape_batch_stopped (w : world) (st : progress) (batch : list page)
    (s : stop) :
  stopped st = Some s -> scrape_batch w st batch = st.
Proof. intros Hs. unfold scrape_batch. by rewrite Hs. Qed.

Lemma scrape_batches_stopped (w : world) (bs : list (list page))
    (st : progress) (s : stop) :
  stopped st = Some s -> fold_left (scrape_batch w) bs st = st.
Proof.
  intros Hs. induction bs as [|b bs IH]; [done|].
  simpl. by rewrite (scrape_batch_stopped _ _ _ _ Hs).
Qed.

Lemma record_page_calls (w : world) (results : gmap str extracted)
    (st : progress) (p : page) :
  api_calls (record_page w results st p) = api_calls st.
Proof.
  unfold record_page. destruct (stopped st); [done|].
  destruct (results !! url p); [|done]. cbv zeta.
  by destruct (save_page _ _).2.
Qed.

Lemma record_page_guids (w : world) (results : gmap str extracted)
    (st : progress) (p : page) :
  stopped (record_page w results st p) = None ->
  stopped st = None /\
  ie_guid <$> scraped_index (record_page w results st p)
  = (ie_guid <$> scraped_index st) ++ [guid p].
Proof.
  unfold record_page. destruct (stopped st) eqn:Est; [congruence|].
  destruct (results !! url p); cbv zeta.
  - destruct (save_page _ _).2; simpl; [discriminate|].
    intros _. by rewrite fmap_app.
  - simpl. intros _. by rewrite fmap_app.
Qed.

Lemma record_pages_fold (w : world) (results : gmap str extracted)
    (batch : list page) (st : progress) :
  api_calls (fold_left (record_page w results) batch st) = api_calls st /\
  (stopped (fold_left (record_page w results) batch st) = None ->
   stopped st = None /\
   ie_guid <$> scraped_index (fold_left (record_page w results) batch st)
   = (ie_guid <$> scraped_index st) ++ (guid <$> batch)).
Proof.
  revert st. induction batch as [|p batch IH]; intros st; simpl.
  - split; [done|]. intros Hs. by rewrite app_nil_r.
  - destruct (IH (record_page w results st p)) as [-> Hg].
    split; [apply record_page_calls|]. intros Hs.
    destruct (Hg Hs) as [Hs1 ->].
    destruct (record_page_guids _ _ _ _ Hs1) as [Hs0 ->].
    by rewrite <- app_assoc.
Qed.

Lemma scrape_batch_spec (w : world) (st : progress) (batch : list page) :
  stopped st = None ->
  api_calls (scrape_batch w st batch) = api_calls st ++ [url <$> batch] /\
  (stopped (scrape_batch w st batch) = None ->
   ie_guid <$> scraped_index (scrape_batch w st batch)
   = (ie_guid <$> scraped_index st) ++ (guid <$> batch)).
Proof.
  intros Hs. unfold scrape_batch. rewrite Hs. cbv zeta.
  destruct (record_pages_fold w
              (extract_batch w (length (api_calls st)) (url <$> batch)) batch
              {| files := files st; scraped_index := scraped_index st;
                 api_calls := api_calls st ++ [url <$> batch];
                 stopped := None |}) as [-> Hg].
  split; [done|]. intros Hs'. by destruct (Hg Hs') as [_ ->].
Qed.

(** The calls made are those of the first batches, one call per batch, and
    of all the batches when the loop runs to its end. *)
Lemma scrape_batches_fold (w : world) (bs : list (list page))
    (st : progress) :
  (exists k,
     api_calls (fold_left (scrape_batch w) bs st)
     = api_calls st ++ ((fun b : list page => url <$> b) <$> take k bs)) /\
  (stopped (fold_left (scrape_batch w) bs st) = None ->
   stopped st = None /\
   api_calls (fold_left (scrape_batch w) bs st)
   = api_calls st ++ ((fun b : list page => url <$> b) <$> bs) /\
   ie_guid <$> scraped_index (fold_left (scrape_batch w) bs st)
   = (ie_guid <$> scraped_index st) ++ (guid <$> concat bs)).
Proof.
  revert st. induction bs as [|b bs IH]; intros st.
  - simpl. split; [exists 0%nat; by rewrite app_nil_r|].
    intros Hs. by rewrite !app_nil_r.
  - change (fold_left (scrape_batch w) (b :: bs) st)
      with (fold_left (scrape_batch w) bs (scrape_batch w st b)).
    destruct (stopped st) as [s|] eqn:Hs.
    + rewrite (scrape_batch_stopped _ _ _ _ Hs),
        (scrape_batches_stopped _ _ _ _ Hs).
      split; [exists 0%nat; by rewrite app_nil_r | congruence].
    + destruct (scrape_batch_spec w st b Hs) as [Hc Hg].
      destruct (IH (scrape_batch w st b)) as [[k Hk] Hend]. split.
      * exists (S k). rewrite Hk, Hc, <- app_assoc. done.
      * intros Hs'. destruct (Hend Hs') as (Hs1 & -> & ->).
        rewrite Hc, (Hg Hs1), <- !app_assoc. split; [done|].
        by rewrite fmap_cons, concat_cons, fmap_app.
Qed.

Lemma concat_batches_fuel (fuel : nat) (l : list page) :
  (length l <= fuel)%nat -> concat (batches_fuel fuel l) = l.
Proof.
  revert l. induction fuel as [|fuel IH]; intros l Hlen.
  - destruct l; [done | simpl in Hlen; lia].
  - destruct l as [|p l]; [done|].
    change (batches_fuel (S fuel) (p :: l))
      with (take BATCH_SIZE (p :: l)
            :: batches_fuel fuel (drop BATCH_SIZE (p :: l))).
    rewrite concat_cons, IH, take_drop; [done|].
    rewrite length_drop. unfold BATCH_SIZE. simpl in *. lia.
Qed.

Lemma concat_batches (l : list page) : concat (batches l) = l.
Proof. by apply concat_batches_fuel. Qed.

(** *** The shape of a run *)

Lemma scrape_calls_cases (w : world) (test_mode : bool) (test_count : Z)
    (index_pages : list page) (dir : directory) :
  r_api_calls (scrape w test_mode test_count index_pages dir) = [] \/
  r_api_calls (scrape w test_mode test_count index_pages dir)
  = api_calls (batch_state w dir
                 (pages_to_scrape dir
                    (select_pages test_mode test_count index_pages))).
Proof.
  unfold scrape. destruct (api_key w); [|by left]. cbv zeta.
  fold (batch_state w dir
          (pages_to_scrape dir
             (select_pages test_mode test_count index_pages))).
  destruct (pages_to_scrape dir _) as [|p todo]; [by left|]. right.
  destruct (stopped _); [done|]. by destruct (fold_left add_previous _ _).
Qed.

(** A run leaves the store as it found it, or as the batch loop left it,
    with at most the index written over that. *)
Lemma scrape_files_cases (w : world) (test_mode : bool) (test_count : Z)
    (index_pages : list page) (dir : directory) :
  r_files (scrape w test_mode test_count index_pages dir) = dir \/
  r_files (scrape w test_mode test_count index_pages dir)
  = files (batch_state w dir
             (pages_to_scrape dir
                (select_pages test_mode test_count index_pages))) \/
  exists f,
    (f = Unreadable \/ exists ix, f = IndexFile ix) /\
    r_files (scrape w test_mode test_count index_pages dir)
    = <[index_file_name := f]>
        (files (batch_state w dir
                  (pages_to_scrape dir
                     (select_pages test_mode test_count index_pages)))).
Proof.
  unfold scrape. destruct (api_key w); [|by left]. cbv zeta.
  fold (batch_state w dir
          (pages_to_scrape dir
             (select_pages test_mode test_count index_pages))).
  destruct (pages_to_scrape dir _) as [|p todo]; [by left|]. right.
  destruct (stopped _); [by left|].
  destruct (fold_left add_previous _ _) as [idx|]; [|by left]. right.
  unfold save_index.
  destruct (encodable (now w) && forallb encodable_entry idx); simpl; eauto.
Qed.

(** The shape of a run that goes through the batches and writes the
    index. *)
Lemma scrape_completed (w : world) (test_mode : bool) (test_count : Z)
    (index_pages : list page) (dir : directory) :
  r_outcome (scrape w test_mode test_count index_pages dir) = Completed ->
  stopped (batch_state w dir
             (pages_to_scrape dir
                (select_pages test_mode test_count index_pages))) = None /\
  r_api_calls (scrape w test_mode test_count index_pages dir)
  = api_calls (batch_state w dir
                 (pages_to_scrape dir
                    (select_pages test_mode test_count index_pages))) /\
  exists idx,
    fold_left add_previous
      (glob_files
         (files (batch_state w dir
                   (pages_to_scrape dir
                      (select_pages test_mode test_count index_pages)))))
      (Some (scraped_index
               (batch_state w dir
                  (pages_to_scrape dir
                     (select_pages test_mode test_count index_pages)))))
    = Some idx /\
    r_files (scrape w test_mode test_count index_pages dir)
    = <[index_file_name :=
          IndexFile {| ix_source := u "tavily_extract_advanced";
                       ix_total_pages := len_list index_pages;
                       ix_pages_scraped := len_list idx;
                       ix_scraped_at := now w;
                       ix_pages := idx |}]>
        (files (batch_state w dir
                  (pages_to_scrape dir
                     (select_pages test_mode test_count index_pages)))).
Proof.
  unfold scrape. destruct (api_key w); [|discriminate]. cbv zeta.
  fold (batch_state w dir
          (pages_to_scrape dir
             (select_pages test_mode test_count index_pages))).
  destruct (pages_to_scrape dir _) as [|p todo]; [discriminate|].
  destruct (stopped _); [discriminate|].
  destruct (fold_left add_previous _ _) as [idx|]; [|discriminate].
  unfold save_index.
  destruct (encodable (now w) && forallb encodable_entry idx); simpl;
    [|discriminate].
  intros _. split; [done|]. split; [done|]. by exists idx.
Qed.

(** X10: Only pages whose identifier is not yet in the store are sent to the
    extraction API. *)
Lemma scrape_calls_only_missing (w : world) (test_mode : bool)
    (test_count : Z) (index_pages : list page) (dir : directory)
    (urls : list str) (x : str) :
  urls ∈ r_api_calls (scrape w test_mode test_count index_pages dir) ->
  x ∈ urls ->
  exists p, p ∈ index_pages /\ url p = x /\ guid p ∉ existing dir.
Proof.
  destruct (scrape_calls_cases w test_mode test_count index_pages dir)
    as [->| ->]; [by intros ?%elem_of_nil|].
  unfold batch_state.
  destruct (scrape_batches_fold w
              (batches (pages_to_scrape dir
                          (select_pages test_mode test_count index_pages)))
              {| files := dir; scraped_index := []; api_calls := [];
                 stopped := None |})
    as [[k ->] _].
  simpl. intros Hurls Hx.
  apply list_elem_of_fmap in Hurls as (b & -> & Hb).
  apply elem_of_take in Hb as (i & Hb & _).
  apply list_elem_of_lookup_2 in Hb.
  apply list_elem_of_fmap in Hx as (p & -> & Hp).
  assert (p ∈ pages_to_scrape dir
                (select_pages test_mode test_count index_pages)) as Hin.
  { rewrite <- (concat_batches (pages_to_scrape dir _)).
    apply list_elem_of_In, in_concat. exists b.
    by rewrite <- !list_elem_of_In. }
  unfold pages_to_scrape in Hin.
  apply list_elem_of_filter in Hin as [Hn Hsel].
  exists p. split; [by eapply select_pages_subset|]. done.
Qed.

(** *** Rebuilding the index *)

Lemma existsb_guid (idx : list index_entry) (g : str) :
  existsb (fun p => eqb (ie_guid p) g) idx = true <-> g ∈ ie_guid <$> idx.
Proof.
  rewrite existsb_exists, list_elem_of_fmap. unfold eqb. split.
  - intros (p & Hp%list_elem_of_In & Heq%bool_decide_eq_true). eauto.
  - intros (p & -> & Hp). exists p. split; [by apply list_elem_of_In|].
    by apply bool_decide_eq_true.
Qed.

Lemma add_previous_raised (l : list (str * file)) :
  fold_left add_previous l None = None.
Proof. by induction l. Qed.

(** One file of the store: its identifier joins the index when the loop
    opens the file, which it does unless the identifier is in the index
    already, and reads it. *)
Lemma add_previous_step (idx idx' : list index_entry) (nf : str * file) :
  add_previous (Some idx) nf = Some idx' ->
  (stem nf.1 ∈ ie_guid <$> idx /\ idx' = idx) \/
  ((stem nf.1 ∉ ie_guid <$> idx) /\ nf.2 = Unreadable /\ idx' = idx) \/
  ((stem nf.1 ∉ ie_guid <$> idx) /\ readable nf.2 /\
   exists e, idx' = idx ++ [e] /\ ie_guid e = stem nf.1 /\
             ie_error e = None).
Proof.
  unfold add_previous.
  destruct (existsb (fun p => eqb (ie_guid p) (stem nf.1)) idx) eqn:E.
  - apply existsb_guid in E. intros [= <-]. by left.
  - assert (stem nf.1 ∉ ie_guid <$> idx) as Hfresh.
    { intros Hin. apply existsb_guid in Hin. congruence. }
    destruct nf.2 as [d|ix| |]; intros [= <-]; right.
    + right. split; [done|]. split; [by split|]. by eexists.
    + right. split; [done|]. split; [by split|]. by eexists.
    + by left.
Qed.

Lemma filter_ext_elem {A : Type} (P Q : A -> Prop)
    `{!forall x, Decision (P x)} `{!forall x, Decision (Q x)} (l : list A) :
  (forall x, x ∈ l -> P x <-> Q x) -> filter P l = filter Q l.
Proof.
  induction l as [|x l IH]; intros Hext; [done|].
  rewrite !filter_cons.
  rewrite IH by (intros y Hy; apply Hext; by apply list_elem_of_further).
  pose proof (Hext x (list_elem_of_here _ _)) as Hx.
  destruct (decide (P x)), (decide (Q x)); tauto.
Qed.

(** The whole loop over files of distinct identifiers: the entries it
    adds are, in the order of the files, those of the readable files whose
    identifier the index did not hold; and every file it opens can be
    read or is rejected by [json.load]. *)
Lemma add_previous_fold (l : list (str * file))
    (idx idx' : list index_entry) :
  NoDup ((fun nf => stem nf.1) <$> l) ->
  fold_left add_previous l (Some idx) = Some idx' ->
  (exists more,
     idx' = idx ++ more /\
     Forall (fun e => ie_error e = None) more /\
     ie_guid <$> more
     = (fun nf => stem nf.1)
       <$> filter (fun nf => (stem nf.1 ∉ ie_guid <$> idx) /\ readable nf.2)
                  l) /\
  (forall nf, nf ∈ l -> stem nf.1 ∉ ie_guid <$> idx -> nf.2 <> Uncaught).
Proof.
  revert idx. induction l as [|nf l IH]; intros idx Hnd Hfold.
  - simpl in Hfold. injection Hfold as <-. split.
    + exists []. rewrite app_nil_r. split; [done|]. split; [constructor|done].
    + by intros nf ?%elem_of_nil.
  - rewrite fmap_cons in Hnd. apply NoDup_cons in Hnd as [Hnf Hnd].
    change (fold_left add_previous (nf :: l) (Some idx))
      with (fold_left add_previous l (add_previous (Some idx) nf)) in Hfold.
    destruct (add_previous (Some idx) nf) as [idx1|] eqn:E1;
      [|by rewrite add_previous_raised in Hfold].
    destruct (IH idx1 Hnd Hfold) as [(more & -> & Herr & Hmore) Hopen].
    assert (forall x, x ∈ l -> stem x.1 <> stem nf.1) as Hother.
    { intros x Hx Heq. apply Hnf. rewrite <- Heq.
      apply list_elem_of_fmap. eauto. }
    rewrite filter_cons.
    destruct (add_previous_step _ _ _ E1)
      as [[Hin ->]|[(Hfresh & Hun & ->)|(Hfresh & Hr & e & -> & Hg & He)]].
    + rewrite decide_False by tauto. split.
      * exists more. done.
      * intros x [->|Hx]%elem_of_cons; [done|]. by apply Hopen.
    + rewrite decide_False by (intros [_ [Hr _]]; done). split.
      * exists more. done.
      * intros x [->|Hx]%elem_of_cons; [by rewrite Hun|]. by apply Hopen.
    + rewrite decide_True by done. split.
      * exists (e :: more). rewrite <- app_assoc. split; [done|].
        split; [by constructor|]. rewrite !fmap_cons, Hg, Hmore.
        f_equal. f_equal. apply filter_ext_elem. intros x Hx.
        rewrite fmap_app, elem_of_app. simpl.
        rewrite list_elem_of_singleton, Hg.
        specialize (Hother x Hx). tauto.
      * intros x [->|Hx]%elem_of_cons Hxf; [by destruct Hr|].
        apply Hopen; [done|]. rewrite fmap_app, elem_of_app. simpl.
        rewrite list_elem_of_singleton, Hg.
        specialize (Hother x Hx). tauto.
Qed.

Lemma page_file_name_of_stem (name : str) :
  glob_guid_json name = true -> page_file_name (stem name) = name.
Proof.
  unfold glob_guid_json. rewrite andb_true_iff. intros [_ He].
  unfold endswith in He. apply startswith_spec in He as [t Ht].
  apply (f_equal reverse) in Ht. rewrite reverse_involutive in Ht.
  rewrite reverse_app, reverse_involutive in Ht. subst name.
  fold (page_file_name (reverse t)). by rewrite stem_page_file_name.
Qed.

(** Two files of the glob have different identifiers. *)
Lemma glob_files_stems (dir : directory) :
  NoDup ((fun nf => stem nf.1) <$> glob_files dir).
Proof.
  assert (NoDup (glob_files dir).*1) as Hnames.
  { unfold glob_files.
    eapply sublist_NoDup; [apply (NoDup_fst_map_to_list dir)|].
    apply fmap_sublist, sublist_filter. }
  assert ((fun nf : str * file => stem nf.1) <$> glob_files dir
          = stem <$> (glob_files dir).*1) as ->
    by (by rewrite <- list_fmap_compose).
  apply NoDup_fmap_2_strong; [|done].
  intros n1 n2 Hn1 Hn2 Heq.
  apply list_elem_of_fmap in Hn1 as ([? f1] & -> & H1).
  apply list_elem_of_fmap in Hn2 as ([? f2] & -> & H2).
  apply elem_of_glob_files in H1 as [_ Hg1].
  apply elem_of_glob_files in H2 as [_ Hg2]. simpl in *.
  rewrite <- (page_file_name_of_stem _ Hg1), <- (page_file_name_of_stem _ Hg2).
  by rewrite Heq.
Qed.

(** Writing the index does not change what the glob yields, up to the
    order of the listing. *)
Lemma glob_files_index (dir : directory) (f : file) :
  glob_files (<[index_file_name := f]> dir) ≡ₚ glob_files dir.
Proof.
  apply NoDup_Permutation.
  - apply NoDup_filter, NoDup_map_to_list.
  - apply NoDup_filter, NoDup_map_to_list.
  - intros [name g]. rewrite !elem_of_glob_files.
    split; intros [Hl Hg]; (split; [|done]).
    + rewrite lookup_insert_ne in Hl; [done|].
      intros <-. by rewrite glob_not_index in Hg.
    + rewrite lookup_insert_ne; [done|].
      intros <-. by rewrite glob_not_index in Hg.
Qed.

(** C3 (as amended): when a run of the extraction-API orchestrator goes
    through its batches and writes the index, the new [index.json] lists,
    in order, one entry for each page attempted in this run (failed
    extractions included, which have no record on disk), followed by one
    entry for each readable file [GUID-*.json] of the store whose
    identifier was not attempted in this run, in the order in which the
    directory lists these files, and nothing else; so an identifier is in
    the index exactly when it was attempted in this run or names a
    readable page record of the store. *)
Theorem scrape_rebuilds_index (w : world) (test_mode : bool)
    (test_count : Z) (index_pages : list page) (dir : directory) :
  r_outcome (scrape w test_mode test_count index_pages dir) = Completed ->
  exists ix listing,
    r_files (scrape w test_mode test_count index_pages dir)
      !! index_file_name = Some (IndexFile ix) /\
    listing
    ≡ₚ glob_files (r_files (scrape w test_mode test_count index_pages dir)) /\
    ie_guid <$> ix_pages ix
    = (guid <$> pages_to_scrape dir
                  (select_pages test_mode test_count index_pages))
      ++ ((fun nf => stem nf.1)
          <$> filter (fun nf =>
                        (stem nf.1
                         ∉ guid <$> pages_to_scrape dir
                                      (select_pages test_mode test_count
                                         index_pages))
                        /\ readable nf.2)
                     listing) /\
    forall g,
      g ∈ ie_guid <$> ix_pages ix <->
      g ∈ guid <$> pages_to_scrape dir
                     (select_pages test_mode test_count index_pages) \/
      exists name f,
        r_files (scrape w test_mode test_count index_pages dir) !! name
        = Some f /\
        glob_guid_json name = true /\ stem name = g /\ f <> Unreadable.
Proof.
  intros Hc.
  destruct (scrape_completed _ _ _ _ _ Hc) as (Hs & _ & idx & Hidx & ->).
  set (todo := pages_to_scrape dir
                 (select_pages test_mode test_count index_pages)) in *.
  set (st := batch_state w dir todo) in *.
  assert (ie_guid <$> scraped_index st = guid <$> todo) as Hrun.
  { destruct (scrape_batches_fold w (batches todo)
                {| files := dir; scraped_index := []; api_calls := [];
                   stopped := None |}) as [_ Hend].
    destruct (Hend Hs) as (_ & _ & Hg). fold (batch_state w dir todo) in Hg.
    fold st in Hg. rewrite Hg. simpl. by rewrite concat_batches. }
  destruct (add_previous_fold _ _ _ (glob_files_stems (files st)) Hidx)
    as [(more & -> & _ & Hmore) Hopen].
  rewrite Hrun in Hmore, Hopen.
  eexists _, (glob_files (files st)).
  split; [apply lookup_insert_eq|]. split; [by rewrite glob_files_index|].
  simpl. split; [by rewrite fmap_app, Hrun, Hmore|].
  intros g. rewrite fmap_app, elem_of_app, Hrun, Hmore.
  split; (intros [?|Hfile]; [by left|]).
  - right. apply list_elem_of_fmap in Hfile as ([name f] & -> & Hin).
    apply list_elem_of_filter in Hin as [[_ [Hr _]] Hin].
    apply elem_of_glob_files in Hin as [Hl Hg]. simpl in *.
    exists name, f. rewrite lookup_insert_ne; [done|].
    intros <-. by rewrite glob_not_index in Hg.
  - destruct Hfile as (name & f & Hl & Hg & <- & Hf).
    rewrite lookup_insert_ne in Hl
      by (intros <-; by rewrite glob_not_index in Hg).
    assert ((name, f) ∈ glob_files (files st)) as Hin
      by by apply elem_of_glob_files.
    destruct (decide (stem name ∈ guid <$> todo)) as [Hatt|Hnew];
      [by left|]. right.
    apply list_elem_of_fmap. exists (name, f). split; [done|].
    apply list_elem_of_filter. split; [|done]. simpl.
    split; [done|]. split; [done|].
    by apply (Hopen (name, f) Hin).
Qed.

Lemma scrape_rebuilds_index_witness :
  exists ix listing,
    r_files (scrape Samples.world_answering false 3
               [Samples.tavily_page Samples.guid_A;
                Samples.tavily_page Samples.guid_B] Samples.store_A)
      !! index_file_name = Some (IndexFile ix) /\
    listing
    ≡ₚ glob_files
         (r_files (scrape Samples.world_answering false 3
                     [Samples.tavily_page Samples.guid_A;
                      Samples.tavily_page Samples.guid_B] Samples.store_A)) /\
    ie_guid <$> ix_pages ix
    = (guid <$> pages_to_scrape Samples.store_A
                  (select_pages false 3
                     [Samples.tavily_page Samples.guid_A;
                      Samples.tavily_page Samples.guid_B]))
      ++ ((fun nf => stem nf.1)
          <$> filter (fun nf =>
                        (stem nf.1
                         ∉ guid <$> pages_to_scrape Samples.store_A
                                      (select_pages false 3
                                         [Samples.tavily_page Samples.guid_A;
                                          Samples.tavily_page Samples.guid_B]))
                        /\ readable nf.2)
                     listing) /\
    forall g,
      g ∈ ie_guid <$> ix_pages ix <->
      g ∈ guid <$> pages_to_scrape Samples.store_A
                     (select_pages false 3
                        [Samples.tavily_page Samples.guid_A;
                         Samples.tavily_page Samples.guid_B]) \/
      exists name f,
        r_files (scrape Samples.world_answering false 3
                   [Samples.tavily_page Samples.guid_A;
                    Samples.tavily_page Samples.guid_B] Samples.store_A)
          !! name = Some f /\
        glob_guid_json name = true /\ stem name = g /\ f <> Unreadable.
Proof.
  apply (scrape_rebuilds_index Samples.world_answering false 3
           [Samples.tavily_page Samples.guid_A;
            Samples.tavily_page Samples.guid_B] Samples.store_A).
  vm_compute. reflexivity.
Defined.

(** The index of the run of the witness: the page scraped in this run,
    then the page stored before. *)
Lemma scrape_index_new_then_stored :
  exists ix,
    r_files (scrape Samples.world_answering false 3
               [Samples.tavily_page Samples.guid_A;
                Samples.tavily_page Samples.guid_B] Samples.store_A)
      !! index_file_name = Some (IndexFile ix) /\
    ie_guid <$> ix_pages ix = [Samples.guid_B; Samples.guid_A].
Proof. eexists. split; vm_compute; reflexivity. Qed.

Lemma scrape_resume_no_fetch_witness :
  r_api_calls (scrape Samples.world_answering false 3
                 [Samples.tavily_page Samples.guid_A] Samples.store_A) = [] /\
  r_files (scrape Samples.world_answering false 3
             [Samples.tavily_page Samples.guid_A] Samples.store_A)
  = Samples.store_A.
Proof.
  apply (scrape_resume_no_fetch Samples.world_answering false 3
           [Samples.tavily_page Samples.guid_A] Samples.store_A).
  intros p Hp. apply list_elem_of_singleton in Hp as ->.
  split; [reflexivity|]. vm_compute. eauto.
Defined.

(** The run of the witness above: the page already stored is not asked
    for, the new one is, and the index lists both. *)
Lemma scrape_second_page_only :
  r_api_calls (scrape Samples.world_answering false 3
                 [Samples.tavily_page Samples.guid_A;
                  Samples.tavily_page Samples.guid_B] Samples.store_A)
  = [[Scraper.BASE_URL ++ u "?guid=" ++ Samples.guid_B]].
Proof. vm_compute. reflexivity. Qed.

(** C3 (as stated) fails in two ways.  The browser-driven scraper writes
    an index of this run's pages only: after a run that finds page B, the
    record of page A from an earlier run is on disk but not in the index.
    The extraction-API orchestrator lists a failed page in the index
    although no record of it is on disk. *)
Lemma index_differs_from_disk :
  (Scraper.output_dir
     (Scraper.run (u "t1") Samples.site_B false
        (Scraper.new_scraper
           (Scraper.output_dir
              (Scraper.run (u "t0") Samples.site_A false
                 (Scraper.new_scraper ∅)))))
     !! Scraper.page_file_name Samples.guid_A
   = Some (Scraper.PageFile
             {| Scraper.sp_guid := Samples.guid_A;
                Scraper.sp_title := u "Introduction";
                Scraper.sp_url := Scraper.BASE_URL ++ u "?guid=" ++ Samples.guid_A;
                Scraper.sp_content := replicate 60 97%N;
                Scraper.sp_scraped_at := u "t0" |}) /\
   Scraper.output_dir
     (Scraper.run (u "t1") Samples.site_B false
        (Scraper.new_scraper
           (Scraper.output_dir
              (Scraper.run (u "t0") Samples.site_A false
                 (Scraper.new_scraper ∅)))))
     !! Scraper.index_file_name
   = Some (Scraper.IndexFile
             {| Scraper.ix_total_pages := 1;
                Scraper.ix_scraped_at := u "t1";
                Scraper.ix_pages :=
                  [(Samples.guid_B, u "Class reference",
                    Scraper.BASE_URL ++ u "?guid=" ++ Samples.guid_B)] |})) /\
  (r_files (scrape Samples.world_failing false 3
              [Samples.tavily_page Samples.guid_A] ∅)
     !! page_file_name Samples.guid_A = None /\
   r_files (scrape Samples.world_failing false 3
              [Samples.tavily_page Samples.guid_A] ∅)
     !! index_file_name
   = Some (IndexFile
             {| ix_source := u "tavily_extract_advanced";
                ix_total_pages := 1;
                ix_pages_scraped := 1;
                ix_scraped_at := u "2026-01-01T00:00:00+00:00";
                ix_pages :=
                  [ {| ie_guid := Samples.guid_A; ie_title := u "Doc";
                       ie_url := Scraper.BASE_URL ++ u "?guid=" ++ Samples.guid_A;
                       ie_has_code_blocks := false;
                       ie_content_length := 0;
                       ie_error := Some (u "extraction_failed") |} ] |})).
Proof. repeat split; vm_compute; reflexivity. Qed.

End TavilyFacts.

(** ** More on the batch orchestrator *)

Module TavilyRun.
Import Tavily PyStrFacts TavilyFacts TavilyNotions.

(** *** Batching *)

(** The batches are the slices of five pages, in order. *)
Lemma batches_fuel_calls (fuel : nat) (l : list page) :
  (length l <= fuel)%nat ->
  (fun b : list page => url <$> b) <$> batches_fuel fuel l
  = calls_of (url <$> l).
Proof.
  unfold calls_of. revert l.
  induction fuel as [|fuel IH]; intros l Hlen.
  - destruct l; [done | simpl in Hlen; lia].
  - destruct l as [|p l]; [done|].
    change (batches_fuel (S fuel) (p :: l))
      with (take BATCH_SIZE (p :: l)
            :: batches_fuel fuel (drop BATCH_SIZE (p :: l))).
    assert (length (drop BATCH_SIZE (p :: l)) <= fuel)%nat as Hd
      by (rewrite length_drop; unfold BATCH_SIZE; simpl in *; lia).
    rewrite fmap_cons, (IH _ Hd), fmap_take, !fmap_drop.
    set (urls := url <$> p :: l).
    assert (length urls = length (p :: l)) as Hn
      by (unfold urls; by rewrite length_fmap).
    rewrite length_drop. unfold BATCH_SIZE.
    assert (((length urls + 4) / 5 = S ((length urls - 5 + 4) / 5)))%nat
      as ->.
    { assert (1 <= length urls)%nat by (rewrite Hn; simpl; lia).
      pose proof (Nat.div_mod_eq (length urls + 4) 5) as H1.
      pose proof (Nat.mod_upper_bound (length urls + 4) 5) as H2.
      pose proof (Nat.div_mod_eq (length urls - 5 + 4) 5) as H3.
      pose proof (Nat.mod_upper_bound (length urls - 5 + 4) 5) as H4.
      lia. }
    change (seq 0 (S ?n)) with (0%nat :: seq 1 n).
    rewrite fmap_cons, <- fmap_S_seq, <- list_fmap_compose.
    f_equal. apply list_fmap_ext. intros _ i _. simpl.
    rewrite drop_drop. f_equal. f_equal. lia.
Qed.

Lemma batches_calls (l : list page) :
  (fun b : list page => url <$> b) <$> batches l = calls_of (url <$> l).
Proof. by apply batches_fuel_calls. Qed.

(** X11: The extraction API is called once per batch, with the URLs of the
    pages to scrape in order, five per call, the last call with what
    remains: the calls of a run are the first of these calls, and all of
    them when the run goes through its batches and writes the index. *)
Theorem scrape_calls_in_batches (w : world) (test_mode : bool)
    (test_count : Z) (index_pages : list page) (dir : directory) :
  r_api_calls (scrape w test_mode test_count index_pages dir)
  `prefix_of`
    calls_of (url <$> pages_to_scrape dir
                        (select_pages test_mode test_count index_pages)) /\
  (r_outcome (scrape w test_mode test_count index_pages dir) = Completed ->
   r_api_calls (scrape w test_mode test_count index_pages dir)
   = calls_of (url <$> pages_to_scrape dir
                         (select_pages test_mode test_count index_pages))).
Proof.
  set (todo := pages_to_scrape dir
                 (select_pages test_mode test_count index_pages)).
  destruct (scrape_batches_fold w (batches todo)
              {| files := dir; scraped_index := []; api_calls := [];
                 stopped := None |}) as [[k Hk] Hend].
  fold (batch_state w dir todo) in Hk, Hend. simpl in Hk, Hend.
  rewrite batches_calls in Hend. split.
  - destruct (scrape_calls_cases w test_mode test_count index_pages dir)
      as [->| ->]; [apply prefix_nil|].
    fold todo. rewrite Hk, fmap_take, batches_calls. apply prefix_take.
  - intros Hc.
    destruct (scrape_completed _ _ _ _ _ Hc) as (Hs & -> & _).
    fold todo in Hs |- *. by destruct (Hend Hs) as (_ & -> & _).
Qed.

(** Seven pages go out in two calls, of five and of two URLs. *)
Lemma scrape_seven_pages_two_calls :
  r_outcome (scrape Samples.world_answering false 3 Samples.seven_pages ∅)
  = Completed /\
  r_api_calls (scrape Samples.world_answering false 3 Samples.seven_pages ∅)
  = [ url <$> take 5 Samples.seven_pages;
      url <$> drop 5 Samples.seven_pages ].
Proof. split; vm_compute; reflexivity. Qed.

(** *** What a run does to the store *)

(** A run ends without a key or with nothing to do, leaving the store as
    it was, or it enters the batch loop; then it is stopped in the loop, or
    raises reading the store or writing the index, or it writes the
    index. *)
Lemma scrape_cases (w : world) (test_mode : bool) (test_count : Z)
    (index_pages : list page) (dir : directory) :
  (r_outcome (scrape w test_mode test_count index_pages dir) <> Completed /\
   (forall s, r_outcome (scrape w test_mode test_count index_pages dir)
              <> Stopped s) /\
   r_api_calls (scrape w test_mode test_count index_pages dir) = [] /\
   r_files (scrape w test_mode test_count index_pages dir) = dir /\
   (is_Some (api_key w) ->
    pages_to_scrape dir (select_pages test_mode test_count index_pages)
    = [])) \/
  (r_api_calls (scrape w test_mode test_count index_pages dir)
   = api_calls (batch_state w dir
                  (pages_to_scrape dir
                     (select_pages test_mode test_count index_pages))) /\
   ((exists s,
       stopped (batch_state w dir
                  (pages_to_scrape dir
                     (select_pages test_mode test_count index_pages)))
       = Some s /\
       r_outcome (scrape w test_mode test_count index_pages dir)
       = Stopped s /\
       r_files (scrape w test_mode test_count index_pages dir)
       = files (batch_state w dir
                  (pages_to_scrape dir
                     (select_pages test_mode test_count index_pages)))) \/
    (stopped (batch_state w dir
                (pages_to_scrape dir
                   (select_pages test_mode test_count index_pages)))
     = None /\
     ((r_outcome (scrape w test_mode test_count index_pages dir)
       = Stopped Raises /\
       (r_files (scrape w test_mode test_count index_pages dir)
        = files (batch_state w dir
                   (pages_to_scrape dir
                      (select_pages test_mode test_count index_pages))) \/
        r_files (scrape w test_mode test_count index_pages dir)
        = <[index_file_name := Unreadable]>
            (files (batch_state w dir
                      (pages_to_scrape dir
                         (select_pages test_mode test_count
                            index_pages)))))) \/
      (r_outcome (scrape w test_mode test_count index_pages dir)
       = Completed /\
       exists ix,
         r_files (scrape w test_mode test_count index_pages dir)
         = <[index_file_name := IndexFile ix]>
             (files (batch_state w dir
                       (pages_to_scrape dir
                          (select_pages test_mode test_count
                             index_pages))))))))).
Proof.
  unfold scrape. destruct (api_key w) as [key|].
  2:{ left. repeat split; try done. all: by intros [? ?]. }
  cbv zeta.
  fold (batch_state w dir
          (pages_to_scrape dir
             (select_pages test_mode test_count index_pages))).
  destruct (pages_to_scrape dir _) as [|p todo]; [left; by repeat split|].
  right.
  destruct (stopped _) as [s|] eqn:Hs;
    [split; [done|]; left; by exists s|].
  destruct (fold_left add_previous _ _) as [idx|];
    [|split; [done|]; right; split; [done|]; left; split; [done|by left]].
  unfold save_index.
  destruct (encodable (now w) && forallb encodable_entry idx); simpl;
    (split; [done|]); right; (split; [done|]).
  - right. split; [done|]. by eexists.
  - left. split; [done|]. by right.
Qed.

Lemma written_for_calls (w : world) (st st' : progress) (p : page)
    (f : file) :
  (forall n urls, api_calls st !! n = Some urls ->
                  api_calls st' !! n = Some urls) ->
  (stopped st = Some Raises -> stopped st' = Some Raises) ->
  written_for w st p f -> written_for w st' p f.
Proof.
  intros Hcalls Hstop [[-> Hs]|(d & item & n & urls & -> & Hn & Hu & Hi & Hr)].
  - left. split; [done|]. by apply Hstop.
  - right. exists d, item, n, urls.
    split; [done|]. split; [by apply Hcalls|]. done.
Qed.

Lemma record_page_invariant (w : world) (results : gmap str extracted)
    (dir : directory) (todo : list page) (st : progress) (p : page)
    (n : nat) (urls : list str) :
  p ∈ todo -> guid p ∉ existing dir ->
  api_calls st !! n = Some urls -> url p ∈ urls ->
  results = extract_batch w n urls ->
  batch_invariant w dir todo st ->
  batch_invariant w dir todo (record_page w results st p).
Proof.
  intros Hp Hfresh Hn Hu -> Hinv. unfold record_page.
  destruct (stopped st) as [s|] eqn:Hs; [done|].
  destruct Hinv as [Hfiles Hidx]. specialize (Hidx Hs).
  destruct (extract_batch w n urls !! url p) as [item|] eqn:Hitem;
    cbv zeta.
  - unfold save_page. cbv zeta. simpl.
    destruct (bool_decide (path_sep ∈ page_file_name (guid p))) eqn:Hsep;
      simpl.
    { split; simpl; [|discriminate]. intros name.
      destruct (Hfiles name) as [?|(q & f & ? & ? & ? & ? & Hw)]; [by left|].
      right. exists q, f. repeat split; try done.
      eapply written_for_calls; [| |exact Hw]; [done|simpl; congruence]. }
    apply bool_decide_eq_false in Hsep.
    destruct (opens (page_file_name (guid p))); simpl.
    2:{ split; simpl; [|discriminate]. intros name.
        destruct (Hfiles name) as [?|(q & f & ? & ? & ? & ? & Hw)];
          [by left|].
        right. exists q, f. repeat split; try done.
        eapply written_for_calls; [| |exact Hw]; [done|simpl; congruence]. }
    destruct (encodable_page _) eqn:Henc; simpl.
    + split; simpl.
      * intros name.
        destruct (decide (page_file_name (guid p) = name)) as [<-|Hne].
        -- right. eexists p, _. rewrite lookup_insert_eq.
           repeat split; try done. right.
           eexists _, item, n, urls. repeat split; done.
        -- rewrite lookup_insert_ne by done.
           destruct (Hfiles name) as [?|(q & f & ? & ? & ? & ? & Hw)];
             [by left|].
           right. exists q, f. repeat split; try done.
           eapply written_for_calls; [| |exact Hw]; [done|simpl; congruence].
      * intros _ e He Herr.
        destruct (decide (page_file_name (guid p)
                          = page_file_name (ie_guid e))) as [->|Hne].
        -- rewrite lookup_insert_eq. eauto.
        -- rewrite lookup_insert_ne by done.
           apply elem_of_app in He as [He|He]; [by apply Hidx|].
           apply list_elem_of_singleton in He as ->. by destruct Hne.
    + split; simpl; [|discriminate]. intros name.
      destruct (decide (page_file_name (guid p) = name)) as [<-|Hne].
      * right. exists p, Unreadable. rewrite lookup_insert_eq.
        repeat split; try done. by left.
      * rewrite lookup_insert_ne by done.
        destruct (Hfiles name) as [?|(q & f & ? & ? & ? & ? & Hw)];
          [by left|].
        right. exists q, f. repeat split; try done.
        eapply written_for_calls; [| |exact Hw]; [done|simpl; congruence].
  - split; simpl.
    + intros name.
      destruct (Hfiles name) as [?|(q & f & ? & ? & ? & ? & Hw)]; [by left|].
      right. exists q, f. repeat split; try done.
      eapply written_for_calls; [| |exact Hw]; [done|simpl; congruence].
    + intros _ e He Herr.
      apply elem_of_app in He as [He|He]; [by apply Hidx|].
      apply list_elem_of_singleton in He as ->. discriminate.
Qed.

Lemma record_pages_invariant (w : world) (results : gmap str extracted)
    (dir : directory) (todo batch : list page) (st : progress)
    (n : nat) (urls : list str) :
  (forall p, p ∈ batch ->
     p ∈ todo /\ (guid p ∉ existing dir) /\ url p ∈ urls) ->
  api_calls st !! n = Some urls ->
  results = extract_batch w n urls ->
  batch_invariant w dir todo st ->
  batch_invariant w dir todo (fold_left (record_page w results) batch st).
Proof.
  intros Hb Hn Hres. revert st Hn.
  induction batch as [|p batch IH]; intros st Hn Hinv; [done|].
  simpl. destruct (Hb p (list_elem_of_here _ _)) as (Hp & Hfresh & Hu).
  apply IH.
  - intros q Hq. apply Hb. by apply list_elem_of_further.
  - by rewrite record_page_calls.
  - by eapply record_page_invariant.
Qed.

Lemma scrape_batch_invariant (w : world) (dir : directory)
    (todo batch : list page) (st : progress) :
  (forall p, p ∈ batch -> p ∈ todo /\ (guid p ∉ existing dir)) ->
  batch_invariant w dir todo st ->
  batch_invariant w dir todo (scrape_batch w st batch).
Proof.
  intros Hsub Hinv. unfold scrape_batch.
  destruct (stopped st) as [s|] eqn:Hs; [exact Hinv|]. cbv zeta.
  eapply (record_pages_invariant w _ dir todo batch _
            (length (api_calls st)) (url <$> batch)).
  - intros p Hp. destruct (Hsub p Hp) as [? ?]. repeat split; try done.
    apply list_elem_of_fmap. eauto.
  - simpl. by apply list_lookup_middle.
  - done.
  - destruct Hinv as [Hfiles Hidx].
    split; simpl; [|intros _; by apply Hidx].
    intros name.
    destruct (Hfiles name) as [?|(q & f & ? & ? & ? & ? & Hw)]; [by left|].
    right. exists q, f. repeat split; try done.
    eapply written_for_calls; [| |exact Hw]; simpl; [|congruence].
    intros k us Hk. by apply lookup_app_l_Some.
Qed.

Lemma scrape_batches_invariant (w : world) (dir : directory)
    (todo : list page) (bs : list (list page)) (st : progress) :
  Forall (fun b => forall p, p ∈ b -> p ∈ todo /\ (guid p ∉ existing dir))
         bs ->
  batch_invariant w dir todo st ->
  batch_invariant w dir todo (fold_left (scrape_batch w) bs st).
Proof.
  intros HF. revert st. induction HF as [|b bs Hb _ IH]; intros st Hinv;
    [done|].
  simpl. apply IH. by apply scrape_batch_invariant.
Qed.

Lemma batches_within (l : list page) : Forall (fun b => b ⊆ l) (batches l).
Proof.
  apply Forall_forall. intros b Hb q Hq.
  rewrite <- (concat_batches l). apply list_elem_of_In, in_concat.
  exists b. by rewrite <- !list_elem_of_In.
Qed.

Lemma elem_of_pages_to_scrape (dir : directory) (pages : list page) (p : page) :
  p ∈ pages_to_scrape dir pages <-> (guid p ∉ existing dir) /\ p ∈ pages.
Proof. unfold pages_to_scrape. by rewrite list_elem_of_filter. Qed.

(** The state after the batches of a run. *)
Lemma scrape_state_invariant (w : world) (dir : directory)
    (pages : list page) :
  batch_invariant w dir (pages_to_scrape dir pages)
    (batch_state w dir (pages_to_scrape dir pages)).
Proof.
  apply scrape_batches_invariant.
  - eapply Forall_impl; [apply batches_within|]. simpl.
    intros b Hb p Hp. split; [by apply Hb|].
    by apply Hb, elem_of_pages_to_scrape in Hp as [? _].
  - split; simpl; [by left | by intros _ e ?%elem_of_nil].
Qed.

(** Whatever the batch loop does, it removes no file and leaves the files
    of the glob as they were. *)
Lemma batch_state_preserves (w : world) (dir : directory)
    (pages : list page) (name : str) (f : file) :
  dir !! name = Some f ->
  is_Some (files (batch_state w dir (pages_to_scrape dir pages)) !! name) /\
  (glob_guid_json name = true ->
   files (batch_state w dir (pages_to_scrape dir pages)) !! name = Some f).
Proof.
  intros Hf.
  destruct (scrape_state_invariant w dir pages) as [Hfiles _].
  destruct (Hfiles name) as [->|(p & g & Hp & -> & _ & Hg & _)].
  - split; [eauto|done].
  - split; [eauto|]. intros Hglob.
    apply elem_of_pages_to_scrape in Hp as [Hnew _]. destruct Hnew.
    apply elem_of_existing. exists (page_file_name (guid p)), f.
    split; [done|]. split; [done|]. apply stem_page_file_name.
Qed.

Lemma scrape_files_preserved (w : world) (test_mode : bool)
    (test_count : Z) (index_pages : list page) (dir : directory)
    (name : str) (f : file) :
  dir !! name = Some f ->
  is_Some (r_files (scrape w test_mode test_count index_pages dir) !! name) /\
  (glob_guid_json name = true ->
   r_files (scrape w test_mode test_count index_pages dir) !! name = Some f).
Proof.
  intros Hf.
  destruct (batch_state_preserves w dir
              (select_pages test_mode test_count index_pages) name f Hf)
    as [Hsome Hsame].
  assert (forall g,
            is_Some (<[index_file_name := g]>
                       (files (batch_state w dir
                                 (pages_to_scrape dir
                                    (select_pages test_mode test_count
                                       index_pages)))) !! name) /\
            (glob_guid_json name = true ->
             <[index_file_name := g]>
               (files (batch_state w dir
                         (pages_to_scrape dir
                            (select_pages test_mode test_count
                               index_pages)))) !! name = Some f)) as Hix.
  { intros g. split.
    - destruct (decide (index_file_name = name)) as [<-|Hne];
        [rewrite lookup_insert_eq; eauto|].
      by rewrite lookup_insert_ne.
    - intros Hg.
      rewrite lookup_insert_ne
        by (intros <-; by rewrite glob_not_index in Hg).
      by apply Hsame. }
  destruct (scrape_cases w test_mode test_count index_pages dir)
    as [(_ & _ & _ & -> & _)
       |(_ & [(s & _ & _ & ->)
             |(_ & [(_ & [-> | ->])|(_ & ix & ->)])])]; eauto.
Qed.

(** X12: As far as the run is followed, it removes no file, and it leaves
    every stored page record (every file [GUID-*.json]) exactly as it
    was. *)
Theorem scrape_keeps_stored_records (w : world) (test_mode : bool)
    (test_count : Z) (index_pages : list page) (dir : directory)
    (name : str) (f : file) :
  r_outcome (scrape w test_mode test_count index_pages dir)
  <> Stopped Unfollowed ->
  dir !! name = Some f ->
  is_Some (r_files (scrape w test_mode test_count index_pages dir) !! name) /\
  (glob_guid_json name = true ->
   r_files (scrape w test_mode test_count index_pages dir) !! name = Some f).
Proof. intros _. apply scrape_files_preserved. Qed.

Lemma scrape_keeps_stored_records_witness :
  is_Some (r_files (scrape Samples.world_answering false 3
                      [Samples.tavily_page Samples.guid_A;
                       Samples.tavily_page Samples.guid_B] Samples.store_A)
             !! page_file_name Samples.guid_A) /\
  (glob_guid_json (page_file_name Samples.guid_A) = true ->
   r_files (scrape Samples.world_answering false 3
              [Samples.tavily_page Samples.guid_A;
               Samples.tavily_page Samples.guid_B] Samples.store_A)
     !! page_file_name Samples.guid_A
   = Samples.store_A !! page_file_name Samples.guid_A).
Proof.
  destruct (Samples.store_A !! page_file_name Samples.guid_A) as [f|] eqn:E;
    [|vm_compute in E; discriminate].
  apply (scrape_keeps_stored_records Samples.world_answering false 3
           [Samples.tavily_page Samples.guid_A;
            Samples.tavily_page Samples.guid_B] Samples.store_A
           (page_file_name Samples.guid_A) f);
    [vm_compute; discriminate | exact E].
Defined.

(** A page whose identifier has a directory part: the run is not followed
    past the opening of its file, which in the directory is the stored
    record of page A. *)
Lemma scrape_identifier_with_directory :
  r_outcome (scrape Samples.world_answering false 3
               [Samples.tavily_page (u "./GUID-AA11")] Samples.store_A)
  = Stopped Unfollowed.
Proof. vm_compute. reflexivity. Qed.

(** Away from the index, a run shows the store of the batch loop. *)
Lemma scrape_files_lookup (w : world) (test_mode : bool) (test_count : Z)
    (index_pages : list page) (dir : directory) (name : str) :
  name <> index_file_name ->
  r_files (scrape w test_mode test_count index_pages dir) !! name
  = dir !! name \/
  (r_api_calls (scrape w test_mode test_count index_pages dir)
   = api_calls (batch_state w dir
                  (pages_to_scrape dir
                     (select_pages test_mode test_count index_pages))) /\
   r_files (scrape w test_mode test_count index_pages dir) !! name
   = files (batch_state w dir
              (pages_to_scrape dir
                 (select_pages test_mode test_count index_pages))) !! name /\
   forall s,
     stopped (batch_state w dir
                (pages_to_scrape dir
                   (select_pages test_mode test_count index_pages)))
     = Some s ->
     r_outcome (scrape w test_mode test_count index_pages dir) = Stopped s).
Proof.
  intros Hne.
  destruct (scrape_cases w test_mode test_count index_pages dir)
    as [(_ & _ & _ & -> & _)
       |(-> & [(s & Hs & -> & ->)
              |(Hs & [(_ & [-> | ->])|(_ & ix & ->)])])];
    [by left|right..]; (split; [done|]);
    rewrite ?lookup_insert_ne by done; (split; [done|]);
    intros s'; rewrite Hs; congruence.
Qed.

(** X13: As far as the run is followed, every file it writes or changes is
    the index or the file of a page of the index that had no record yet,
    named after the identifier of the page: the record with the page's
    identifier, title and URL, the raw content of the item that a call of
    the run returned for the URL of the page, the content cleaned from it
    and the time of the clock; or the beginning of such a record, when its
    writing raised and ended the run. *)
Theorem scrape_writes_cleaned_records (w : world) (test_mode : bool)
    (test_count : Z) (index_pages : list page) (dir : directory)
    (name : str) (f : file) :
  r_outcome (scrape w test_mode test_count index_pages dir)
  <> Stopped Unfollowed ->
  r_files (scrape w test_mode test_count index_pages dir) !! name = Some f ->
  dir !! name <> Some f ->
  name = index_file_name \/
  exists p,
    p ∈ index_pages /\ (guid p ∉ existing dir) /\
    name = page_file_name (guid p) /\
    ((f = Unreadable /\
      r_outcome (scrape w test_mode test_count index_pages dir)
      = Stopped Raises) \/
     exists d item n urls,
       f = PageFile d /\
       r_api_calls (scrape w test_mode test_count index_pages dir) !! n
       = Some urls /\
       url p ∈ urls /\
       extract_batch w n urls !! url p = Some item /\
       record_of w p item d).
Proof.
  intros _ Hf Hnew.
  destruct (decide (name = index_file_name)) as [|Hne]; [by left|]. right.
  destruct (scrape_files_lookup w test_mode test_count index_pages dir
              name Hne) as [Heq|(Hcalls & Heq & Hout)];
    rewrite Heq in Hf; [done|].
  destruct (scrape_state_invariant w dir
              (select_pages test_mode test_count index_pages))
    as [Hfiles _].
  destruct (Hfiles name) as [Hsame|(p & g & Hp & -> & _ & Hg & Hw)];
    [congruence|].
  apply elem_of_pages_to_scrape in Hp as [Hfresh Hp%select_pages_subset].
  exists p. split; [done|]. split; [done|]. split; [done|].
  assert (g = f) as -> by congruence.
  destruct Hw as [[-> Hs]|(d & item & n & urls & -> & Hn & Hu & Hi & Hr)].
  - left. split; [done|]. by apply Hout.
  - right. exists d, item, n, urls. rewrite Hcalls. done.
Qed.

Lemma scrape_writes_cleaned_records_witness :
  page_file_name Samples.guid_B = index_file_name \/
  exists p,
    p ∈ [Samples.tavily_page Samples.guid_A;
         Samples.tavily_page Samples.guid_B] /\
    (guid p ∉ existing Samples.store_A) /\
    page_file_name Samples.guid_B = page_file_name (guid p) /\
    ((PageFile
        {| pd_guid := Samples.guid_B; pd_title := u "Doc";
           pd_url := Scraper.BASE_URL ++ u "?guid=" ++ Samples.guid_B;
           pd_raw_content := u "# Doc"; pd_content := u "# Doc";
           pd_has_code_blocks := false;
           pd_scraped_at := u "2026-01-01T00:00:00+00:00" |} = Unreadable /\
      r_outcome (scrape Samples.world_answering false 3
                   [Samples.tavily_page Samples.guid_A;
                    Samples.tavily_page Samples.guid_B] Samples.store_A)
      = Stopped Raises) \/
     exists d item n urls,
       PageFile
         {| pd_guid := Samples.guid_B; pd_title := u "Doc";
            pd_url := Scraper.BASE_URL ++ u "?guid=" ++ Samples.guid_B;
            pd_raw_content := u "# Doc"; pd_content := u "# Doc";
            pd_has_code_blocks := false;
            pd_scraped_at := u "2026-01-01T00:00:00+00:00" |} = PageFile d /\
       r_api_calls (scrape Samples.world_answering false 3
                      [Samples.tavily_page Samples.guid_A;
                       Samples.tavily_page Samples.guid_B] Samples.store_A)
         !! n = Some urls /\
       url p ∈ urls /\
       extract_batch Samples.world_answering n urls !! url p = Some item /\
       record_of Samples.world_answering p item d).
Proof.
  apply (scrape_writes_cleaned_records Samples.world_answering false 3
           [Samples.tavily_page Samples.guid_A;
            Samples.tavily_page Samples.guid_B] Samples.store_A).
  - vm_compute. discriminate.
  - vm_compute. reflexivity.
  - vm_compute. discriminate.
Defined.

(** A title that the writer cannot encode: the run raises at the page, and
    leaves the beginning of its record. *)
Lemma scrape_title_not_encodable :
  r_outcome (scrape Samples.world_answering false 3
               [ {| guid := Samples.guid_B; title := [55296%N];
                    url := u "https://help.autodesk.com/b" |} ] ∅)
  = Stopped Raises /\
  r_files (scrape Samples.world_answering false 3
             [ {| guid := Samples.guid_B; title := [55296%N];
                  url := u "https://help.autodesk.com/b" |} ] ∅)
    !! page_file_name Samples.guid_B = Some Unreadable /\
  r_files (scrape Samples.world_answering false 3
             [ {| guid := Samples.guid_B; title := [55296%N];
                  url := u "https://help.autodesk.com/b" |} ] ∅)
    !! index_file_name = None.
Proof. repeat split; vm_compute; reflexivity. Qed.

(** *** Index entries and records *)

(** X14: After a run that went through the batches and wrote the index,
    every index entry without an error has a readable file in the store
    under its identifier. *)
Theorem scrape_index_entries_have_records (w : world) (test_mode : bool)
    (test_count : Z) (index_pages : list page) (dir : directory)
    (ix : index) (e : index_entry) :
  r_outcome (scrape w test_mode test_count index_pages dir) = Completed ->
  r_files (scrape w test_mode test_count index_pages dir) !! index_file_name
  = Some (IndexFile ix) ->
  e ∈ ix_pages ix ->
  ie_error e = None ->
  exists f,
    r_files (scrape w test_mode test_count index_pages dir)
      !! page_file_name (ie_guid e) = Some f /\
    f <> Unreadable /\ f <> Uncaught.
Proof.
  intros Hc.
  destruct (scrape_completed _ _ _ _ _ Hc) as (Hs & _ & idx & Hidx & ->).
  set (st := batch_state w dir
               (pages_to_scrape dir
                  (select_pages test_mode test_count index_pages))) in *.
  destruct (scrape_state_invariant w dir
              (select_pages test_mode test_count index_pages))
    as [_ Hinv].
  fold st in Hinv. specialize (Hinv Hs).
  rewrite lookup_insert_eq. intros [= <-]. simpl. intros He Herr.
  destruct (decide (index_file_name = page_file_name (ie_guid e)))
    as [<-|Hne]; [rewrite lookup_insert_eq; eauto|].
  rewrite lookup_insert_ne by done.
  destruct (add_previous_fold _ _ _ (glob_files_stems (files st)) Hidx)
    as [(more & -> & _ & Hmore) _].
  apply elem_of_app in He as [Hrun|Hold].
  - destruct (Hinv e Hrun Herr) as [d Hd]. eauto.
  - assert (ie_guid e ∈ ie_guid <$> more) as Hg
      by (apply list_elem_of_fmap; eauto).
    rewrite Hmore in Hg.
    apply list_elem_of_fmap in Hg as ([name f] & -> & Hin).
    apply list_elem_of_filter in Hin as [[_ [Hr1 Hr2]] Hin].
    apply elem_of_glob_files in Hin as [Hl Hglob]. simpl in *.
    exists f. by rewrite page_file_name_of_stem.
Qed.

Lemma scrape_index_entries_have_records_witness :
  exists f,
    r_files (scrape Samples.world_answering false 3
               [Samples.tavily_page Samples.guid_B] ∅)
      !! page_file_name
           (ie_guid {| ie_guid := Samples.guid_B; ie_title := u "Doc";
                       ie_url := Scraper.BASE_URL ++ u "?guid=" ++ Samples.guid_B;
                       ie_has_code_blocks := false; ie_content_length := 5;
                       ie_error := None |}) = Some f /\
    f <> Unreadable /\ f <> Uncaught.
Proof.
  eapply (scrape_index_entries_have_records Samples.world_answering false 3
            [Samples.tavily_page Samples.guid_B] ∅).
  - vm_compute. reflexivity.
  - vm_compute. reflexivity.
  - apply list_elem_of_here.
  - reflexivity.
Defined.

(** *** A second run *)

Lemma scrape_nothing_to_do (w : world) (test_mode : bool) (test_count : Z)
    (index_pages : list page) (dir : directory) :
  pages_to_scrape dir (select_pages test_mode test_count index_pages) = [] ->
  r_api_calls (scrape w test_mode test_count index_pages dir) = [] /\
  r_files (scrape w test_mode test_count index_pages dir) = dir.
Proof.
  intros Hnil. unfold scrape. destruct (api_key w); [|done].
  cbv zeta. by rewrite Hnil.
Qed.

Lemma record_page_no_error (w : world) (results : gmap str extracted)
    (st : progress) (p : page) (e : index_entry) :
  is_Some (results !! url p) ->
  e ∈ scraped_index (record_page w results st p) ->
  e ∈ scraped_index st \/ ie_error e = None.
Proof.
  intros [item Hitem]. unfold record_page.
  destruct (stopped st); [by left|]. rewrite Hitem. cbv zeta.
  destruct (save_page _ _).2; simpl; [by left|].
  intros [?|He]%elem_of_app; [by left | right].
  by apply list_elem_of_singleton in He as ->.
Qed.

Lemma record_pages_no_error (w : world) (results : gmap str extracted)
    (batch : list page) (st : progress) (e : index_entry) :
  (forall p, p ∈ batch -> is_Some (results !! url p)) ->
  e ∈ scraped_index (fold_left (record_page w results) batch st) ->
  e ∈ scraped_index st \/ ie_error e = None.
Proof.
  revert st. induction batch as [|p batch IH]; intros st Hres; [by left|].
  simpl. intros He.
  destruct (IH _ (fun q Hq => Hres q (list_elem_of_further _ _ _ Hq)) He)
    as [Hin|?]; [|by right].
  eapply record_page_no_error; [|exact Hin].
  apply Hres, list_elem_of_here.
Qed.

Lemma scrape_batch_no_error (w : world) (st : progress) (batch : list page)
    (e : index_entry) :
  answers_all w ->
  e ∈ scraped_index (scrape_batch w st batch) ->
  e ∈ scraped_index st \/ ie_error e = None.
Proof.
  intros Hall He. unfold scrape_batch in He.
  destruct (stopped st); [by left|].
  apply record_pages_no_error in He; [done|].
  intros p Hp. apply Hall, list_elem_of_fmap. eauto.
Qed.

Lemma scrape_batches_no_error (w : world) (bs : list (list page))
    (st : progress) (e : index_entry) :
  answers_all w ->
  e ∈ scraped_index (fold_left (scrape_batch w) bs st) ->
  e ∈ scraped_index st \/ ie_error e = None.
Proof.
  intros Hall. revert st. induction bs as [|b bs IH]; intros st; [by left|].
  simpl. intros He. destruct (IH _ He) as [Hin|?]; [|by right].
  by eapply scrape_batch_no_error.
Qed.

(** When the extraction API answers for every page asked and the run is
    not stopped, the store it leaves holds a record for every page of the
    run. *)
Lemma scrape_all_stored (w : world) (test_mode : bool) (test_count : Z)
    (index_pages : list page) (dir : directory) (p : page) :
  answers_all w -> is_Some (api_key w) ->
  (forall s, r_outcome (scrape w test_mode test_count index_pages dir)
             <> Stopped s) ->
  startswith (guid p) (u "GUID-") = true ->
  p ∈ select_pages test_mode test_count index_pages ->
  guid p ∈ existing (r_files (scrape w test_mode test_count index_pages dir)).
Proof.
  intros Hall Hkey Hrun Hg Hp.
  destruct (decide (guid p ∈ existing dir)) as [Hold|Hnew].
  - apply elem_of_existing in Hold as (name & f & Hf & Hglob & Hs).
    apply elem_of_existing. exists name, f.
    split; [|done].
    by apply (scrape_files_preserved w test_mode test_count index_pages dir).
  - assert (p ∈ pages_to_scrape dir
                  (select_pages test_mode test_count index_pages)) as Htodo
      by by apply elem_of_pages_to_scrape.
    set (todo := pages_to_scrape dir
                   (select_pages test_mode test_count index_pages)) in *.
    destruct (scrape_cases w test_mode test_count index_pages dir)
      as [(_ & _ & _ & _ & Hnil)
         |(_ & [(s & _ & Hout & _)
               |(Hs & [(Hout & _)|(_ & ix & ->)])])].
    + fold todo in Hnil. rewrite (Hnil Hkey) in Htodo.
      by apply elem_of_nil in Htodo.
    + by destruct (Hrun s).
    + by destruct (Hrun Raises).
    + fold todo in Hs |- *. set (st := batch_state w dir todo) in *.
      destruct (scrape_state_invariant w dir
                  (select_pages test_mode test_count index_pages))
        as [_ Hidx].
      fold todo in Hidx. fold st in Hidx. specialize (Hidx Hs).
      destruct (scrape_batches_fold w (batches todo)
                  {| files := dir; scraped_index := []; api_calls := [];
                     stopped := None |}) as [_ Hend].
      fold (batch_state w dir todo) in Hend. fold st in Hend.
      destruct (Hend Hs) as (_ & _ & Hguids).
      simpl in Hguids. rewrite concat_batches in Hguids.
      assert (guid p ∈ ie_guid <$> scraped_index st) as Hin
        by (rewrite Hguids; apply list_elem_of_fmap; eauto).
      apply list_elem_of_fmap in Hin as (e & He & Hein).
      assert (ie_error e = None) as Herr.
      { destruct (scrape_batches_no_error w (batches todo) _ e Hall Hein)
          as [Hnil|?]; [by apply elem_of_nil in Hnil | done]. }
      destruct (Hidx e Hein Herr) as [d Hd]. rewrite <- He in Hd.
      apply elem_of_existing. exists (page_file_name (guid p)), (PageFile d).
      pose proof (glob_page_file_name _ Hg) as Hglob.
      split; [|split; [done | apply stem_page_file_name]].
      rewrite lookup_insert_ne; [done|].
      intros Heq. rewrite <- Heq in Hglob. by rewrite glob_not_index in Hglob.
Qed.

(** X15: When the extraction API has answered for every page and the run
    was not stopped, running the orchestrator again on the store the run
    left makes no call to the API and changes no file. *)
Theorem scrape_again_no_call (w1 w2 : world) (test_mode : bool)
    (test_count : Z) (index_pages : list page) (dir : directory) :
  answers_all w1 -> is_Some (api_key w1) ->
  (forall p, p ∈ index_pages -> startswith (guid p) (u "GUID-") = true) ->
  (forall s, r_outcome (scrape w1 test_mode test_count index_pages dir)
             <> Stopped s) ->
  r_api_calls
    (scrape w2 test_mode test_count index_pages
       (r_files (scrape w1 test_mode test_count index_pages dir))) = [] /\
  r_files
    (scrape w2 test_mode test_count index_pages
       (r_files (scrape w1 test_mode test_count index_pages dir)))
  = r_files (scrape w1 test_mode test_count index_pages dir).
Proof.
  intros Hall Hkey Hguids Hrun.
  apply scrape_nothing_to_do, pages_to_scrape_nil.
  intros p Hp. apply scrape_all_stored; try done.
  by apply Hguids, (select_pages_subset test_mode test_count).
Qed.

(** Without that condition the second run does call: a first run that
    raises at its first page leaves the beginning of its record, does not
    reach the second page, and the second run asks for that one. *)
Lemma scrape_again_after_raise :
  r_outcome
    (scrape Samples.world_answering false 3
       [ {| guid := Samples.guid_A; title := [55296%N];
            url := u "https://help.autodesk.com/a" |};
         {| guid := Samples.guid_B; title := u "Doc";
            url := u "https://help.autodesk.com/b" |} ] ∅)
  = Stopped Raises /\
  r_api_calls
    (scrape Samples.world_answering false 3
       [ {| guid := Samples.guid_A; title := [55296%N];
            url := u "https://help.autodesk.com/a" |};
         {| guid := Samples.guid_B; title := u "Doc";
            url := u "https://help.autodesk.com/b" |} ]
       (r_files
          (scrape Samples.world_answering false 3
             [ {| guid := Samples.guid_A; title := [55296%N];
                  url := u "https://help.autodesk.com/a" |};
               {| guid := Samples.guid_B; title := u "Doc";
                  url := u "https://help.autodesk.com/b" |} ] ∅)))
  = [[u "https://help.autodesk.com/b"]].
Proof. split; vm_compute; reflexivity. Qed.

(** *** The answer of the extraction API *)

Lemma extract_fold_lookup (results : list extracted)
    (m : gmap str extracted) (x : str) :
  fold_left (fun m item => <[ex_url item := item]> m) results m !! x
  = match last (filter (fun item => ex_url item = x) results) with
    | Some item => Some item
    | None => m !! x
    end.
Proof.
  revert m. induction results as [|item rest IH]; intros m; [done|].
  simpl. rewrite IH, filter_cons.
  destruct (decide (ex_url item = x)) as [Hx|Hx].
  - destruct (filter (fun item => ex_url item = x) rest) as [|i l] eqn:E.
    + simpl. by rewrite Hx, lookup_insert_eq.
    + rewrite last_cons_cons. destruct (last (i :: l)) eqn:El; [done|].
      by apply last_None in El.
  - destruct (last _); [done|]. by rewrite lookup_insert_ne.
Qed.

(** X8: [extract_batch] maps a URL to the last result item that carries it; a
    URL without result item, and every URL after a failed request, has no
    entry. *)
Theorem extract_batch_last_wins (w : world) (ncalls : nat)
    (urls : list str) (x : str) :
  extract_batch w ncalls urls !! x
  = match tavily w ncalls urls with
    | RequestFailed => None
    | Response results => last (filter (fun item => ex_url item = x) results)
    end.
Proof.
  unfold extract_batch. destruct (tavily w ncalls urls) as [|results];
    [apply lookup_empty|].
  rewrite extract_fold_lookup, lookup_empty. by destruct (last _).
Qed.

Lemma world_answering_answers_all : answers_all Samples.world_answering.
Proof.
  intros ncalls urls x Hx. unfold extract_batch. simpl.
  rewrite extract_fold_lookup, lookup_empty.
  destruct (last _) eqn:E; [eauto|]. apply last_None in E.
  assert ({| ex_url := x; ex_title := u "Doc"; ex_raw_content := u "# Doc" |}
          ∈ filter (fun item => ex_url item = x)
              ((fun x0 => {| ex_url := x0; ex_title := u "Doc";
                             ex_raw_content := u "# Doc" |}) <$> urls))
    as Hin.
  { apply list_elem_of_filter. split; [done|].
    apply list_elem_of_fmap. eauto. }
  rewrite E in Hin. by apply elem_of_nil in Hin.
Qed.

Lemma scrape_again_no_call_witness :
  r_api_calls
    (scrape Samples.world_failing false 3 Samples.seven_pages
       (r_files (scrape Samples.world_answering false 3
                   Samples.seven_pages ∅))) = [] /\
  r_files
    (scrape Samples.world_failing false 3 Samples.seven_pages
       (r_files (scrape Samples.world_answering false 3
                   Samples.seven_pages ∅)))
  = r_files (scrape Samples.world_answering false 3 Samples.seven_pages ∅).
Proof.
  apply (scrape_again_no_call Samples.world_answering Samples.world_failing
           false 3 Samples.seven_pages ∅).
  - apply world_answering_answers_all.
  - simpl. eauto.
  - intros p Hp. unfold Samples.seven_pages in Hp.
    apply list_elem_of_fmap in Hp as (g & -> & Hg).
    repeat (apply elem_of_cons in Hg as [->|Hg]; [reflexivity|]).
    by apply elem_of_nil in Hg.
  - intros s. vm_compute. discriminate.
Defined.

Lemma scrape_calls_only_missing_witness :
  exists p,
    p ∈ [Samples.tavily_page Samples.guid_A;
         Samples.tavily_page Samples.guid_B] /\
    url p = Scraper.BASE_URL ++ u "?guid=" ++ Samples.guid_B /\
    guid p ∉ existing Samples.store_A.
Proof.
  apply (scrape_calls_only_missing Samples.world_answering false 3
           [Samples.tavily_page Samples.guid_A;
            Samples.tavily_page Samples.guid_B] Samples.store_A
           [Scraper.BASE_URL ++ u "?guid=" ++ Samples.guid_B]).
  - vm_compute. apply list_elem_of_here.
  - apply list_elem_of_here.
Defined.

(** *** The test sample *)

(** X9: In test mode the pages keep the order of the index; every page with
    one of the three sample identifiers is selected; with a count of three
    or less exactly these are; and a larger count adds only pages that share
    their identifier with one of the first [test_count - 3] other pages. *)
Theorem select_pages_sample (test_mode : bool) (test_count : Z)
    (pages : list page) :
  sublist (select_pages test_mode test_count pages) pages /\
  (forall p, p ∈ pages -> guid p ∈ test_guids ->
             p ∈ select_pages true test_count pages) /\
  (test_count <= 3 ->
   select_pages true test_count pages
   = filter (fun p => guid p ∈ test_guids) pages) /\
  (forall p, p ∈ select_pages true test_count pages ->
     guid p ∈ test_guids \/
     guid p ∈ guid <$> take (Z.to_nat (test_count - 3))
                         (filter (fun p => guid p ∉ test_guids) pages)).
Proof.
  unfold select_pages. repeat split.
  - destruct test_mode; [apply sublist_filter | done].
  - intros p Hp Hg. apply list_elem_of_filter. split; [|done].
    apply elem_of_app. by left.
  - intros Hc. apply Z.ltb_ge in Hc. rewrite Hc. apply list_filter_iff.
    intros p. by rewrite fmap_nil, app_nil_r.
  - intros p [Hg _]%list_elem_of_filter.
    apply elem_of_app in Hg as [?|Hg]; [by left|]. right.
    destruct (3 <? test_count); [done|]. by apply elem_of_nil in Hg.
Qed.

(** *** The API key *)

Import ApiKey.

Lemma contains_false (c m : str) : contains c m = false <-> find c m = -1.
Proof.
  unfold contains. rewrite bool_decide_eq_false.
  pose proof (find_ge_m1 c m). lia.
Qed.

(** The key cut out of an argument that contains the marker: it follows
    the first occurrence of the marker and ends at the next one, if there
    is one. *)
Lemma split_second_spec (arg : str) :
  contains arg key_marker = true ->
  exists before after,
    arg = before ++ key_marker ++ split_second arg key_marker ++ after /\
    find arg key_marker = len before /\
    contains (split_second arg key_marker) key_marker = false /\
    ((after = [] /\ find (split_second arg key_marker) key_marker = -1) \/
     (startswith after key_marker = true /\
      find (split_second arg key_marker ++ after) key_marker
      = len (split_second arg key_marker))).
Proof.
  intros Hc. unfold contains in Hc. apply bool_decide_eq_true in Hc.
  assert (exists a rest, arg = a ++ key_marker ++ rest /\
                         Z.of_nat (length a) = find arg key_marker)
    as (a & rest & Harg & Hlen).
  { unfold find in *. destruct (index_of key_marker arg) as [i|] eqn:E; [|lia].
    destruct (index_of_Some _ _ _ E) as [(a & b & -> & Hl) _].
    exists a, b. split; [done | lia]. }
  unfold split_second. cbv zeta.
  assert (drop (Z.to_nat (find arg key_marker) + length key_marker) arg
          = rest) as ->.
  { rewrite <- Hlen, Nat2Z.id. rewrite Harg at 1.
    rewrite app_assoc, <- length_app. apply drop_app_length. }
  destruct (find rest key_marker <? 0) eqn:En.
  - apply Z.ltb_lt in En. exists a, []. rewrite app_nil_r.
    pose proof (find_ge_m1 rest key_marker) as Hge.
    split; [done|]. split; [by unfold len|].
    split; [apply contains_false; lia|]. left. split; [done|lia].
  - apply Z.ltb_ge in En.
    destruct (decide (find rest key_marker = 0)) as [H0|Hpos].
    + rewrite H0. destruct (find_zero _ _ H0) as [t Ht].
      exists a, rest. unfold slice_to. simpl take. split; [done|].
      split; [by unfold len|]. split; [done|]. right.
      split; [apply startswith_spec; eauto|]. by rewrite app_nil_l, H0.
    + assert (0 < find rest key_marker) as Hp by lia.
      destruct (find_pos _ _ Hp) as [(k & after & Hrest & Hk) _].
      assert (slice_to rest (find rest key_marker) = k) as Hkey.
      { unfold slice_to. rewrite <- Hk, Nat2Z.id. rewrite Hrest at 1.
        apply take_app_length. }
      exists a, (key_marker ++ after). rewrite Hkey. split.
      * by rewrite Harg, Hrest.
      * split; [by unfold len|]. split.
        -- apply contains_false.
           apply (find_cut_none rest k [] key_marker Hp).
           by rewrite app_nil_r.
        -- right. split; [apply startswith_spec; eauto|].
           rewrite <- Hrest. by unfold len.
Qed.

(** The loop takes the first argument that contains the marker. *)
Lemma key_from_args_Some (args : list str) (key : str) :
  key_from_args args = Some key ->
  exists earlier arg later,
    args = earlier ++ arg :: later /\
    Forall (fun a => contains a key_marker = false) earlier /\
    contains arg key_marker = true /\
    key = split_second arg key_marker.
Proof.
  induction args as [|arg args IH]; simpl; [discriminate|].
  destruct (contains arg key_marker) eqn:E.
  - intros [= <-]. exists [], arg, args. by repeat split.
  - intros (earlier & a & later & -> & HF & Hc & Hk)%IH.
    exists (arg :: earlier), a, later. split; [done|].
    split; [by constructor|done].
Qed.

Lemma key_from_args_None (args : list str) :
  key_from_args args = None <->
  Forall (fun arg => contains arg key_marker = false) args.
Proof.
  induction args as [|arg args IH]; simpl; [split; [constructor | done]|].
  destruct (contains arg key_marker) eqn:E.
  - split; [discriminate|]. intros H. apply Forall_cons in H as [H _].
    congruence.
  - rewrite IH. split; [by constructor|]. by intros [_ ?]%Forall_cons.
Qed.

(** X7: [get_api_key] returns the environment variable when it is set and
    not empty.  Otherwise a key it returns comes from the first argument of
    the configuration file that contains [tavilyApiKey=]: it is the text
    that follows the first occurrence of this marker in the argument, up to
    the next occurrence or, without one, to the end, so that the key never
    contains the marker.  It leaves by [sys.exit(1)] exactly when the
    variable is unset or empty and the file is absent, is rejected by
    [json.load] or has no argument with the marker; and an exception leaves
    it exactly when the variable is unset or empty and reading the file
    raises one that is not caught. *)
Theorem get_api_key_result (env : option str) (cfg : mcp_config) :
  (forall key, env = Some key -> key <> [] ->
     get_api_key env cfg = Found key) /\
  (forall key, (env = None \/ env = Some []) ->
     get_api_key env cfg = Found key ->
     exists earlier arg later before after,
       cfg = Config (earlier ++ arg :: later) /\
       Forall (fun a => contains a key_marker = false) earlier /\
       arg = before ++ key_marker ++ key ++ after /\
       find arg key_marker = len before /\
       contains key key_marker = false /\
       ((after = [] /\ find key key_marker = -1) \/
        (startswith after key_marker = true /\
         find (key ++ after) key_marker = len key))) /\
  (get_api_key env cfg = Exits <->
   (env = None \/ env = Some []) /\
   (cfg = ConfigMissing \/ cfg = ConfigUnreadable \/
    exists args,
      cfg = Config args /\
      Forall (fun arg => contains arg key_marker = false) args)) /\
  (get_api_key env cfg = KeyRaises <->
   (env = None \/ env = Some []) /\ cfg = ConfigUncaught).
Proof.
  split; [|split; [|split]].
  - intros key -> Hne. by destruct key.
  - intros key Henv Hres.
    assert (exists args, cfg = Config args /\ key_from_args args = Some key)
      as (args & -> & Hk).
    { destruct Henv as [->| ->]; simpl in Hres;
        destruct cfg as [| | |args]; try discriminate;
        exists args; (split; [done|]);
        destruct (key_from_args args); congruence. }
    apply key_from_args_Some in Hk
      as (earlier & arg & later & -> & HF & Hc & ->).
    destruct (split_second_spec arg Hc)
      as (before & after & Harg & Hfirst & Hno & Ha).
    exists earlier, arg, later, before, after. done.
  - assert (forall args,
              match key_from_args args with
              | Some key => Found key
              | None => Exits
              end = Exits <->
              Forall (fun arg => contains arg key_marker = false) args)
      as Hargs.
    { intros args. rewrite <- key_from_args_None.
      destruct (key_from_args args); split; congruence. }
    destruct env as [[|c key]|]; simpl.
    + destruct cfg as [| | |args].
      * split; [|done]. intros _. split; [by right | by left].
      * split; [|done]. intros _. split; [by right | right; by left].
      * split; [discriminate|].
        intros [_ [?|[?|(? & ? & _)]]]; discriminate.
      * rewrite Hargs. split.
        -- intros HF. split; [by right|]. right. right. eauto.
        -- intros [_ [?|[?|(? & [= <-] & ?)]]]; done.
    + split; [discriminate|]. intros [[?|?] _]; discriminate.
    + destruct cfg as [| | |args].
      * split; [|done]. intros _. split; [by left | by left].
      * split; [|done]. intros _. split; [by left | right; by left].
      * split; [discriminate|].
        intros [_ [?|[?|(? & ? & _)]]]; discriminate.
      * rewrite Hargs. split.
        -- intros HF. split; [by left|]. right. right. eauto.
        -- intros [_ [?|[?|(? & [= <-] & ?)]]]; done.
  - destruct env as [[|c key]|]; simpl.
    + destruct cfg as [| | |args]; try (split; [discriminate|by intros [_ ?]]).
      * split; [|done]. intros _. split; [by right|done].
      * destruct (key_from_args args); (split; [discriminate|by intros [_ ?]]).
    + split; [discriminate|]. intros [[?|?] _]; discriminate.
    + destruct cfg as [| | |args]; try (split; [discriminate|by intros [_ ?]]).
      * split; [|done]. intros _. split; [by left|done].
      * destruct (key_from_args args); (split; [discriminate|by intros [_ ?]]).
Qed.

(** The key of an argument with two markers is the text between them. *)
Lemma get_api_key_between_markers :
  get_api_key None
    (Config [u "--port"; u "url?tavilyApiKey=A&x=tavilyApiKey=B"])
  = Found (u "A&x=").
Proof. vm_compute. reflexivity. Qed.

End TavilyRun.

(** ** More on the browser-driven scraper *)

Module ScraperRun.
Import Scraper PyStrFacts ScraperFacts.

(** *** Discovery *)

Lemma discover_from_known (links : list anchor)
    (st : list link_info * gset str) :
  (forall g, g ∈ omap candidate links -> g ∈ st.2) ->
  discover_from st links = st.
Proof.
  induction links as [|a links IH]; intros Hknown; [done|].
  rewrite discover_from_cons, discover_link_spec.
  change (omap candidate (a :: links))
    with (match candidate a with
          | Some g => g :: omap candidate links
          | None => omap candidate links
          end) in Hknown.
  destruct (candidate a) as [g|].
  - destruct (decide (g ∈ st.2)) as [_|Hn];
      [|destruct Hn; apply Hknown, list_elem_of_here].
    apply IH. intros g' Hg'. by apply Hknown, list_elem_of_further.
  - by apply IH.
Qed.

(** X16: The set of visited identifiers belongs to the scraper object, not to a
    discovery pass: a second pass over the same anchors with the set the
    first pass left returns no link at all. *)
Theorem discovery_second_pass_empty (links : list anchor)
    (visited : gset str) :
  _discover_api_pages links (_discover_api_pages links visited).2
  = ([], (_discover_api_pages links visited).2).
Proof.
  unfold _discover_api_pages.
  fold (discover_from ([], visited) links).
  fold (discover_from ([], (discover_from ([], visited) links).2) links).
  apply discover_from_known. intros g Hg. simpl.
  rewrite discover_from_visited. apply elem_of_union_r.
  by apply elem_of_list_to_set.
Qed.

Lemma discover_from_visited_guids (links : list anchor)
    (st : list link_info * gset str) (v : gset str) :
  st.2 = v ∪ list_to_set (l_guid <$> st.1) ->
  (discover_from st links).2
  = v ∪ list_to_set (l_guid <$> (discover_from st links).1).
Proof.
  revert st. induction links as [|a links IH]; intros st Hst; [done|].
  rewrite discover_from_cons. apply IH. rewrite discover_link_spec.
  destruct (candidate a) as [g|]; [|done].
  destruct (decide (g ∈ st.2)); [done|]. simpl.
  rewrite Hst, fmap_app, list_to_set_app_L. simpl.
  rewrite link_of_guid. apply set_eq. intros x.
  rewrite !elem_of_union, elem_of_singleton, elem_of_empty. tauto.
Qed.

(** X17: After a discovery pass the visited set is what it was before together
    with the identifiers of the links returned. *)
Theorem discovery_visited_set (links : list anchor) (visited : gset str) :
  (_discover_api_pages links visited).2
  = visited ∪ list_to_set (l_guid <$> (_discover_api_pages links visited).1).
Proof.
  unfold _discover_api_pages. fold (discover_from ([], visited) links).
  apply discover_from_visited_guids. simpl.
  by rewrite (right_id_L ∅ (∪)).
Qed.

Lemma search_guid_unfold (href : str) :
  search_guid href
  = match (if startswith href (u "guid=GUID-")
           then match take_while guid_char (drop 10 href) with
                | [] => None
                | c :: run => Some (u "GUID-" ++ c :: run)
                end
           else None) with
    | Some g => Some g
    | None => match href with
              | [] => None
              | _ :: href' => search_guid href'
              end
    end.
Proof. by destruct href. Qed.

Lemma take_while_spec (p : N -> bool) (s : str) :
  Forall (fun c => p c = true) (take_while p s) /\
  exists post, s = take_while p s ++ post /\
               match post with [] => True | c :: _ => p c = false end.
Proof.
  induction s as [|c s [HF (post & Hs & Hpost)]]; simpl.
  - split; [constructor|]. by exists [].
  - destruct (p c) eqn:Ec.
    + split; [by constructor|]. exists post. split; [|done].
      simpl. by f_equal.
    + split; [constructor|]. by exists (c :: s).
Qed.

(** What the pattern [guid=(GUID-[A-F0-9a-f-]+)] finds in an [href]. *)
Lemma search_guid_Some (href g : str) :
  search_guid href = Some g ->
  exists pre run post,
    href = pre ++ u "guid=" ++ g ++ post /\ g = u "GUID-" ++ run /\
    run <> [] /\ Forall (fun c => guid_char c = true) run /\
    match post with [] => True | c :: _ => guid_char c = false end.
Proof.
  induction href as [|c href IH]; rewrite search_guid_unfold.
  - simpl. discriminate.
  - destruct (startswith (c :: href) (u "guid=GUID-")) eqn:Es.
    + apply startswith_spec in Es as [t Ht].
      assert (drop 10 (c :: href) = t) as -> by (by rewrite Ht).
      destruct (take_while_spec guid_char t) as [HF (post & Hpost & Hstop)].
      destruct (take_while guid_char t) as [|x run] eqn:Et.
      * intros Hrec. destruct (IH Hrec) as (pre & run & post' & -> & H).
        by exists (c :: pre), run, post'.
      * intros [= <-]. exists [], (x :: run), post.
        rewrite Ht, Hpost. by repeat split.
    + intros Hrec. destruct (IH Hrec) as (pre & run & post' & -> & H).
      by exists (c :: pre), run, post'.
Qed.

(** X18: Every link returned carries an identifier [GUID-] followed by at least
    one character of [A-F], [a-f], [0-9], [-], taken from the [href] of its
    anchor after [guid=], and its URL is that [href] when it starts with
    [http] and the base URL with [?guid=] and the identifier otherwise. *)
Theorem discovered_link_shape (links : list anchor) (visited : gset str)
    (p : link_info) :
  p ∈ (_discover_api_pages links visited).1 ->
  exists href inner_text pre run post,
    Anchor (Some href) inner_text ∈ links /\
    href = pre ++ u "guid=" ++ l_guid p ++ post /\
    l_guid p = u "GUID-" ++ run /\ run <> [] /\
    Forall (fun c => guid_char c = true) run /\
    l_url p = (if startswith href (u "http") then href
               else BASE_URL ++ u "?guid=" ++ l_guid p).
Proof.
  unfold _discover_api_pages. fold (discover_from ([], visited) links).
  intros Hp.
  destruct (discover_from_origin _ _ _ Hp)
    as [Hnil | (a & Ha & Hc & Heq & _)]; [by apply elem_of_nil in Hnil|].
  destruct a as [|[href|] text]; [discriminate| |]; simpl in Hc;
    destruct (strip text); try discriminate.
  destruct (search_guid_Some _ _ Hc) as (pre & run & post & Hh & Hg & Hr & HF & _).
  exists href, text, pre, run, post. repeat split; try done.
  by rewrite Heq.
Qed.

Lemma discovered_link_shape_witness :
  exists href inner_text pre run post,
    Anchor (Some href) inner_text ∈ nav_links Samples.site_A /\
    href = pre ++ u "guid=" ++ l_guid Samples.link_A ++ post /\
    l_guid Samples.link_A = u "GUID-" ++ run /\ run <> [] /\
    Forall (fun c => guid_char c = true) run /\
    l_url Samples.link_A
    = (if startswith href (u "http") then href
       else BASE_URL ++ u "?guid=" ++ l_guid Samples.link_A).
Proof.
  apply (discovered_link_shape (nav_links Samples.site_A) ∅ Samples.link_A).
  vm_compute. apply list_elem_of_here.
Defined.

(** *** The pages of a run *)

Lemma scrape_page_step (now : str) (web : site) (sc : scraper)
    (link : link_info) :
  navigated (_scrape_page now web sc link) = navigated sc ++ [l_url link] /\
  output_dir (_scrape_page now web sc link) = output_dir sc /\
  visited_guids (_scrape_page now web sc link) = visited_guids sc /\
  exists kept,
    scraped_pages (_scrape_page now web sc link) = scraped_pages sc ++ kept /\
    sublist (sp_guid <$> kept) [l_guid link] /\
    Forall (fun p => 50 < len (sp_content p)) kept.
Proof.
  unfold _scrape_page. destruct (render web (l_url link)) as [page|]; simpl.
  - destruct (bool_decide (_extract_content page <> [])); simpl.
    + destruct (50 <? len (_extract_content page)) eqn:E; simpl.
      * repeat split; try done. eexists [_]. split; [done|].
        split; [done|]. constructor; [|constructor]. simpl.
        by apply Z.ltb_lt.
      * repeat split; try done. exists []. rewrite app_nil_r.
        split; [done|]. split; [apply sublist_nil_l | constructor].
    + repeat split; try done. exists []. rewrite app_nil_r.
      split; [done|]. split; [apply sublist_nil_l | constructor].
  - repeat split; try done. exists []. rewrite app_nil_r.
    split; [done|]. split; [apply sublist_nil_l | constructor].
Qed.

Lemma scrape_pages_fold (now : str) (web : site) (links : list link_info)
    (sc : scraper) :
  navigated (fold_left (_scrape_page now web) links sc)
  = navigated sc ++ (l_url <$> links) /\
  output_dir (fold_left (_scrape_page now web) links sc) = output_dir sc /\
  visited_guids (fold_left (_scrape_page now web) links sc)
  = visited_guids sc /\
  exists kept,
    scraped_pages (fold_left (_scrape_page now web) links sc)
    = scraped_pages sc ++ kept /\
    sublist (sp_guid <$> kept) (l_guid <$> links) /\
    Forall (fun p => 50 < len (sp_content p)) kept.
Proof.
  revert sc. induction links as [|link links IH]; intros sc; simpl.
  - rewrite app_nil_r. repeat split; try done. exists [].
    rewrite app_nil_r. split; [done|]. split; [done | constructor].
  - destruct (IH (_scrape_page now web sc link))
      as (-> & -> & -> & kept & -> & Hsub & HF).
    destruct (scrape_page_step now web sc link)
      as (-> & -> & -> & one & -> & Hone & HF1).
    rewrite <- app_assoc. repeat split; try done.
    exists (one ++ kept). rewrite <- app_assoc. split; [done|]. split.
    + rewrite fmap_app.
      apply (sublist_app (sp_guid <$> one) [l_guid link]
               (sp_guid <$> kept) (l_guid <$> links)); done.
    + by apply Forall_app.
Qed.

Lemma run_unfold (now : str) (web : site) (test_mode : bool)
    (sc : scraper) (start : page_view) :
  render web (BASE_URL ++ u "?guid=" ++ API_SECTION_GUID) = Some start ->
  run now web test_mode sc
  = _save_results now
      (fold_left (_scrape_page now web)
         (if test_mode
          then take 5 (_discover_api_pages (nav_links web)
                         (visited_guids sc)).1
          else (_discover_api_pages (nav_links web) (visited_guids sc)).1)
         {| output_dir := output_dir sc;
            scraped_pages := scraped_pages sc;
            visited_guids := (_discover_api_pages (nav_links web)
                                (visited_guids sc)).2;
            navigated := navigated sc
                         ++ [BASE_URL ++ u "?guid=" ++ API_SECTION_GUID] |}).
Proof.
  intros Hstart. unfold run. rewrite Hstart.
  change (visited_guids
            {| output_dir := output_dir sc; scraped_pages := scraped_pages sc;
               visited_guids := visited_guids sc;
               navigated := navigated sc
                            ++ [BASE_URL ++ u "?guid=" ++ API_SECTION_GUID] |})
    with (visited_guids sc).
  by destruct (_discover_api_pages (nav_links web) (visited_guids sc)).
Qed.

(** X22: A run that reaches the start page navigates to the start page and then
    to every discovered link, in discovery order (the first five in test
    mode), whatever the store holds; the pages it adds follow that order
    and each has more than 50 characters of content. *)
Theorem run_in_discovery_order (now : str) (web : site) (test_mode : bool)
    (sc : scraper) (start : page_view) :
  render web (BASE_URL ++ u "?guid=" ++ API_SECTION_GUID) = Some start ->
  navigated (run now web test_mode sc)
  = navigated sc ++ (BASE_URL ++ u "?guid=" ++ API_SECTION_GUID)
    :: (l_url <$> (if test_mode
                   then take 5 (_discover_api_pages (nav_links web)
                                  (visited_guids sc)).1
                   else (_discover_api_pages (nav_links web)
                           (visited_guids sc)).1)) /\
  (test_mode = true ->
   (length (navigated (run now web test_mode sc))
    <= length (navigated sc) + 6)%nat) /\
  exists kept,
    scraped_pages (run now web test_mode sc) = scraped_pages sc ++ kept /\
    sublist (sp_guid <$> kept)
            (l_guid <$> (_discover_api_pages (nav_links web)
                           (visited_guids sc)).1) /\
    Forall (fun p => 50 < len (sp_content p)) kept.
Proof.
  intros Hstart. rewrite (run_unfold _ _ _ _ _ Hstart).
  set (page_links := (_discover_api_pages (nav_links web)
                        (visited_guids sc)).1).
  set (chosen := if test_mode then take 5 page_links else page_links).
  set (sc0 := {| output_dir := output_dir sc;
                 scraped_pages := scraped_pages sc;
                 visited_guids := (_discover_api_pages (nav_links web)
                                     (visited_guids sc)).2;
                 navigated := navigated sc
                              ++ [BASE_URL ++ u "?guid=" ++ API_SECTION_GUID] |}).
  destruct (scrape_pages_fold now web chosen sc0)
    as (Hnav & _ & _ & kept & Hkept & Hsub & HF).
  assert (navigated (_save_results now
                       (fold_left (_scrape_page now web) chosen sc0))
          = navigated sc ++ (BASE_URL ++ u "?guid=" ++ API_SECTION_GUID)
            :: (l_url <$> chosen)) as Hn.
  { unfold _save_results. cbn [navigated]. rewrite Hnav. unfold sc0.
    cbn [navigated]. by rewrite <- app_assoc. }
  split; [exact Hn|]. split.
  - intros ->. rewrite Hn, length_app, length_cons, length_fmap.
    unfold chosen. rewrite length_take. lia.
  - exists kept. unfold _save_results. cbn [scraped_pages].
    split; [exact Hkept|]. split; [|done].
    etrans; [exact Hsub|]. apply fmap_sublist. unfold chosen.
    destruct test_mode; [apply sublist_take | done].
Qed.

Lemma run_in_discovery_order_witness :
  navigated (run (u "t0") Samples.site_A true (new_scraper ∅))
  = navigated (new_scraper ∅)
    ++ (BASE_URL ++ u "?guid=" ++ API_SECTION_GUID)
    :: (l_url <$> (if true
                   then take 5 (_discover_api_pages
                                  (nav_links Samples.site_A)
                                  (visited_guids (new_scraper ∅))).1
                   else (_discover_api_pages (nav_links Samples.site_A)
                           (visited_guids (new_scraper ∅))).1)) /\
  (true = true ->
   (length (navigated (run (u "t0") Samples.site_A true (new_scraper ∅)))
    <= length (navigated (new_scraper ∅)) + 6)%nat) /\
  exists kept,
    scraped_pages (run (u "t0") Samples.site_A true (new_scraper ∅))
    = scraped_pages (new_scraper ∅) ++ kept /\
    sublist (sp_guid <$> kept)
            (l_guid <$> (_discover_api_pages (nav_links Samples.site_A)
                           (visited_guids (new_scraper ∅))).1) /\
    Forall (fun p => 50 < len (sp_content p)) kept.
Proof.
  apply (run_in_discovery_order (u "t0") Samples.site_A true (new_scraper ∅)
           (Samples.letters_page 60)).
  reflexivity.
Defined.

(** *** Saving *)

Import ScraperNotions.






(** *** Counting the expansions *)

Section ExpansionCounts.
Context {dom button : Type}.
Variable query : dom -> list button.
Variable click : button -> dom -> dom * bool.
Variable pause : dom -> dom.

Lemma succeeded_cons (ok : bool) (outcomes : list bool) :
  succeeded (ok :: outcomes)
  = (if ok then 1 else 0) + succeeded outcomes.
Proof.
  unfold succeeded. rewrite filter_cons.
  destruct ok; [rewrite decide_True by done|rewrite decide_False by done];
    simpl length; lia.
Qed.

Lemma succeeded_app (l1 l2 : list bool) :
  succeeded (l1 ++ l2) = succeeded l1 + succeeded l2.
Proof. unfold succeeded. rewrite filter_app, length_app. lia. Qed.

(** One pass: the counter rises by one for each click that did not
    raise. *)
Lemma click_all_counts (btns : list button) (d : dom) (total : Z) :
  click_all click pause btns d total
  = (after_clicks click pause btns d,
     total + succeeded (click_outcomes click pause btns d)).
Proof.
  revert d total. induction btns as [|b btns IH]; intros d total.
  - simpl. f_equal. unfold succeeded. simpl. lia.
  - cbn [click_all click_outcomes after_clicks].
    rewrite succeeded_cons.
    destruct (click b d) as [d' [|]]; simpl; rewrite IH; f_equal; lia.
Qed.

Lemma expand_loop_counts (n : nat) (e : expansion) :
  total_expanded (expand_loop click pause query n e)
  = total_expanded e
    + succeeded (loop_outcomes click pause query n (tree e)) /\
  (sum_list (passes (expand_loop click pause query n e))
   = sum_list (passes e)
     + length (loop_outcomes click pause query n (tree e)))%nat.
Proof.
  revert e. induction n as [|n IH]; intros e.
  - simpl. unfold succeeded. simpl. lia.
  - cbn [expand_loop loop_outcomes]. cbv zeta.
    destruct (query (tree e)) as [|b bs] eqn:Eq.
    + simpl. rewrite sum_list_with_app. unfold succeeded. simpl. lia.
    + rewrite click_all_counts.
      destruct (IH {| tree := pause (after_clicks click pause (b :: bs)
                                       (tree e));
                      total_expanded :=
                        total_expanded e
                        + succeeded (click_outcomes click pause (b :: bs)
                                       (tree e));
                      passes := passes e ++ [length (b :: bs)] |})
        as [-> ->].
      cbn [tree total_expanded passes].
      rewrite succeeded_app, length_app, sum_list_with_app.
      assert (length (click_outcomes click pause (b :: bs) (tree e))
              = length (b :: bs)) as ->.
      { generalize (tree e). generalize (b :: bs). clear.
        intros btns. induction btns as [|x btns IH]; intros d; [done|].
        cbn [click_outcomes]. by rewrite !length_cons, IH. }
      simpl sum_list_with. rewrite length_cons. lia.
Qed.
End ExpansionCounts.

(** X19: In both expansion loops [total_expanded] is the number of clicks
    that did not raise, over all passes, and the nodes found over all
    passes are the buttons clicked; and with a bound of zero or less no
    query is made and the tree is not touched. *)
Theorem expansion_counts_clicks (dom button : Type)
    (collapsed_in_section collapsed_in_page : dom -> list button)
    (click : button -> dom -> dom * bool) (pause : dom -> dom) (d : dom)
    (bound : Z) :
  (total_expanded (_expand_all_api_subsections collapsed_in_section
                     click pause d bound)
   = succeeded (loop_outcomes click pause collapsed_in_section
                  (Z.to_nat bound) d) /\
   sum_list (passes (_expand_all_api_subsections collapsed_in_section
                       click pause d bound))
   = length (loop_outcomes click pause collapsed_in_section
               (Z.to_nat bound) d)) /\
  (total_expanded (_expand_all_sections collapsed_in_page click pause d
                     bound)
   = succeeded (loop_outcomes click pause collapsed_in_page
                  (Z.to_nat bound) d) /\
   sum_list (passes (_expand_all_sections collapsed_in_page click pause d
                       bound))
   = length (loop_outcomes click pause collapsed_in_page
               (Z.to_nat bound) d)) /\
  (bound <= 0 ->
   _expand_all_api_subsections collapsed_in_section click pause d bound
   = {| tree := d; total_expanded := 0; passes := [] |} /\
   _expand_all_sections collapsed_in_page click pause d bound
   = {| tree := d; total_expanded := 0; passes := [] |}).
Proof.
  unfold _expand_all_api_subsections, _expand_all_sections.
  split; [|split].
  - destruct (expand_loop_counts collapsed_in_section click pause
                (Z.to_nat bound)
                {| tree := d; total_expanded := 0; passes := [] |})
      as [-> ->].
    simpl. split; lia.
  - destruct (expand_loop_counts collapsed_in_page click pause
                (Z.to_nat bound)
                {| tree := d; total_expanded := 0; passes := [] |})
      as [-> ->].
    simpl. split; lia.
  - intros Hb. replace (Z.to_nat bound) with 0%nat by lia. done.
Qed.

(** Three collapsed nodes of which the second raises when clicked: the
    counter shows two. *)
Lemma expansion_counts_two_of_three :
  total_expanded
    (_expand_all_sections
       (fun d : list nat => d)
       (fun (b : nat) (d : list nat) =>
          (filter (fun x => x <> b) d, negb (b =? 2)%nat))
       (fun d => d) [1; 2; 3]%nat 30)
  = 2.
Proof. vm_compute. reflexivity. Qed.

(** *** Normalised text *)

Import StrNotions.

Lemma run_scan_ge (c : N) (s : str) (cur best : nat) :
  (Nat.max cur best <= run_scan c cur best s)%nat.
Proof.
  revert cur best. induction s as [|x s IH]; intros cur best; simpl; [done|].
  destruct (x =? c)%N.
  - specialize (IH (S cur) best). lia.
  - specialize (IH 0%nat (Nat.max cur best)). lia.
Qed.

Lemma run_scan_mono (c : N) (s : str) (cur cur' best best' : nat) :
  (cur <= cur')%nat -> (best <= best')%nat ->
  (run_scan c cur best s <= run_scan c cur' best' s)%nat.
Proof.
  revert cur cur' best best'.
  induction s as [|x s IH]; intros cur cur' best best' Hc Hb; simpl; [lia|].
  destruct (x =? c)%N; apply IH; lia.
Qed.

Lemma run_scan_replicate (c : N) (k cur best : nat) (s : str) :
  run_scan c cur best (replicate k c ++ s) = run_scan c (cur + k) best s.
Proof.
  revert cur. induction k as [|k IH]; intros cur; simpl.
  - by rewrite Nat.add_0_r.
  - rewrite N.eqb_refl, IH. f_equal. lia.
Qed.

Lemma run_scan_cons_ne (c x : N) (cur best : nat) (s : str) :
  x <> c ->
  run_scan c cur best (x :: s) = run_scan c 0 (Nat.max cur best) s.
Proof.
  intros Hx. cbn [run_scan].
  by destruct (N.eqb_spec x c).
Qed.

Lemma run_scan_other_replicate (c c' : N) (k cur best : nat) (s : str) :
  c' <> c -> (1 <= k)%nat ->
  run_scan c' cur best (replicate k c ++ s)
  = run_scan c' 0 (Nat.max cur best) s.
Proof.
  intros Hne Hk.
  assert (forall n b, run_scan c' 0 b (replicate n c ++ s)
                      = run_scan c' 0 b s) as Hskip.
  { intros n. induction n as [|n IH]; intros b; [done|].
    change (replicate (S n) c ++ s) with (c :: replicate n c ++ s).
    rewrite run_scan_cons_ne by congruence. apply IH. }
  destruct k as [|k]; [lia|].
  change (replicate (S k) c ++ s) with (c :: replicate k c ++ s).
  rewrite run_scan_cons_ne by congruence. apply Hskip.
Qed.

Lemma replicate_shift (c : N) (run : nat) (s : str) :
  replicate run c ++ c :: s = c :: replicate run c ++ s.
Proof. induction run as [|run IH]; simpl; [done | by rewrite IH]. Qed.

Lemma flush_run_spec (c : N) (min keep run : nat) :
  exists k, flush_run c min keep run = replicate k c /\
            (k <= Nat.max keep run)%nat /\
            ((keep < min)%nat -> (k < min)%nat) /\
            ((keep <= min)%nat -> (k <= run)%nat) /\
            ((1 <= keep)%nat -> (1 <= run)%nat -> (1 <= k)%nat) /\
            (run = 0%nat -> (1 <= min)%nat -> k = 0%nat) /\
            ((run < min)%nat -> k = run).
Proof.
  unfold flush_run. destruct (min <=? run)%nat eqn:E.
  - apply Nat.leb_le in E. exists keep. repeat split; lia.
  - apply Nat.leb_gt in E. exists run. repeat split; lia.
Qed.

(** After the substitution no run of [c] reaches [min]. *)
Lemma sub_runs_longest (c : N) (min keep : nat) (s : str) (run best : nat) :
  (keep < min)%nat ->
  (run_scan c 0 best (sub_runs c min keep run s)
   <= Nat.max best (min - 1))%nat.
Proof.
  intros Hk. revert run best.
  induction s as [|x s IH]; intros run best; simpl.
  - destruct (flush_run_spec c min keep run) as (k & -> & _ & Hlt & _).
    rewrite <- (app_nil_r (replicate k c)), run_scan_replicate. simpl.
    specialize (Hlt Hk). lia.
  - destruct (x =? c)%N eqn:Ex; [apply IH|].
    destruct (flush_run_spec c min keep run) as (k & -> & _ & Hlt & _).
    rewrite run_scan_replicate. simpl. rewrite Ex.
    specialize (IH 0%nat (Nat.max k best)). specialize (Hlt Hk). lia.
Qed.

(** The substitution for [c] does not lengthen the runs of another
    character. *)
Lemma sub_runs_other (c c' : N) (min keep : nat) (s : str)
    (run cur best : nat) :
  c' <> c -> (1 <= keep)%nat -> (1 <= min)%nat ->
  run_scan c' cur best (sub_runs c min keep run s)
  = run_scan c' cur best (replicate run c ++ s).
Proof.
  intros Hne Hk Hm. revert run cur best.
  induction s as [|x s IH]; intros run cur best.
  - simpl. destruct (flush_run_spec c min keep run)
      as (k & -> & _ & _ & _ & Hpos & Hzero & _).
    destruct run as [|run].
    + by rewrite (Hzero eq_refl Hm).
    + rewrite <- (app_nil_r (replicate k c)).
      rewrite !run_scan_other_replicate by (done || lia). done.
  - simpl sub_runs. destruct (x =? c)%N eqn:Ex.
    + apply N.eqb_eq in Ex as ->. by rewrite IH, replicate_shift.
    + destruct (flush_run_spec c min keep run)
        as (k & -> & _ & _ & _ & Hpos & Hzero & _).
      destruct run as [|run].
      * rewrite (Hzero eq_refl Hm). simpl.
        destruct (x =? c')%N; rewrite IH; done.
      * rewrite !run_scan_other_replicate by (done || lia). simpl.
        destruct (x =? c')%N; rewrite IH; done.
Qed.

(** A text without a run of [min] characters [c] is left alone. *)
Lemma sub_runs_id (c : N) (min keep : nat) (s : str) (run : nat) :
  (run_scan c run 0 s < min)%nat ->
  sub_runs c min keep run s = replicate run c ++ s.
Proof.
  revert run. induction s as [|x s IH]; intros run Hlt; simpl.
  - simpl in Hlt.
    destruct (flush_run_spec c min keep run) as (k & -> & H).
    destruct H as (_ & _ & _ & _ & _ & Hsame).
    rewrite Hsame by lia. by rewrite app_nil_r.
  - simpl in Hlt. destruct (x =? c)%N eqn:Ex.
    + apply N.eqb_eq in Ex as ->. by rewrite IH, replicate_shift.
    + pose proof (run_scan_ge c s 0 (Nat.max run 0)) as Hge.
      destruct (flush_run_spec c min keep run) as (k & -> & H).
      destruct H as (_ & _ & _ & _ & _ & Hsame).
      rewrite Hsame by lia.
      rewrite (IH 0%nat); [done|].
      pose proof (run_scan_mono c s 0 0 0 (Nat.max run 0)). lia.
Qed.

Lemma sub_runs_length (c : N) (min keep : nat) (s : str) (run : nat) :
  (keep <= min)%nat ->
  (length (sub_runs c min keep run s) <= run + length s)%nat.
Proof.
  intros Hk. revert run. induction s as [|x s IH]; intros run; simpl.
  - destruct (flush_run_spec c min keep run) as (k & -> & _ & _ & Hle & _).
    rewrite length_replicate. specialize (Hle Hk). lia.
  - destruct (x =? c)%N.
    + specialize (IH (S run)). lia.
    + destruct (flush_run_spec c min keep run) as (k & -> & _ & _ & Hle & _).
      rewrite length_app, length_replicate. simpl.
      specialize (IH 0%nat). specialize (Hle Hk). lia.
Qed.

Lemma longest_run_suffix (c : N) (a b : str) (cur best : nat) :
  (longest_run c b <= run_scan c cur best (a ++ b))%nat.
Proof.
  unfold longest_run. revert cur best.
  induction a as [|x a IH]; intros cur best; simpl.
  - apply run_scan_mono; lia.
  - destruct (x =? c)%N; apply IH.
Qed.

Lemma longest_run_prefix (c : N) (a b : str) (cur best : nat) :
  (run_scan c cur best a <= run_scan c cur best (a ++ b))%nat.
Proof.
  revert cur best. induction a as [|x a IH]; intros cur best; simpl.
  - apply run_scan_ge.
  - destruct (x =? c)%N; apply IH.
Qed.

Lemma lstrip_suffix (s : str) : exists a, s = a ++ lstrip s.
Proof.
  induction s as [|x s [a IH]]; simpl; [by exists []|].
  destruct (isspace x); [|by exists []].
  exists (x :: a). simpl. by rewrite <- IH.
Qed.

Lemma strip_within (s : str) : exists a b, s = a ++ strip s ++ b.
Proof.
  destruct (lstrip_suffix s) as [a Ha].
  destruct (rstrip_prefix (lstrip s)) as [b Hb].
  exists a, b. unfold strip. by rewrite <- Hb.
Qed.

Lemma longest_run_strip (c : N) (s : str) :
  (longest_run c (strip s) <= longest_run c s)%nat.
Proof.
  destruct (strip_within s) as (a & b & Hs). rewrite Hs at 2.
  etrans; [apply (longest_run_prefix c (strip s) b 0 0)|].
  apply longest_run_suffix.
Qed.

Lemma rstrip_idem (s : str) : rstrip (rstrip s) = rstrip s.
Proof.
  induction s as [|x s IH]; simpl; [done|].
  destruct (rstrip s) as [|y r] eqn:E.
  - destruct (isspace x) eqn:Ex; simpl; [done | by rewrite Ex].
  - simpl in *. destruct (rstrip r) as [|z r'] eqn:Er.
    + destruct (isspace y); [discriminate | by rewrite IH].
    + by rewrite IH.
Qed.

Lemma lstrip_head (s : str) :
  match lstrip s with [] => True | x :: _ => isspace x = false end.
Proof.
  induction s as [|x s IH]; simpl; [done|].
  destruct (isspace x) eqn:Ex; [done | by simpl].
Qed.

Lemma rstrip_head (s : str) (x : N) (t : str) :
  isspace x = false -> exists t', rstrip (x :: t) = x :: t'.
Proof.
  intros Hx. simpl. destruct (rstrip t); [rewrite Hx|]; eauto.
Qed.

Lemma strip_idem (s : str) : strip (strip s) = strip s.
Proof.
  unfold strip. pose proof (lstrip_head s) as Hh.
  destruct (lstrip s) as [|x t] eqn:E; [done|].
  destruct (rstrip_head t x t Hh) as [t' Ht']. rewrite Ht'.
  assert (lstrip (x :: t') = x :: t') as -> by (simpl; by rewrite Hh).
  rewrite <- Ht'. apply rstrip_idem.
Qed.

Lemma strip_length (s : str) : (length (strip s) <= length s)%nat.
Proof.
  destruct (strip_within s) as (a & b & Hs). rewrite Hs at 2.
  rewrite !length_app. lia.
Qed.

Lemma normal_form_newlines (text : str) :
  (longest_run NL (normalize text) <= 2)%nat.
Proof.
  unfold normalize. etrans; [apply longest_run_strip|].
  unfold longest_run.
  rewrite (sub_runs_other 32 NL 2 1) by (done || lia). simpl replicate.
  pose proof (sub_runs_longest NL 3 2 text 0 0). simpl in *. lia.
Qed.

Lemma normal_form_spaces (text : str) :
  (longest_run 32 (normalize text) <= 1)%nat.
Proof.
  unfold normalize. etrans; [apply longest_run_strip|].
  pose proof (sub_runs_longest 32 2 1 (sub_runs NL 3 2 0 text) 0 0).
  unfold longest_run. simpl in *. lia.
Qed.

(** X20: Normalised text has no run of three newlines, no two spaces in a row
    and no white space at either end; it is not longer than the text it
    comes from; and normalising it again changes nothing. *)
Theorem normalize_normal_form (text : str) :
  (longest_run NL (normalize text) <= 2)%nat /\
  (longest_run 32 (normalize text) <= 1)%nat /\
  strip (normalize text) = normalize text /\
  len (normalize text) <= len text /\
  normalize (normalize text) = normalize text.
Proof.
  pose proof (normal_form_newlines text) as Hnl.
  pose proof (normal_form_spaces text) as Hsp.
  assert (strip (normalize text) = normalize text) as Hstrip
    by apply strip_idem.
  split; [done|]. split; [done|]. split; [done|]. split.
  - unfold normalize, len.
    pose proof (strip_length (sub_runs 32 2 1 0 (sub_runs NL 3 2 0 text))).
    pose proof (sub_runs_length 32 2 1 (sub_runs NL 3 2 0 text) 0).
    pose proof (sub_runs_length NL 3 2 text 0). lia.
  - unfold normalize at 1.
    rewrite (sub_runs_id NL 3 2 (normalize text) 0)
      by (fold (longest_run NL (normalize text)); lia).
    simpl replicate. rewrite app_nil_l.
    rewrite (sub_runs_id 32 2 1 (normalize text) 0)
      by (fold (longest_run 32 (normalize text)); lia).
    simpl replicate. by rewrite app_nil_l.
Qed.

(** X21: Whatever the page, the extracted content is in normal form: at most
    two newlines and one space in a row, no white space at either end. *)
Theorem extract_content_normal_form (page : page_view) :
  (longest_run NL (_extract_content page) <= 2)%nat /\
  (longest_run 32 (_extract_content page) <= 1)%nat /\
  strip (_extract_content page) = _extract_content page.
Proof.
  assert (_extract_content page = []
          \/ exists text, _extract_content page = normalize text) as [->|[t ->]].
  { unfold _extract_content.
    assert (forall sels text, try_selectors page sels = Some text ->
                              exists t, text = normalize t) as Hsel.
    { induction sels as [|s sels IH]; intros text; simpl; [discriminate|].
      destruct (query page s) as [| |t]; try apply IH.
      destruct (bool_decide (t <> []) && (100 <? len t)); [|apply IH].
      intros [= <-]. eauto. }
    destruct (try_selectors page selectors) as [text|] eqn:E.
    - right. by apply (Hsel selectors).
    - destruct (evaluate page) as [| |content]; try by left.
      destruct content; [by left | right; eauto]. }
  - unfold longest_run. simpl. split; [lia|]. split; [lia | done].
  - split; [|split].
    + apply normal_form_newlines.
    + apply normal_form_spaces.
    + apply strip_idem.
Qed.

End ScraperRun.

(** ** More on the content cleaner *)

Module CleanerRun.
Import Cleaner Footer PyStrFacts FooterFacts CleanerFacts CleanerNotions.

(** *** The main pass *)

Lemma loop_body_appends (page_title : str) (st : loop_state) (l : str) :
  exists one, cleaned_lines (loop_body page_title st l)
              = cleaned_lines st ++ one /\ sublist one [l].
Proof.
  assert (cleaned_lines st = cleaned_lines st ++ [] /\ sublist [] [l]) as Hnil
    by (rewrite app_nil_r; split; [done | apply sublist_nil_l]).
  assert (cleaned_lines st ++ [l] = cleaned_lines st ++ [l]
          /\ sublist [l] [l]) as Hone by done.
  unfold loop_body.
  destruct (is_fence l); [destruct (found_content_start st); simpl; eauto|].
  destruct (in_code_block st);
    [destruct (found_content_start st); simpl; eauto|].
  destruct (found_content_start st); simpl.
  - destruct (should_skip l); simpl; eauto.
  - destruct (is_title_line _ _); simpl; [eauto|].
    destruct (is_content_heading _); simpl; eauto.
Qed.

Lemma run_lines_appends (page_title : str) (ls : list str) (st : loop_state) :
  exists more, cleaned_lines (run_lines page_title st ls)
               = cleaned_lines st ++ more /\ sublist more ls.
Proof.
  revert st. induction ls as [|l ls IH]; intros st.
  - exists []. simpl. by rewrite app_nil_r.
  - rewrite run_lines_cons.
    destruct (IH (loop_body page_title st l)) as (more & -> & Hmore).
    destruct (loop_body_appends page_title st l) as (one & -> & Hone).
    exists (one ++ more). rewrite app_assoc. split; [done|].
    by apply (sublist_app one [l] more ls).
Qed.

(** X1: The main pass only drops lines: what it keeps are lines of the input,
    in the order of the input. *)
Theorem main_pass_keeps_order (page_title : str) (lines : list str) :
  sublist (main_pass page_title lines) lines.
Proof.
  unfold main_pass.
  by destruct (run_lines_appends page_title lines loop_init) as (more & -> & ?).
Qed.

Lemma loop_body_started (page_title : str) (st : loop_state) (line : str) :
  quiet st -> started page_title st ->
  started page_title (loop_body page_title st line).
Proof.
  unfold quiet, started, starts_content, loop_body. intros Hq Hs.
  destruct (is_fence line) eqn:Ef; simpl.
  - intros Hf. rewrite Hf. destruct (Hs Hf) as (l & rest & -> & Hl).
    exists l, (rest ++ [line]). done.
  - destruct (in_code_block st); simpl.
    + intros Hf. rewrite Hf. destruct (Hs Hf) as (l & rest & -> & Hl).
      exists l, (rest ++ [line]). done.
    + destruct (found_content_start st) eqn:Hf; simpl.
      * destruct (Hs eq_refl) as (l & rest & Hc & Hl).
        destruct (should_skip line); simpl; intros _;
          rewrite ?Hc; [by exists l, rest | by exists l, (rest ++ [line])].
      * rewrite (Hq eq_refl).
        destruct (is_title_line _ _) eqn:Et; simpl.
        -- intros _. exists line, []. by rewrite Ef, Et.
        -- destruct (is_content_heading _) eqn:Eh; simpl; [|congruence].
           intros _. exists line, []. by rewrite Ef, Et, Eh.
Qed.

Lemma run_lines_started (page_title : str) (lines : list str)
    (st : loop_state) :
  quiet st -> started page_title st ->
  quiet (run_lines page_title st lines) /\
  started page_title (run_lines page_title st lines).
Proof.
  revert st. induction lines as [|l lines IH]; intros st Hq Hs; [done|].
  rewrite run_lines_cons. apply IH.
  - by apply loop_body_quiet.
  - by apply loop_body_started.
Qed.

(** X2: Nothing is kept before the content starts: the first line the main
    pass keeps is a line that starts the content, the page title or a
    heading without chrome keyword, and never a fence line. *)
Theorem main_pass_first_line (page_title : str) (lines : list str)
    (first : str) (rest : list str) :
  main_pass page_title lines = first :: rest ->
  is_fence first = false /\
  (is_title_line page_title (strip first)
   || is_content_heading (strip first)) = true.
Proof.
  unfold main_pass. intros Hm.
  destruct (run_lines_started page_title lines loop_init) as [Hq Hs];
    [done | discriminate|].
  destruct (found_content_start (run_lines page_title loop_init lines)) eqn:Hf.
  - destruct (Hs Hf) as (l & rest' & Hc & Hl). rewrite Hm in Hc.
    by injection Hc as -> _.
  - rewrite (Hq Hf) in Hm. discriminate.
Qed.

Lemma main_pass_first_line_witness :
  is_fence (u "## Overview") = false /\
  (is_title_line (u "T") (strip (u "## Overview"))
   || is_content_heading (strip (u "## Overview"))) = true.
Proof.
  apply (main_pass_first_line (u "T")
           [u "Sign In"; u "# Help Home"; u "## Overview"; u "Share";
            u "Body"]
           (u "## Overview") [u "Body"]).
  vm_compute. reflexivity.
Defined.

(** *** The footer pass *)

Lemma rstrip_spaces (s : str) :
  exists ws, s = rstrip s ++ ws /\ Forall (fun x => isspace x = true) ws.
Proof.
  induction s as [|c s (ws & Hs & HF)]; simpl; [by exists []|].
  destruct (rstrip s) as [|y r] eqn:E.
  - destruct (isspace c) eqn:Ec.
    + exists (c :: s). split; [done|]. simpl in Hs. subst ws.
      by constructor.
    + exists s. split; [done|]. simpl in Hs. by subst ws.
  - exists ws. split; [|done]. simpl. by rewrite Hs at 1.
Qed.

(** X4: The footer pass returns a prefix of the content, and what it removes
    is white space followed by a listed marker and the rest of the text. *)
Theorem strip_footer_removes_footer (content : str) :
  exists removed,
    content = _strip_footer content ++ removed /\
    (removed = [] \/
     exists ws marker rest,
       removed = ws ++ marker ++ rest /\ marker ∈ footer_markers /\
       Forall (fun x => isspace x = true) ws).
Proof.
  unfold _strip_footer.
  destruct (cut_index footer_markers content) as [i|] eqn:E.
  - destruct (cut_index_Some _ _ _ E) as (m & Hm & Hpos & _ & ->).
    destruct (find_pos _ _ Hpos) as [(a & b & Hc & Hlen) _].
    assert (slice_to content (find content m) = a) as ->.
    { unfold slice_to. rewrite <- Hlen, Nat2Z.id, Hc at 1.
      by rewrite take_app_length. }
    destruct (rstrip_spaces a) as (ws & Ha & HF).
    exists (ws ++ m ++ b). split.
    + rewrite app_assoc, <- Ha. done.
    + right. exists ws, m, b. split; [done|]. split; [|done].
      by apply list_elem_of_lookup_2 in Hm.
  - destruct (cut_index_None _ _ E) as [_ ->]. exists [].
    split; [by rewrite app_nil_r | by left].
Qed.

Lemma strip_footer_iter_cut (k : nat) (content : str) :
  match cut_index footer_markers (Nat.iter k _strip_footer content) with
  | Some i => (k <= i)%nat
  | None => True
  end.
Proof.
  induction k as [|k IH]; [destruct (cut_index _ _); [lia | done]|].
  simpl Nat.iter.
  destruct (cut_index footer_markers (Nat.iter k _strip_footer content))
    as [j|] eqn:Ej.
  - destruct (cut_index footer_markers
                (_strip_footer (Nat.iter k _strip_footer content)))
      as [i|] eqn:Ei; [|done].
    pose proof (strip_footer_second_cut_later _ _ _ _ Ej Ei). lia.
  - destruct (cut_index_None _ _ Ej) as [_ Hid].
    unfold _strip_footer at 1. rewrite Hid, Ej. done.
Qed.

(** X5: Applied again and again, the footer pass stops changing the content
    after at most ten passes, one per listed marker. *)
Theorem strip_footer_settles (content : str) :
  _strip_footer (Nat.iter 10 _strip_footer content)
  = Nat.iter 10 _strip_footer content.
Proof.
  pose proof (strip_footer_iter_cut 10 content) as H.
  destruct (cut_index footer_markers (Nat.iter 10 _strip_footer content))
    as [i|] eqn:E.
  - destruct (cut_index_Some _ _ _ E) as (m & Hm & _).
    apply lookup_lt_Some in Hm. simpl in Hm. lia.
  - by destruct (cut_index_None _ _ E) as [_ ?].
Qed.

(** *** Lines and text *)

Lemma split_nonempty (sep : N) (s : str) : split sep s <> [].
Proof.
  destruct s as [|c s]; simpl; [done|].
  destruct (c =? sep)%N; [done|]. by destruct (split sep s).
Qed.

Lemma join_cons_cons (sep l l' : str) (ls : list str) :
  join sep (l :: l' :: ls) = l ++ sep ++ join sep (l' :: ls).
Proof. reflexivity. Qed.

(** Splitting a text into lines and joining the lines gives the text
    back. *)
Lemma join_split (s : str) : join [NL] (split NL s) = s.
Proof.
  induction s as [|c s IH]; [done|]. simpl split.
  destruct (c =? NL)%N eqn:Ec.
  - apply N.eqb_eq in Ec as ->.
    pose proof (split_nonempty NL s) as Hne.
    destruct (split NL s) as [|l ls]; [done|].
    by rewrite join_cons_cons, IH.
  - pose proof (split_nonempty NL s) as Hne.
    destruct (split NL s) as [|l ls]; [done|].
    destruct ls as [|l' ls].
    + simpl in *. by rewrite IH.
    + rewrite join_cons_cons. rewrite join_cons_cons in IH.
      by rewrite <- IH.
Qed.

Lemma join_length (ls : list str) :
  length (join [NL] ls)
  = (sum_list_with (fun l => S (length l)) ls - 1)%nat.
Proof.
  induction ls as [|l ls IH]; [done|].
  destruct ls as [|l' ls].
  - simpl. lia.
  - rewrite join_cons_cons, !length_app, IH.
    change (sum_list_with (fun l => S (length l)) (l :: l' :: ls))
      with (S (length l)
            + sum_list_with (fun l => S (length l)) (l' :: ls))%nat.
    change (sum_list_with (fun l => S (length l)) (l' :: ls))
      with (S (length l') + sum_list_with (fun l => S (length l)) ls)%nat.
    simpl length. lia.
Qed.

Lemma sum_sublist (ls' ls : list str) :
  sublist ls' ls ->
  (sum_list_with (fun l => S (length l)) ls'
   <= sum_list_with (fun l => S (length l)) ls)%nat.
Proof. induction 1; simpl; lia. Qed.

Lemma join_sublist_length (ls' ls : list str) :
  sublist ls' ls -> (length (join [NL] ls') <= length (join [NL] ls))%nat.
Proof. intros H%sum_sublist. rewrite !join_length. lia. Qed.

Lemma simple_clean_length (raw : str) :
  (length (_simple_clean raw) <= length raw)%nat.
Proof.
  unfold _simple_clean. cbv zeta.
  etrans; [apply ScraperRun.strip_length|].
  rewrite <- (join_split raw) at 2.
  apply join_sublist_length, sublist_filter.
Qed.

(** X3: Cleaning only removes: the cleaned content is never longer than the
    raw content. *)
Theorem clean_content_shrinks (raw_content page_title : str) :
  len (clean_content raw_content page_title) <= len raw_content.
Proof.
  unfold clean_content, len. destruct raw_content as [|c raw]; [done|].
  cbv zeta.
  set (raw_content := c :: raw).
  set (main := strip (join [NL] (main_pass page_title (split NL raw_content)))).
  assert (length main <= length raw_content)%nat as Hmain.
  { unfold main. etrans; [apply ScraperRun.strip_length|].
    rewrite <- (join_split raw_content) at 2.
    apply join_sublist_length. unfold main_pass.
    by destruct (run_lines_appends page_title (split NL raw_content)
                   loop_init) as (more & -> & ?). }
  pose proof (simple_clean_length raw_content) as Hsimple.
  set (result := if _ : bool then _simple_clean raw_content else main).
  assert (length result <= length raw_content)%nat as Hres
    by (unfold result; by destruct (_ && _)).
  destruct (strip_footer_loop_prefix footer_markers result) as [t Ht].
  fold (_strip_footer result) in Ht.
  apply (f_equal length) in Ht. rewrite length_app in Ht. lia.
Qed.

(** *** The fallback cleaner *)

Lemma contains_true (c m : str) :
  contains c m = true <-> exists a b, c = a ++ m ++ b.
Proof.
  unfold contains. rewrite bool_decide_eq_true. split.
  - intros Hf. unfold find in Hf.
    destruct (index_of m c) as [i|] eqn:E; [|lia].
    destruct (index_of_Some _ _ _ E) as [(a & b & -> & _) _]. eauto.
  - intros (a & b & ->). pose proof (find_occurrence a m b). lia.
Qed.

Lemma lstrip_app_nonspace (a t : str) (x : N) :
  isspace x = false -> exists a', lstrip (a ++ x :: t) = a' ++ x :: t.
Proof.
  intros Hx. induction a as [|c a [a' IH]].
  - exists []. cbn [app lstrip]. by rewrite Hx.
  - rewrite <- app_comm_cons. cbn [lstrip].
    destruct (isspace c); [by exists a' | by exists (c :: a)].
Qed.

Lemma rstrip_cons (c : N) (s : str) :
  rstrip (c :: s)
  = match rstrip s with
    | [] => if isspace c then [] else [c]
    | r => c :: r
    end.
Proof. reflexivity. Qed.

Lemma rstrip_app_nonspace (t b : str) (y : N) :
  isspace y = false -> exists b', rstrip (t ++ y :: b) = t ++ y :: b'.
Proof.
  intros Hy. induction t as [|c t [b' IH]].
  - rewrite app_nil_l, rstrip_cons.
    destruct (rstrip b) as [|z r]; [rewrite Hy; by exists [] | by exists (z :: r)].
  - rewrite <- app_comm_cons, rstrip_cons, IH.
    destruct (t ++ y :: b') eqn:E; [by destruct t|].
    exists b'. by rewrite <- E.
Qed.

(** A word that begins and ends with a character that is not white space
    occurs in a line only inside the stripped line. *)
Lemma occurrence_in_strip (l a b k0 : str) (x y : N) (kw : str) :
  kw = x :: k0 -> (exists k1, kw = k1 ++ [y]) ->
  isspace x = false -> isspace y = false ->
  l = a ++ kw ++ b ->
  exists a' b', strip l = a' ++ kw ++ b'.
Proof.
  intros -> [k1 Hlast] Hx Hy ->. unfold strip.
  destruct (lstrip_app_nonspace a (k0 ++ b) x Hx) as [a' Ha'].
  change (a ++ (x :: k0) ++ b) with (a ++ x :: k0 ++ b). rewrite Ha'.
  assert (a' ++ x :: k0 ++ b = (a' ++ k1) ++ y :: b) as ->.
  { change (x :: k0 ++ b) with ((x :: k0) ++ b).
    by rewrite Hlast, <- !app_assoc. }
  destruct (rstrip_app_nonspace (a' ++ k1) b y Hy) as [b' ->].
  exists a', b'. by rewrite Hlast, <- !app_assoc.
Qed.

(** A word without newline that occurs in joined lines occurs in one of
    the lines. *)
Lemma occurrence_in_join (ls : list str) (kw a b : str) :
  kw <> [] -> NL ∉ kw ->
  join [NL] ls = a ++ kw ++ b ->
  exists l a' b', l ∈ ls /\ l = a' ++ kw ++ b'.
Proof.
  intros Hne Hnl. revert a. induction ls as [|l ls IH]; intros a Hj.
  - simpl in Hj. destruct a; [destruct kw|]; done.
  - destruct ls as [|l' ls].
    + simpl in Hj. exists l, a, b. split; [apply list_elem_of_here | done].
    + rewrite join_cons_cons in Hj.
      apply app_eq_app in Hj as [m [[Hl Hk]|[Ha HJ]]].
      * apply app_eq_app in Hk as [m' [[Hkw Hm']|[Hm Hb]]].
        -- destruct m' as [|z m'].
           ++ rewrite app_nil_r in Hkw. subst m.
              exists l, a, []. split; [apply list_elem_of_here|].
              by rewrite app_nil_r.
           ++ simpl in Hm'. injection Hm' as <- _. destruct Hnl.
              rewrite Hkw. apply elem_of_app. right. apply list_elem_of_here.
        -- exists l, a, m'. split; [apply list_elem_of_here|].
           by rewrite Hl, Hm.
      * destruct m as [|z m].
        -- simpl in HJ. destruct kw as [|k kw]; [done|].
           simpl in HJ. injection HJ as <- _. destruct Hnl.
           apply list_elem_of_here.
        -- simpl in HJ. injection HJ as _ HJ.
           destruct (IH m HJ) as (l0 & a' & b' & Hin & Hl0).
           exists l0, a', b'. split; [by apply list_elem_of_further | done].
Qed.

Lemma keywords_shape :
  forallb (fun kw =>
             match kw, last kw with
             | x :: _, Some y =>
                 negb (isspace x) && negb (isspace y)
                 && forallb (fun c => negb (c =? NL)%N) kw
             | _, _ => false
             end) simple_clean_keywords = true.
Proof. vm_compute. reflexivity. Qed.

(** X6: The text the fallback cleaner returns contains none of the words of
    its blocklist. *)
Theorem simple_clean_no_keyword (raw_content : str) :
  Forall (fun kw => contains (_simple_clean raw_content) kw = false)
         simple_clean_keywords.
Proof.
  apply Forall_forall. intros kw Hkw.
  destruct (contains (_simple_clean raw_content) kw) eqn:Ec; [exfalso|done].
  (* the shape of the word *)
  pose proof keywords_shape as Hshape. rewrite forallb_forall in Hshape.
  specialize (Hshape kw (proj1 (list_elem_of_In _ _) Hkw)).
  destruct kw as [|x k0]; [done|].
  destruct (last (x :: k0)) as [y|] eqn:Elast; [|done].
  apply andb_true_iff in Hshape as [Hxy Hnl].
  apply andb_true_iff in Hxy as [Hx Hy].
  apply negb_true_iff in Hx, Hy.
  assert (NL ∉ x :: k0) as Hnonl.
  { intros Hin. rewrite forallb_forall in Hnl.
    specialize (Hnl NL (proj1 (list_elem_of_In _ _) Hin)).
    by rewrite N.eqb_refl in Hnl. }
  apply last_Some in Elast as [k1 Hk1].
  (* from the text to a kept line *)
  apply contains_true in Ec as (a & b & Hocc).
  unfold _simple_clean in Hocc. cbv zeta in Hocc.
  match type of Hocc with
  | strip (join [NL] ?kept) = _ => set (lines := kept) in *
  end.
  destruct (ScraperRun.strip_within (join [NL] lines)) as (p & q & Hj).
  rewrite Hocc, <- !app_assoc in Hj.
  rewrite (app_assoc p a) in Hj.
  destruct (occurrence_in_join lines (x :: k0) (p ++ a) (b ++ q))
    as (l & a' & b' & Hl & Hin); [done | done | done |].
  destruct (occurrence_in_strip l a' b' k0 x y (x :: k0) eq_refl
              (ex_intro _ k1 Hk1) Hx Hy Hin) as (a'' & b'' & Hs).
  unfold lines in Hl. apply list_elem_of_filter in Hl as [Hkept _].
  apply Hkept. apply orb_True. left. apply Is_true_true.
  apply existsb_exists. exists (x :: k0). split; [by apply list_elem_of_In|].
  apply contains_true. eauto.
Qed.

End CleanerRun.

(** * The search server *)

Module ServerRun.
Import Scraper Server ServerNotions PyStrFacts ScraperFacts ScraperRun.

(** *** Slices *)

Lemma clamp_index_inner (n i : Z) : 0 <= i <= n -> clamp_index n i = i.
Proof.
  intros Hi. unfold clamp_index.
  destruct (i <? 0) eqn:E; [apply Z.ltb_lt in E; lia|lia].
Qed.

Lemma py_slice_inner {A : Type} (l : list A) (a b : Z) :
  0 <= a <= b -> b <= len_list l ->
  py_slice l a b = take (Z.to_nat (b - a)) (drop (Z.to_nat a) l).
Proof.
  intros Ha Hb. unfold py_slice. cbv zeta.
  rewrite !clamp_index_inner by lia. done.
Qed.

Lemma py_slice_from_start {A : Type} (l : list A) (b : Z) :
  exists k, py_slice l 0 b = take k l /\ (0 <= b -> k = Z.to_nat b).
Proof.
  unfold py_slice, len_list. cbv zeta.
  rewrite (clamp_index_inner _ 0) by lia.
  change (Z.to_nat 0) with 0%nat. rewrite drop_0.
  unfold clamp_index. destruct (b <? 0) eqn:E.
  - apply Z.ltb_lt in E. eexists. split; [done|lia].
  - apply Z.ltb_ge in E. exists (Z.to_nat b). split; [|done].
    rewrite Z.sub_0_r.
    destruct (Z.le_gt_cases b (Z.of_nat (length l))) as [Hle|Hgt].
    + by rewrite Z.min_l by lia.
    + rewrite Z.min_r by lia. rewrite Nat2Z.id.
      rewrite !take_ge; [done|lia|lia].
Qed.

(** *** Snippets *)

Lemma best_position_range (content_lower : str) (query_terms : list str)
    (start : Z) :
  0 <= start -> 0 <= best_position content_lower query_terms start <= start.
Proof.
  revert start. induction query_terms as [|term terms IH]; intros start Hs.
  - simpl. lia.
  - change (best_position content_lower (term :: terms) start)
      with (best_position content_lower terms
              (if negb (find content_lower term =? -1)
                  && (find content_lower term <? start)
               then find content_lower term else start)).
    pose proof (find_ge_m1 content_lower term) as Hf.
    destruct (negb (find content_lower term =? -1)
              && (find content_lower term <? start)) eqn:E.
    + apply andb_true_iff in E as [E1 E2].
      apply negb_true_iff, Z.eqb_neq in E1. apply Z.ltb_lt in E2.
      specialize (IH (find content_lower term)). lia.
    + by apply IH.
Qed.

(** X24: For a snippet length that is not negative, the snippet is a window of
    the content of at most that many characters, with an ellipsis on each
    side where content was left out and nowhere else. *)
Theorem extract_snippet_window (content : str) (query_terms : list str)
    (snippet_length : Z) :
  0 <= snippet_length ->
  exists before window after,
    content = before ++ window ++ after /\
    len window <= snippet_length /\
    extract_snippet content query_terms snippet_length
    = match before with [] => [] | _ :: _ => ellipsis end
      ++ window
      ++ match after with [] => [] | _ :: _ => ellipsis end.
Proof.
  intros Hn. unfold extract_snippet. cbv zeta.
  pose proof (best_position_range (Unicode.lower content) query_terms
                (len content)) as Hbp.
  set (bp := best_position _ _ _) in *.
  assert (0 <= bp <= len content) as Hr by (apply Hbp; unfold len; lia).
  clear Hbp. unfold len in *.
  destruct (bp =? Z.of_nat (length content)) eqn:Ebp.
  - destruct (snippet_length <? Z.of_nat (length content)) eqn:El.
    + apply Z.ltb_lt in El.
      destruct (py_slice_from_start content snippet_length) as (k & -> & Hk).
      specialize (Hk Hn). subst k.
      exists [], (take (Z.to_nat snippet_length) content),
             (drop (Z.to_nat snippet_length) content).
      split; [by rewrite take_drop|]. split; [rewrite length_take; lia|].
      destruct (drop (Z.to_nat snippet_length) content) eqn:Ed; [|done].
      exfalso. apply (f_equal length) in Ed. rewrite length_drop in Ed.
      simpl in Ed. lia.
    + apply Z.ltb_ge in El. exists [], content, [].
      split; [by rewrite app_nil_r|]. split; [lia|]. by rewrite app_nil_r.
  - apply Z.eqb_neq in Ebp.
    set (start := Z.max 0 (bp - 50)).
    set (stop := Z.min (Z.of_nat (length content)) (start + snippet_length)).
    assert (0 <= start < Z.of_nat (length content)) as Hstart
      by (unfold start; lia).
    assert (start <= stop <= Z.of_nat (length content)) as Hstop
      by (unfold stop; lia).
    rewrite py_slice_inner by (unfold len_list; lia).
    exists (take (Z.to_nat start) content),
           (take (Z.to_nat (stop - start)) (drop (Z.to_nat start) content)),
           (drop (Z.to_nat stop) content).
    split.
    { rewrite <- (take_drop (Z.to_nat start) content) at 1. f_equal.
      rewrite <- (take_drop (Z.to_nat (stop - start))
                    (drop (Z.to_nat start) content)) at 1.
      f_equal. rewrite drop_drop. f_equal. lia. }
    split; [rewrite length_take; unfold stop; lia|].
    assert (match take (Z.to_nat start) content with
            | [] => [] | _ :: _ => ellipsis end
            = if 0 <? start then ellipsis else []) as ->.
    { destruct (0 <? start) eqn:E0.
      - apply Z.ltb_lt in E0.
        destruct (take (Z.to_nat start) content) eqn:Et; [|done].
        apply (f_equal length) in Et. rewrite length_take in Et.
        simpl in Et. lia.
      - apply Z.ltb_ge in E0. by replace start with 0 by lia. }
    assert (match drop (Z.to_nat stop) content with
            | [] => [] | _ :: _ => ellipsis end
            = if stop <? Z.of_nat (length content) then ellipsis else [])
      as ->.
    { destruct (stop <? Z.of_nat (length content)) eqn:E1.
      - apply Z.ltb_lt in E1.
        destruct (drop (Z.to_nat stop) content) eqn:Ed; [|done].
        apply (f_equal length) in Ed. rewrite length_drop in Ed.
        simpl in Ed. lia.
      - apply Z.ltb_ge in E1. rewrite drop_ge; [done|lia]. }
    destruct (0 <? start), (stop <? Z.of_nat (length content)); simpl;
      rewrite ?app_nil_r, <- ?app_assoc; done.
Qed.

Lemma extract_snippet_window_witness :
  exists before window after,
    u "see the curve tools" = before ++ window ++ after /\
    len window <= 9 /\
    extract_snippet (u "see the curve tools") [u "curve"] 9
    = match before with [] => [] | _ :: _ => ellipsis end
      ++ window
      ++ match after with [] => [] | _ :: _ => ellipsis end.
Proof.
  apply (extract_snippet_window (u "see the curve tools") [u "curve"] 9).
  lia.
Defined.

(** *** Ordering the results *)

Lemma insert_by_score_perm (r : result) (sorted : list result) :
  insert_by_score r sorted ≡ₚ r :: sorted.
Proof.
  induction sorted as [|r' rest IH]; simpl; [done|].
  destruct (res_score r' <=? res_score r); [done|].
  rewrite IH. apply Permutation_swap.
Qed.

Lemma sort_by_score_perm (results : list result) :
  sort_by_score results ≡ₚ results.
Proof.
  induction results as [|r rest IH]; [done|].
  change (sort_by_score (r :: rest))
    with (insert_by_score r (sort_by_score rest)).
  by rewrite insert_by_score_perm, IH.
Qed.

Lemma insert_by_score_ranked (r : result) (sorted : list result) :
  ranked sorted -> ranked (insert_by_score r sorted).
Proof.
  induction sorted as [|r' rest IH]; intros Hs; simpl.
  - split; [constructor|done].
  - destruct Hs as [Hall Hrest].
    destruct (res_score r' <=? res_score r) eqn:E.
    + apply Z.leb_le in E. split; [|by split].
      constructor; [done|].
      eapply Forall_impl; [exact Hall|]. simpl. intros x Hx. lia.
    + apply Z.leb_gt in E. split; [|by apply IH].
      rewrite insert_by_score_perm. constructor; [lia|done].
Qed.

Lemma sort_by_score_ranked (results : list result) :
  ranked (sort_by_score results).
Proof.
  induction results as [|r rest IH]; [done|].
  change (sort_by_score (r :: rest))
    with (insert_by_score r (sort_by_score rest)).
  by apply insert_by_score_ranked.
Qed.

Lemma ranked_take (k : nat) (results : list result) :
  ranked results -> ranked (take k results).
Proof.
  revert k. induction results as [|r rest IH]; intros k Hr.
  - by destruct k.
  - destruct k as [|k]; [done|]. destruct Hr as [Hall Hrest].
    simpl. split; [by apply Forall_take|by apply IH].
Qed.

(** Inserting a result does not move it past a result of the same score,
    so among the results of one score the order is kept. *)
Lemma insert_by_score_filter (s : Z) (r : result) (sorted : list result) :
  filter (fun x => res_score x = s) (insert_by_score r sorted)
  = filter (fun x => res_score x = s) (r :: sorted).
Proof.
  induction sorted as [|r' rest IH]; simpl; [done|].
  destruct (res_score r' <=? res_score r) eqn:E; [done|].
  apply Z.leb_gt in E.
  rewrite (filter_cons _ r'), IH, !(filter_cons _ r), (filter_cons _ r').
  destruct (decide (res_score r = s)) as [Hr|Hr]; [|done].
  destruct (decide (res_score r' = s)) as [Hr'|Hr']; [lia|done].
Qed.

Lemma sort_by_score_filter (s : Z) (results : list result) :
  filter (fun x => res_score x = s) (sort_by_score results)
  = filter (fun x => res_score x = s) results.
Proof.
  induction results as [|r rest IH]; [done|].
  change (sort_by_score (r :: rest))
    with (insert_by_score r (sort_by_score rest)).
  by rewrite insert_by_score_filter, !(filter_cons _ r), IH.
Qed.

Lemma omap_length_le {A B : Type} (f : A -> option B) (l : list A) :
  (length (omap f l) <= length l)%nat.
Proof.
  induction l as [|x l IH]; [done|].
  change (omap f (x :: l))
    with (match f x with Some y => y :: omap f l | None => omap f l end).
  destruct (f x); rewrite !length_cons; lia.
Qed.

Lemma search_docs_unfold (query : str) (docs : list file) (max_results : Z) :
  exists k,
    search_docs query docs max_results
    = take k (sort_by_score (hits (split_ws [] (Unicode.lower query)) docs))
    /\ (0 <= max_results -> k = Z.to_nat max_results).
Proof.
  unfold search_docs. cbv zeta.
  fold (hits (split_ws [] (Unicode.lower query)) docs).
  apply py_slice_from_start.
Qed.

(** *** Scoring one document *)

Lemma score_doc_positive (query_terms : list str) (doc : file) (r : result) :
  score_doc query_terms doc = Some r -> 0 < res_score r.
Proof.
  unfold score_doc.
  destruct (fold_left _ _ _) as [score matched].
  destruct (0 <? score) eqn:E; [|discriminate].
  intros [= <-]. simpl. by apply Z.ltb_lt.
Qed.

(** X25: The results are ranked by score, highest first, and every score is
    positive, whatever the bound on the number of results. *)
Theorem search_docs_ranked (query : str) (docs : list file)
    (max_results : Z) :
  ranked (search_docs query docs max_results) /\
  Forall (fun r => 0 < res_score r) (search_docs query docs max_results).
Proof.
  destruct (search_docs_unfold query docs max_results) as (k & -> & _).
  split.
  - apply ranked_take, sort_by_score_ranked.
  - apply Forall_take. rewrite sort_by_score_perm.
    apply Forall_forall. intros r Hr.
    apply list_elem_of_omap in Hr as (doc & _ & Hdoc).
    by eapply score_doc_positive.
Qed.

(** X26: With a bound that is not negative, at most that many results are
    returned, and never more than there are documents: they are the first
    of the ranking that a bound as large as the number of documents
    gives in full. *)
Theorem search_docs_at_most (query : str) (docs : list file)
    (max_results : Z) :
  0 <= max_results ->
  len_list (search_docs query docs max_results) <= max_results /\
  len_list (search_docs query docs max_results) <= len_list docs /\
  search_docs query docs max_results
  = take (Z.to_nat max_results) (search_docs query docs (len_list docs)).
Proof.
  intros Hm.
  destruct (search_docs_unfold query docs max_results) as (k & -> & Hk).
  specialize (Hk Hm). subst k.
  destruct (search_docs_unfold query docs (len_list docs)) as (k & -> & Hk).
  unfold len_list in *. specialize (Hk ltac:(lia)). subst k.
  rewrite Nat2Z.id.
  set (sorted := sort_by_score _).
  assert (length sorted <= length docs)%nat as Hlen.
  { unfold sorted. rewrite sort_by_score_perm. unfold hits.
    apply omap_length_le. }
  rewrite length_take. split; [lia|]. split; [lia|].
  by rewrite (take_ge sorted (length docs)).
Qed.

Lemma search_docs_at_most_witness :
  len_list (search_docs (u "Curve") ServerSamples.docs 1) <= 1 /\
  len_list (search_docs (u "Curve") ServerSamples.docs 1)
  <= len_list ServerSamples.docs /\
  search_docs (u "Curve") ServerSamples.docs 1
  = take (Z.to_nat 1)
         (search_docs (u "Curve") ServerSamples.docs
            (len_list ServerSamples.docs)).
Proof. apply (search_docs_at_most (u "Curve") ServerSamples.docs 1). lia. Defined.

(** X27: Results of the same score keep the order of their documents: for every
    score, the returned results of that score are the first of the hits
    of that score in document order. *)
Theorem search_docs_ties_in_document_order (query : str) (docs : list file)
    (max_results : Z) (s : Z) :
  filter (fun r => res_score r = s) (search_docs query docs max_results)
  `prefix_of`
  filter (fun r => res_score r = s)
         (hits (split_ws [] (Unicode.lower query)) docs).
Proof.
  destruct (search_docs_unfold query docs max_results) as (k & -> & _).
  rewrite <- (sort_by_score_filter s (hits _ docs)).
  set (sorted := sort_by_score _).
  rewrite <- (take_drop k sorted) at 2. rewrite filter_app.
  by eexists.
Qed.

(** *** Counting and matching *)

Lemma count_fuel_nonneg (fuel : nat) (s sub : str) :
  0 <= count_fuel fuel s sub.
Proof.
  revert s. induction fuel as [|fuel IH]; intros s; cbn [count_fuel]; [lia|].
  destruct (startswith s sub).
  - specialize (IH (drop (length sub) s)). lia.
  - destruct s; [lia|apply IH].
Qed.

Lemma count_nonneg (s sub : str) : 0 <= count s sub.
Proof.
  unfold count. destruct sub; [unfold len; lia|apply count_fuel_nonneg].
Qed.

Lemma count_fuel_pos (sub s : str) (i fuel : nat) :
  index_of sub s = Some i -> (i < fuel)%nat -> 1 <= count_fuel fuel s sub.
Proof.
  revert i fuel. induction s as [|x s IH]; intros i fuel Hi Hlt;
    (destruct fuel as [|fuel]; [lia|]); cbn [index_of count_fuel] in *.
  - destruct (startswith [] sub); [|discriminate].
    pose proof (count_fuel_nonneg fuel (drop (length sub) []) sub). lia.
  - destruct (startswith (x :: s) sub).
    + pose proof (count_fuel_nonneg fuel (drop (length sub) (x :: s)) sub).
      lia.
    + destruct (index_of sub s) as [j|] eqn:Ej; [|discriminate].
      injection Hi as <-. apply (IH j); [done|lia].
Qed.

(** A string that contains a term counts it at least once. *)
Lemma count_pos (s sub : str) : contains s sub = true -> 1 <= count s sub.
Proof.
  unfold contains, find. intros Hc. apply bool_decide_eq_true in Hc.
  destruct (index_of sub s) as [i|] eqn:Ei; [|lia].
  unfold count. destruct sub as [|c sub]; [unfold len; lia|].
  apply (count_fuel_pos _ _ i); [done|].
  destruct (index_of_Some _ _ _ Ei) as [(a & b & -> & Hl) _].
  rewrite !length_app, length_cons. lia.
Qed.

Lemma score_term_spec (title content : str) (st : Z * list str)
    (term : str) :
  exists added,
    (score_term title content st term).2 = st.2 ++ added /\
    st.1 <= (score_term title content st term).1 /\
    (forall t, t ∈ added ->
       t = term /\
       (contains title term = true \/ contains content term = true)) /\
    ((score_term title content st term).2 = [] ->
     (score_term title content st term).1 = st.1) /\
    (contains title term = true \/ contains content term = true ->
     st.1 < (score_term title content st term).1 /\
     term ∈ (score_term title content st term).2).
Proof.
  unfold score_term. cbv zeta. destruct st as [score matched]. simpl.
  pose proof (count_nonneg content term) as Hc0.
  assert (term ∈ matched ++ [term]) as Hlast
    by (apply elem_of_app; right; by apply list_elem_of_singleton).
  destruct (contains title term) eqn:Et;
    destruct (contains content term) eqn:Ec; simpl.
  - pose proof (count_pos _ _ Ec) as Hc1.
    rewrite bool_decide_eq_true_2 by done.
    exists [term]. split; [done|]. split; [lia|].
    split; [intros t ->%list_elem_of_singleton; split; [done|by left]|].
    split; [by intros ?%app_nil_r_inv|]. intros _. split; [lia|done].
  - exists [term]. split; [done|]. split; [lia|].
    split; [intros t ->%list_elem_of_singleton; split; [done|by left]|].
    split; [by intros ?%app_nil_r_inv|]. intros _. split; [lia|done].
  - pose proof (count_pos _ _ Ec) as Hc1.
    destruct (bool_decide (term ∈ matched)) eqn:Em.
    + apply bool_decide_eq_true in Em. exists [].
      split; [by rewrite app_nil_r|]. split; [lia|].
      split; [by intros t Ht; apply elem_of_nil in Ht|].
      split; [intros ->; by apply elem_of_nil in Em|].
      intros _. split; [lia|done].
    + exists [term]. split; [done|]. split; [lia|].
      split; [intros t ->%list_elem_of_singleton; split; [done|by right]|].
      split; [by intros ?%app_nil_r_inv|]. intros _. split; [lia|done].
  - exists []. split; [by rewrite app_nil_r|]. split; [lia|].
    split; [by intros t Ht; apply elem_of_nil in Ht|]. split; [done|].
    intros [|]; discriminate.
Qed.

(** The loop over the query terms: the terms it records are query terms
    that occur in the title or in the content, the score never falls and
    stays as it was while no term is recorded, and a query term that occurs
    is recorded and raises the score. *)
Lemma score_fold_spec (title content : str) (query_terms : list str)
    (st : Z * list str) :
  exists added,
    (fold_left (score_term title content) query_terms st).2
    = st.2 ++ added /\
    st.1 <= (fold_left (score_term title content) query_terms st).1 /\
    (forall t, t ∈ added ->
       t ∈ query_terms /\
       (contains title t = true \/ contains content t = true)) /\
    ((fold_left (score_term title content) query_terms st).2 = [] ->
     (fold_left (score_term title content) query_terms st).1 = st.1) /\
    (forall t, t ∈ query_terms ->
       contains title t = true \/ contains content t = true ->
       st.1 < (fold_left (score_term title content) query_terms st).1 /\
       t ∈ (fold_left (score_term title content) query_terms st).2).
Proof.
  revert st. induction query_terms as [|term terms IH]; intros st.
  - exists []. simpl. split; [by rewrite app_nil_r|]. split; [lia|].
    split; [by intros t Ht; apply elem_of_nil in Ht|]. split; [done|].
    by intros t Ht; apply elem_of_nil in Ht.
  - change (fold_left (score_term title content) (term :: terms) st)
      with (fold_left (score_term title content) terms
              (score_term title content st term)).
    destruct (score_term_spec title content st term)
      as (add1 & Hm1 & Hs1 & Hadd1 & Hnil1 & Hhit1).
    destruct (IH (score_term title content st term))
      as (add2 & Hm2 & Hs2 & Hadd2 & Hnil2 & Hhit2).
    set (st1 := score_term title content st term) in *.
    set (st2 := fold_left (score_term title content) terms st1) in *.
    exists (add1 ++ add2). split; [by rewrite Hm2, Hm1, app_assoc|].
    split; [lia|]. split; [|split].
    + intros t [Ht|Ht]%elem_of_app.
      * destruct (Hadd1 t Ht) as [-> Hocc]. split; [left|done].
      * destruct (Hadd2 t Ht) as [Hin Hocc]. split; [by right|done].
    + intros Hnil. rewrite (Hnil2 Hnil). apply Hnil1.
      rewrite Hm2 in Hnil. by apply app_eq_nil in Hnil as [? _].
    + intros t [->|Ht]%elem_of_cons Hocc.
      * destruct (Hhit1 Hocc) as [Hlt Hin]. split; [lia|].
        rewrite Hm2. apply elem_of_app. by left.
      * destruct (Hhit2 t Ht Hocc) as [Hlt Hin]. split; [lia|done].
Qed.

Lemma score_doc_Some (query_terms : list str) (doc : file) (r : result) :
  score_doc query_terms doc = Some r ->
  res_guid r = doc_guid doc /\ res_url r = doc_url doc /\
  res_matched_terms r <> [] /\
  forall t, t ∈ res_matched_terms r ->
    t ∈ query_terms /\
    (contains (Unicode.lower (doc_title doc)) t = true \/
     contains (Unicode.lower (doc_content doc)) t = true).
Proof.
  unfold score_doc. cbv zeta.
  destruct (score_fold_spec (Unicode.lower (doc_title doc))
              (Unicode.lower (doc_content doc)) query_terms (0, []))
    as (added & Hm & _ & Hadd & Hnil & _).
  destruct (fold_left _ _ _) as [score matched]. simpl in *.
  destruct (0 <? score) eqn:E; [|discriminate]. apply Z.ltb_lt in E.
  intros [= <-]. simpl. split; [done|]. split; [done|].
  split; [intros Hmt; specialize (Hnil Hmt); lia|].
  intros t Ht. apply Hadd. by rewrite Hm in Ht.
Qed.

Lemma score_doc_match (query_terms : list str) (doc : file) (t : str) :
  t ∈ query_terms ->
  contains (Unicode.lower (doc_title doc)) t = true \/
  contains (Unicode.lower (doc_content doc)) t = true ->
  exists r, score_doc query_terms doc = Some r /\ t ∈ res_matched_terms r.
Proof.
  intros Ht Hocc. unfold score_doc. cbv zeta.
  destruct (score_fold_spec (Unicode.lower (doc_title doc))
              (Unicode.lower (doc_content doc)) query_terms (0, []))
    as (added & _ & _ & _ & _ & Hhit).
  destruct (Hhit t Ht Hocc) as [Hlt Hin].
  destruct (fold_left _ _ _) as [score matched]. simpl in *.
  destruct (0 <? score) eqn:E; [|apply Z.ltb_ge in E; lia].
  eexists. split; [done|]. done.
Qed.

(** X28: Every result stands for a document of the list: it carries the
    identifier and the address of that document, and its matched terms
    are at least one and are all words of the lower-cased query that
    occur in the lower-cased title or content of the document. *)
Theorem search_docs_results_match (query : str) (docs : list file)
    (max_results : Z) :
  Forall (fun r =>
            exists doc,
              doc ∈ docs /\
              res_guid r = doc_guid doc /\ res_url r = doc_url doc /\
              res_matched_terms r <> [] /\
              forall t, t ∈ res_matched_terms r ->
                t ∈ split_ws [] (Unicode.lower query) /\
                (contains (Unicode.lower (doc_title doc)) t = true \/
                 contains (Unicode.lower (doc_content doc)) t = true))
         (search_docs query docs max_results).
Proof.
  destruct (search_docs_unfold query docs max_results) as (k & -> & _).
  apply Forall_take. rewrite sort_by_score_perm.
  apply Forall_forall. intros r Hr.
  apply list_elem_of_omap in Hr as (doc & Hdoc & Hr).
  exists doc. split; [done|]. by apply score_doc_Some.
Qed.

(** X29: With a bound of at least the number of documents, no matching
    document is left out: a document whose lower-cased title or content
    contains a word of the lower-cased query has a result, which lists
    that word among its matched terms. *)
Theorem search_docs_finds_matches (query : str) (docs : list file)
    (max_results : Z) (doc : file) (t : str) :
  len_list docs <= max_results ->
  doc ∈ docs ->
  t ∈ split_ws [] (Unicode.lower query) ->
  contains (Unicode.lower (doc_title doc)) t = true \/
  contains (Unicode.lower (doc_content doc)) t = true ->
  exists r,
    r ∈ search_docs query docs max_results /\
    res_guid r = doc_guid doc /\ res_url r = doc_url doc /\
    t ∈ res_matched_terms r.
Proof.
  intros Hm Hdoc Ht Hocc.
  destruct (score_doc_match _ doc t Ht Hocc) as (r & Hr & Hin).
  exists r. destruct (score_doc_Some _ _ _ Hr) as (Hg & Hu & _).
  split; [|done].
  destruct (search_docs_unfold query docs max_results) as (k & -> & Hk).
  unfold len_list in Hm. specialize (Hk ltac:(lia)). subst k.
  set (sorted := sort_by_score _).
  assert (length sorted <= length docs)%nat as Hlen.
  { unfold sorted. rewrite sort_by_score_perm. apply omap_length_le. }
  rewrite take_ge by lia. unfold sorted. rewrite sort_by_score_perm.
  apply list_elem_of_omap. eauto.
Qed.

Lemma search_docs_finds_matches_witness :
  exists r,
    r ∈ search_docs (u "Draw CURVES") ServerSamples.docs 5 /\
    res_guid r = doc_guid ServerSamples.doc_surface /\
    res_url r = doc_url ServerSamples.doc_surface /\
    u "curves" ∈ res_matched_terms r.
Proof.
  apply (search_docs_finds_matches (u "Draw CURVES") ServerSamples.docs 5
           ServerSamples.doc_surface (u "curves")).
  - unfold len_list. simpl. lia.
  - apply list_elem_of_here.
  - vm_compute. apply list_elem_of_further, list_elem_of_here.
  - right. by vm_compute.
Defined.

(** *** Loading what the scraper saved *)










End ServerRun.

